(** * Pomodoro timer: countdown engine, session store and cycle controller

    A shallow embedding of [src/main.py]: the [TimerThread] countdown loop,
    the [DatabaseManager] data-access layer and the session-cycling part of
    [PomodoroApp], followed by the properties proved about them.

    Conventions.
    - Python integers are [Z]; [%] is [Z.modulo] (both take the sign of the
      divisor) and raises [ZeroDivisionError] on a zero divisor.
    - Python strings and SQL [TEXT] cells are [string].
    - A method that can raise returns an [outcome] next to the state it leaves
      behind: an exception does not undo the writes made before it.
    - Widgets, labels, charts and sounds are not modelled; a handler that only
      repaints leaves the state unchanged. The queries a repaint of the
      statistics runs are modelled, for what they return and raise. *)

From Stdlib Require Import ZArith List String Ascii Bool Lia Sorted DecimalString.
From Stdlib Require Import Permutation.
Import ListNotations.
Open Scope string_scope.
Open Scope list_scope.
Open Scope Z_scope.

(** ** Exceptions *)

Inductive exn : Type :=
| OperationalError   (* sqlite3: no such column, syntax error, database or
                        disk is full, integer overflow *)
| OverflowError      (* sqlite3: Python int too large to convert to SQLite INTEGER *)
| IntegrityError     (* sqlite3: UNIQUE constraint failed, datatype mismatch *)
| ZeroDivisionError  (* integer modulo by zero *)
| OutsideModel.      (* not a Python exception: an input the embedding does
                        not cover (see [sql_update] and [charts_repaint]) *)

Inductive outcome (A : Type) : Type :=
| Ok (a : A)
| Raise (e : exn).
Arguments Ok {A} a.
Arguments Raise {A} e.

(** ** TimerThread: the countdown engine *)

Module TimerThread.

(** The two Qt signals of the class. *)
Inductive signal : Type :=
| time_updated (seconds : Z)
| timer_finished.

(** The attributes set in [__init__], and [isRunning]: whether the
    underlying QThread is executing [run]. *)
Record t : Type := mk {
  duration : Z;
  remaining : Z;
  is_running : bool;
  is_paused : bool;
  isRunning : bool
}.

Definition init : t := mk 0 0 false false false.

(** One pass of [run]'s [while self.is_running] loop, taken as one atomic
    step: the test and, when it holds, the body up to [msleep]. The thread
    leaves [run] when the test fails or at [break]; the one-second sleep
    itself is not modelled. *)
Definition loop_pass (s : t) : t * list signal :=
  if is_running s then
    if negb (is_paused s) then
      if remaining s <=? 0 then
        (mk (duration s) (remaining s) false (is_paused s) false,
         [time_updated (remaining s); timer_finished])
      else
        (mk (duration s) (remaining s - 1) (is_running s) (is_paused s)
            (isRunning s),
         [time_updated (remaining s)])
    else (s, [])
  else (mk (duration s) (remaining s) false (is_paused s) false, []).

(** [run] until the thread returns. [None]: the fuel ran out first. *)
Fixpoint run (fuel : nat) (s : t) : option (t * list signal) :=
  if isRunning s then
    match fuel with
    | O => None
    | S fuel' =>
        let (s1, e1) := loop_pass s in
        match run fuel' s1 with
        | Some (s2, e2) => Some (s2, e1 ++ e2)
        | None => None
        end
    end
  else Some (s, []).

(** [self.start()] happens only when the thread is not already running. *)
Definition start_timer (d : Z) (s : t) : t :=
  mk d d true false true.

Definition pause_timer (s : t) : t :=
  mk (duration s) (remaining s) (is_running s) true (isRunning s).

Definition resume_timer (s : t) : t :=
  mk (duration s) (remaining s) (is_running s) false (isRunning s).

(** [stop_timer], taken as landing between two passes of the loop:
    [quit(); wait()] returns once the thread has left [run]. *)
Definition stop_timer (s : t) : t :=
  mk (duration s) 0 false false false.

(** What can happen to a started engine: the thread takes a pass of its
    loop, or the owner pauses or resumes it. *)
Inductive action : Type := Pass | Pause | Resume.

Definition act (a : action) (s : t) : t * list signal :=
  match a with
  | Pass => if isRunning s then loop_pass s else (s, [])
  | Pause => (pause_timer s, [])
  | Resume => (resume_timer s, [])
  end.

Fixpoint exec (acts : list action) (s : t) : t * list signal :=
  match acts with
  | [] => (s, [])
  | a :: rest =>
      let (s1, e1) := act a s in
      let (s2, e2) := exec rest s1 in
      (s2, e1 ++ e2)
  end.

(** Number of steps of a schedule in which [remaining] was decremented. *)
Fixpoint decrements (acts : list action) (s : t) : Z :=
  match acts with
  | [] => 0
  | a :: rest =>
      let s1 := fst (act a s) in
      (if remaining s1 <? remaining s then 1 else 0) + decrements rest s1
  end.

(** The values carried by the [time_updated] signals of a trace, in order. *)
Fixpoint updates (evs : list signal) : list Z :=
  match evs with
  | [] => []
  | time_updated n :: rest => n :: updates rest
  | timer_finished :: rest => updates rest
  end.

Definition is_finished (e : signal) : bool :=
  match e with timer_finished => true | time_updated _ => false end.

Definition finished_count (evs : list signal) : nat :=
  List.length (filter is_finished evs).

(** The values [n, n-1, ..., 0], used to state what a countdown reports. *)
Fixpoint countdown (n : nat) : list Z :=
  match n with
  | O => [0]
  | S m => Z.of_nat (S m) :: countdown m
  end.

End TimerThread.

(** ** DatabaseManager: the SQLite store

    The two tables are lists of typed rows in the order a scan reads them,
    which for the rows this program inserts is the order of insertion. An
    [INTEGER] cell is a [Z] and a [TEXT] cell a [string]. The [date] column holds
    [datetime.now().isoformat()]; a [datetime] is modelled by its number of
    microseconds since midnight of 0001-01-01, local time, which orders the
    same way as the ISO text the queries compare, and whose calendar day,
    SQL's [date(date)], is its quotient by the length of a day.

    The connection keeps two images of the tables: [view], what its own
    statements read and write, and [durable], what [commit] last saved. *)

Module DatabaseManager.

Definition datetime : Type := Z.

Definition microseconds_per_day : Z := 86400000000.

(** [datetime.max], the last microsecond of year 9999: its day is the
    3652059th counted from that of [datetime.min]. *)
Definition datetime_max : datetime := 3652059 * microseconds_per_day - 1.

Definition timedelta_days (days : Z) : Z := days * microseconds_per_day.

(** [datetime.now() - timedelta(days=days)]: Python raises [OverflowError]
    when the result is not a [datetime], that is when it falls before
    [datetime.min] or after [datetime.max] (a number of days that
    [timedelta] itself refuses is among these). *)
Definition days_before (now : datetime) (days : Z) : outcome datetime :=
  let d := now - timedelta_days days in
  if (0 <=? d) && (d <=? datetime_max) then Ok d else Raise OverflowError.

(** SQL's [date(date)] on the ISO text of a datetime: its calendar day,
    here the number of the day counted from that of [datetime.min]. SQLite
    rounds the time to milliseconds before it checks the range of what it
    has read, so in the last half millisecond of year 9999 the result is
    [NULL], here [None]. *)
Definition sql_date (d : datetime) : option Z :=
  if (0 <=? d) && (d <=? datetime_max - 500)
  then Some (d / microseconds_per_day) else None.

(** A Python value bound to a [?] of a statement: an [int] or a [str], the
    two kinds this program binds. *)
Inductive value : Type :=
| VInt (z : Z)
| VText (s : string).

(** sqlite3 binds a Python integer only when it fits SQLite's signed
    64-bit [INTEGER]. *)
Definition sqlite_int (z : Z) : bool :=
  (- 2 ^ 63 <=? z) && (z <? 2 ^ 63).

Module sessions.
Record row : Type := mk {
  id : Z;
  date : datetime;
  session_type : string;
  duration : Z;
  completed : Z;
  task_name : string;
  notes : string
}.
End sessions.

Module settings.
Record row : Type := mk {
  id : Z;
  work_duration : Z;
  short_break : Z;
  long_break : Z;
  long_break_interval : Z;
  auto_start_breaks : Z;
  auto_start_work : Z;
  sound_enabled : Z;
  username : string
}.
End settings.

(** The rows of both tables and the [sqlite_sequence] entry that
    [AUTOINCREMENT] keeps for each. *)
Record tables : Type := mk_tables {
  sessions_rows : list sessions.row;
  sessions_seq : Z;
  settings_rows : list settings.row;
  settings_seq : Z
}.

Record t : Type := mk {
  view : tables;
  durable : tables
}.

Definition commit (c : t) : t := mk (view c) (view c).

(** What is left when SQLite abandons the open transaction. *)
Definition rollback (c : t) : t := mk (durable c) (durable c).

(** The key [AUTOINCREMENT] proposes for a new row: one more than the
    largest key in the table (1 for an empty table), and at least one more
    than the [sqlite_sequence] entry, which holds the largest key the table
    has ever been given (0 when there is no entry). The [INSERT] goes
    through when this key is a 64-bit integer; otherwise the keys are used
    up, SQLite reports that the database is full and abandons the
    transaction. *)
Definition next_id (seq : Z) (ids : list Z) : Z :=
  Z.max
    match ids with
    | [] => 1
    | i :: rest => fold_right Z.max i rest + 1
    end
    (seq + 1).

Definition default_username : string := "Kullanƒ±cƒ±".

(** [create_tables]: the tables always exist in the model, so only the
    seeding of the default settings row is left. When the [INSERT] fails
    the exception leaves the method before [commit]. *)
Definition create_tables (c : t) : outcome unit * t :=
  let tb := view c in
  if (Z.of_nat (List.length (settings_rows tb)) =? 0) then
    let i := next_id (settings_seq tb) (map settings.id (settings_rows tb)) in
    if sqlite_int i then
      (Ok tt,
       commit (mk (mk_tables (sessions_rows tb) (sessions_seq tb)
                     (settings_rows tb
                      ++ [settings.mk i 25 5 15 4 0 0 1 default_username]) i)
                  (durable c)))
    else (Raise OperationalError, rollback c)
  else (Ok tt, commit c).

(** [add_session], with [now] the value of [datetime.now()]. Binding a
    parameter that does not fit raises before anything is written; after
    that the [INSERT] needs a key. *)
Definition add_session (now : datetime) (session_type : string)
    (duration completed : Z) (task_name notes : string) (c : t)
    : outcome unit * t :=
  if sqlite_int duration && sqlite_int completed then
    let tb := view c in
    let i := next_id (sessions_seq tb) (map sessions.id (sessions_rows tb)) in
    if sqlite_int i then
      let r := sessions.mk i now session_type duration completed task_name notes in
      (Ok tt,
       commit (mk (mk_tables (sessions_rows tb ++ [r]) i
                     (settings_rows tb) (settings_seq tb))
                  (durable c)))
    else (Raise OperationalError, rollback c)
  else (Raise OverflowError, c).

(** [SELECT * FROM settings ORDER BY id DESC LIMIT 1]. *)
Fixpoint latest (rows : list settings.row) : option settings.row :=
  match rows with
  | [] => None
  | r :: rest =>
      match latest rest with
      | Some r' => if settings.id r <? settings.id r' then Some r' else Some r
      | None => Some r
      end
  end.

Definition get_settings (c : t) : option settings.row :=
  latest (settings_rows (view c)).

(** The columns of [settings]. *)
Inductive column : Type :=
| c_id | c_work_duration | c_short_break | c_long_break
| c_long_break_interval | c_auto_start_breaks | c_auto_start_work
| c_sound_enabled | c_username.

Definition ascii_lower (a : ascii) : ascii :=
  let n := nat_of_ascii a in
  if ((65 <=? n) && (n <=? 90))%nat then ascii_of_nat (n + 32) else a.

Fixpoint lower (s : string) : string :=
  match s with
  | EmptyString => EmptyString
  | String a rest => String (ascii_lower a) (lower rest)
  end.

(** The keys of [kwargs] this model covers: the names one can write as a
    keyword argument, an ASCII letter or underscore followed by letters,
    digits and underscores, [self] apart (Python rejects a call that passes
    it, so it never is a key). SQLite reads such a key as one word. A
    dictionary unpacked into the call can carry any other text as a key, and
    the f-string pastes it into the statement as it is; what SQLite makes of
    it then is not modelled. *)
Definition identifier_start (a : ascii) : bool :=
  let n := nat_of_ascii a in
  ((65 <=? n) && (n <=? 90) || (97 <=? n) && (n <=? 122) || (n =? 95))%nat.

Definition identifier_char (a : ascii) : bool :=
  let n := nat_of_ascii a in
  (identifier_start a || (48 <=? n) && (n <=? 57))%nat.

Fixpoint identifier_chars (s : string) : bool :=
  match s with
  | EmptyString => true
  | String a rest => identifier_char a && identifier_chars rest
  end.

Definition plain_name (key : string) : bool :=
  match key with
  | EmptyString => false
  | String a rest => identifier_start a && identifier_chars rest
  end
  && negb (key =? "self")%string.

(** How SQLite resolves the word a keyword argument puts after [SET]:
    column names are matched without regard to ASCII case, and [rowid],
    [oid] and [_rowid_] name the [INTEGER PRIMARY KEY]. Any other word, SQL
    keywords included, makes the statement fail to compile. *)
Definition column_of_name (key : string) : option column :=
  let k := lower key in
  if (k =? "id")%string || (k =? "rowid")%string
     || (k =? "oid")%string || (k =? "_rowid_")%string then Some c_id
  else if (k =? "work_duration")%string then Some c_work_duration
  else if (k =? "short_break")%string then Some c_short_break
  else if (k =? "long_break")%string then Some c_long_break
  else if (k =? "long_break_interval")%string then Some c_long_break_interval
  else if (k =? "auto_start_breaks")%string then Some c_auto_start_breaks
  else if (k =? "auto_start_work")%string then Some c_auto_start_work
  else if (k =? "sound_enabled")%string then Some c_sound_enabled
  else if (k =? "username")%string then Some c_username
  else None.

Definition set_int (c : column) (z : Z) (r : settings.row) : settings.row :=
  let '(settings.mk i w s l n b k e u) := r in
  match c with
  | c_id => settings.mk z w s l n b k e u
  | c_work_duration => settings.mk i z s l n b k e u
  | c_short_break => settings.mk i w z l n b k e u
  | c_long_break => settings.mk i w s z n b k e u
  | c_long_break_interval => settings.mk i w s l z b k e u
  | c_auto_start_breaks => settings.mk i w s l n z k e u
  | c_auto_start_work => settings.mk i w s l n b z e u
  | c_sound_enabled => settings.mk i w s l n b k z u
  | c_username => r
  end.

Definition set_username (s : string) (r : settings.row) : settings.row :=
  let '(settings.mk i w sb l n b k e _) := r in
  settings.mk i w sb l n b k e s.

(** The text SQLite stores for an integer in a [TEXT] column. *)
Definition decimal (z : Z) : string :=
  DecimalString.NilZero.string_of_int (Z.to_int z).

Definition has_id (i : Z) (rows : list settings.row) : bool :=
  existsb (fun r => settings.id r =? i) rows.

Definition update_where_id (f : settings.row -> settings.row) (i : Z)
    (tb : tables) : tables :=
  mk_tables (sessions_rows tb) (sessions_seq tb)
    (map (fun r => if settings.id r =? i then f r else r) (settings_rows tb))
    (settings_seq tb).

(** [UPDATE settings SET {key} = ? WHERE id = ?], on the connection's view.
    The statement is compiled first (an unknown column fails there), then
    its parameters are bound, then it runs; a statement that fails changes
    nothing. A value of the column's declared kind is stored as it is.
    Otherwise SQLite's column affinity decides: an integer given to
    [username] is stored as its decimal text; text given to an [INTEGER]
    column is converted when it reads as a number and kept as text when it
    does not, which the typed rows cannot hold. There, and for a key that
    is no [plain_name], the model has no answer and says so with
    [OutsideModel]; the properties below keep to the keys and values it
    covers. *)
Definition sql_update (key : string) (v : value) (i : Z) (tb : tables)
    : outcome tables :=
  match column_of_name key with
  | None => if plain_name key then Raise OperationalError else Raise OutsideModel
  | Some c =>
      match v, c with
      | VInt z, c_username =>
          if sqlite_int z
          then Ok (update_where_id (set_username (decimal z)) i tb)
          else Raise OverflowError
      | VInt z, c_id =>
          if negb (sqlite_int z) then Raise OverflowError
          else if has_id i (settings_rows tb) && negb (z =? i)
                  && has_id z (settings_rows tb)
          then Raise IntegrityError
          else Ok (update_where_id (set_int c_id z) i tb)
      | VInt z, _ =>
          if sqlite_int z then Ok (update_where_id (set_int c z) i tb)
          else Raise OverflowError
      | VText s, c_username => Ok (update_where_id (set_username s) i tb)
      | VText s, _ => Raise OutsideModel
      end
  end.

(** The keyword arguments [sql_update] covers: a plain name, and no text
    for an [INTEGER] column. *)
Definition covered (kw : string * value) : bool :=
  plain_name (fst kw)
  && match snd kw, column_of_name (fst kw) with
     | VText _, Some c_username => true
     | VText _, Some _ => false
     | _, _ => true
     end.

(** The [for key, value in kwargs.items()] loop: statements run in the
    order the keyword arguments were given, up to the first that raises. *)
Fixpoint execute_updates (kwargs : list (string * value)) (i : Z)
    (tb : tables) : outcome unit * tables :=
  match kwargs with
  | [] => (Ok tt, tb)
  | (key, v) :: rest =>
      match sql_update key v i tb with
      | Ok tb' => execute_updates rest i tb'
      | Raise e => (Raise e, tb)
      end
  end.

(** [update_settings] with its keyword arguments. An exception leaves the
    method before [commit]: the statements already run stay in the
    connection's view, uncommitted. *)
Definition update_settings (kwargs : list (string * value)) (c : t)
    : outcome unit * t :=
  match get_settings c with
  | Some current =>
      match execute_updates kwargs (settings.id current) (view c) with
      | (Ok _, tb) => (Ok tt, commit (mk tb (durable c)))
      | (Raise e, tb) => (Raise e, mk tb (durable c))
      end
  | None => (Ok tt, commit c)
  end.

(** The element of the tuple [get_settings] returns that holds a column. *)
Definition cell (c : column) (r : settings.row) : value :=
  match c with
  | c_id => VInt (settings.id r)
  | c_work_duration => VInt (settings.work_duration r)
  | c_short_break => VInt (settings.short_break r)
  | c_long_break => VInt (settings.long_break r)
  | c_long_break_interval => VInt (settings.long_break_interval r)
  | c_auto_start_breaks => VInt (settings.auto_start_breaks r)
  | c_auto_start_work => VInt (settings.auto_start_work r)
  | c_sound_enabled => VInt (settings.sound_enabled r)
  | c_username => VText (settings.username r)
  end.

(** A value of the kind its column declares, and which sqlite3 can bind:
    text for [username], a 64-bit integer for the others. *)
Definition fits (c : column) (v : value) : bool :=
  match c, v with
  | c_username, VText _ => true
  | c_username, VInt _ => false
  | _, VInt z => sqlite_int z
  | _, VText _ => false
  end.

(** A keyword argument that names a settings field (a column other than the
    key) and gives it a fitting value. *)
Definition assignable (kw : string * value) : bool :=
  match column_of_name (fst kw) with
  | Some c_id => false
  | Some col => fits col (snd kw)
  | None => false
  end.

Definition column_eqb (a b : column) : bool :=
  match a, b with
  | c_id, c_id | c_work_duration, c_work_duration
  | c_short_break, c_short_break | c_long_break, c_long_break
  | c_long_break_interval, c_long_break_interval
  | c_auto_start_breaks, c_auto_start_breaks
  | c_auto_start_work, c_auto_start_work
  | c_sound_enabled, c_sound_enabled | c_username, c_username => true
  | _, _ => false
  end.

(** What a column holds once the keyword arguments have been assigned in
    order, given what it held before: the last value given to it, if any. *)
Fixpoint written (kwargs : list (string * value)) (col : column) (old : value)
    : value :=
  match kwargs with
  | [] => old
  | (key, v) :: rest =>
      written rest col
        match column_of_name key with
        | Some c => if column_eqb c col then v else old
        | None => old
        end
  end.

(** A row of [get_daily_stats]; [day] is [None] for SQL's [NULL]. *)
Record daily : Type := mk_daily {
  day : option Z;
  total_sessions : Z;
  completed_sessions : Z;
  work_minutes : Z
}.

(** Python's [sum] of integers. *)
Definition sum (l : list Z) : Z := fold_right Z.add 0 l.

(** SQL's [SUM] of integers: a 64-bit accumulator takes the values in the
    order the rows of the group are read, and the query fails with "integer
    overflow" once it leaves the 64-bit range, also when later values would
    bring it back. [None] stands for that failure. *)
Fixpoint sql_sum_from (acc : Z) (l : list Z) : option Z :=
  match l with
  | [] => Some acc
  | x :: rest =>
      if sqlite_int (acc + x) then sql_sum_from (acc + x) rest else None
  end.

Definition sql_sum (l : list Z) : option Z := sql_sum_from 0 l.

(** The order and equality of [ORDER BY day] and [GROUP BY]: [NULL] comes
    before every day and is a group of its own. *)
Definition day_ltb (a b : option Z) : bool :=
  match a, b with
  | None, Some _ => true
  | Some x, Some y => x <? y
  | _, None => false
  end.

Definition day_eqb (a b : option Z) : bool :=
  match a, b with
  | None, None => true
  | Some x, Some y => x =? y
  | _, _ => false
  end.

Definition day_lt (a b : option Z) : Prop := day_ltb a b = true.

(** The distinct values of a list, ascending: the groups of
    [GROUP BY date(date) ORDER BY day]. *)
Fixpoint insert_day (d : option Z) (l : list (option Z)) : list (option Z) :=
  match l with
  | [] => [d]
  | x :: rest =>
      if day_ltb d x then d :: l
      else if day_eqb d x then l
      else x :: insert_day d rest
  end.

Definition group_days (rows : list sessions.row) : list (option Z) :=
  fold_right insert_day [] (map (fun r => sql_date (sessions.date r)) rows).

(** The aggregates of one group; [None] when one of its sums fails. *)
Definition aggregate (rows : list sessions.row) (d : option Z) : option daily :=
  let g := filter (fun r => day_eqb (sql_date (sessions.date r)) d) rows in
  match sql_sum (map (fun r => if sessions.completed r =? 1 then 1 else 0) g),
        sql_sum (map (fun r =>
                        if (sessions.session_type r =? "work")%string
                           && (sessions.completed r =? 1)
                        then sessions.duration r else 0) g)
  with
  | Some completed, Some minutes =>
      Some (mk_daily d (Z.of_nat (List.length g)) completed minutes)
  | _, _ => None
  end.

(** All the elements of a list of results, when none has failed. *)
Fixpoint collect {A : Type} (l : list (option A)) : option (list A) :=
  match l with
  | [] => Some []
  | None :: _ => None
  | Some x :: rest =>
      match collect rest with
      | Some xs => Some (x :: xs)
      | None => None
      end
  end.

(** [get_daily_stats(days)], with [now] the value of [datetime.now()]. The
    window is computed in Python, before the query is run. *)
Definition get_daily_stats (now : datetime) (days : Z) (c : t)
    : outcome (list daily) :=
  match days_before now days with
  | Raise e => Raise e
  | Ok date_limit =>
      let selected :=
        filter (fun r => date_limit <=? sessions.date r)
          (sessions_rows (view c)) in
      match collect (map (aggregate selected) (group_days selected)) with
      | Some stats => Ok stats
      | None => Raise OperationalError
      end
  end.

(** Rows by descending [date]; rows that carry the same [date] stay in the
    order of the scan, as SQLite's sorter leaves them. *)
Fixpoint insert_desc (r : sessions.row) (l : list sessions.row)
    : list sessions.row :=
  match l with
  | [] => [r]
  | x :: rest =>
      if sessions.date x <=? sessions.date r then r :: l
      else x :: insert_desc r rest
  end.

Definition order_by_date_desc (rows : list sessions.row) : list sessions.row :=
  fold_right insert_desc [] rows.

(** [get_sessions(days)], with [now] the value of [datetime.now()]. *)
Definition get_sessions (now : datetime) (days : Z) (c : t)
    : outcome (list sessions.row) :=
  match days_before now days with
  | Raise e => Raise e
  | Ok date_limit =>
      Ok (order_by_date_desc
            (filter (fun r => date_limit <=? sessions.date r)
               (sessions_rows (view c))))
  end.

End DatabaseManager.

(** ** SettingsDialog: what the dialog's widgets hold when it is accepted *)

Module SettingsDialog.

Record t : Type := mk {
  username_edit : string;
  work_spin : Z;
  short_break_spin : Z;
  long_break_spin : Z;
  long_break_interval_spin : Z;
  auto_start_breaks_check : bool;
  auto_start_work_check : bool;
  sound_enabled_check : bool
}.

(** The [setMinimum] and [setMaximum] of the four spin boxes. *)
Definition in_range (d : t) : bool :=
  (1 <=? work_spin d) && (work_spin d <=? 60)
  && (1 <=? short_break_spin d) && (short_break_spin d <=? 30)
  && (1 <=? long_break_spin d) && (long_break_spin d <=? 60)
  && (2 <=? long_break_interval_spin d) && (long_break_interval_spin d <=? 10).

Definition kwargs (d : t) : list (string * DatabaseManager.value) :=
  [ ("username", DatabaseManager.VText (username_edit d));
    ("work_duration", DatabaseManager.VInt (work_spin d));
    ("short_break", DatabaseManager.VInt (short_break_spin d));
    ("long_break", DatabaseManager.VInt (long_break_spin d));
    ("long_break_interval", DatabaseManager.VInt (long_break_interval_spin d));
    ("auto_start_breaks", DatabaseManager.VInt (Z.b2z (auto_start_breaks_check d)));
    ("auto_start_work", DatabaseManager.VInt (Z.b2z (auto_start_work_check d)));
    ("sound_enabled", DatabaseManager.VInt (Z.b2z (sound_enabled_check d))) ].

Definition save_settings (d : t) (c : DatabaseManager.t)
    : outcome unit * DatabaseManager.t :=
  DatabaseManager.update_settings (kwargs d) c.

End SettingsDialog.

(** ** StatisticsWidget: the numbers behind the charts

    [update_charts] draws four charts; what is modelled is the two queries
    it starts with, which can raise, and the data then handed to each chart,
    [None] where the [if] around the chart skips it. The drawing itself is
    matplotlib's and is not modelled. *)

Module StatisticsWidget.

(** The [session_types] dictionary of the fourth chart, as the association
    list of its keys in insertion order: a first occurrence adds the key at
    the end with count 1, a later one increments it in place. *)
Fixpoint count_type (ty : string) (counts : list (string * Z))
    : list (string * Z) :=
  match counts with
  | [] => [(ty, 0 + 1)]
  | (k, n) :: rest =>
      if (k =? ty)%string then (k, n + 1) :: rest
      else (k, n) :: count_type ty rest
  end.

(** [session_types.get(ty, 0)]. *)
Fixpoint count_of (ty : string) (counts : list (string * Z)) : Z :=
  match counts with
  | [] => 0
  | (k, n) :: rest => if (k =? ty)%string then n else count_of ty rest
  end.

Definition session_types (sessions : list DatabaseManager.sessions.row)
    : list (string * Z) :=
  fold_left (fun counts s => count_type (DatabaseManager.sessions.session_type s) counts)
    sessions [].

Record charts : Type := mk {
  (** dates and work minutes of the daily bars *)
  daily_work : option (list (option Z) * list Z);
  (** completed and incomplete counts of the pie *)
  completion : option (Z * Z);
  (** dates and completed sessions of the trend line *)
  weekly_trend : option (list (option Z) * list Z);
  (** labels and sizes of the session type bars *)
  type_distribution : option (list string * list Z)
}.

(** The data of the four charts, from the results of the two queries. *)
Definition chart_data (sessions : list DatabaseManager.sessions.row)
    (daily_stats : list DatabaseManager.daily) : charts :=
  let nonempty {A : Type} (l : list A) :=
    match l with [] => false | _ :: _ => true end in
  mk
    (if nonempty daily_stats
     then Some (map DatabaseManager.day daily_stats,
                map DatabaseManager.work_minutes daily_stats)
     else None)
    (if nonempty sessions
     then
       let completed :=
         Z.of_nat (List.length
                     (filter (fun s => DatabaseManager.sessions.completed s =? 1)
                        sessions)) in
       let total := Z.of_nat (List.length sessions) in
       Some (completed, total - completed)
     else None)
    (if nonempty daily_stats
     then Some (map DatabaseManager.day daily_stats,
                map DatabaseManager.completed_sessions daily_stats)
     else None)
    (if nonempty sessions
     then Some (map fst (session_types sessions), map snd (session_types sessions))
     else None).

(** [update_charts], with [now1] and [now2] the clock as [get_sessions] and
    [get_daily_stats] read it: the two queries, and the data the method
    hands to its plotting calls. The drawing itself is the plotting
    library's and is not modelled. *)
Definition update_charts (now1 now2 : DatabaseManager.datetime)
    (c : DatabaseManager.t) : outcome charts :=
  match DatabaseManager.get_sessions now1 30 c with
  | Raise e => Raise e
  | Ok sessions =>
      match DatabaseManager.get_daily_stats now2 7 c with
      | Raise e => Raise e
      | Ok daily_stats => Ok (chart_data sessions daily_stats)
      end
  end.

End StatisticsWidget.

(** ** PomodoroApp: the session cycle controller *)

Module PomodoroApp.

Record t : Type := mk {
  db_manager : DatabaseManager.t;
  timer_thread : TimerThread.t;
  current_session : Z;
  session_type : string;
  is_running : bool;
  work_duration : Z;
  short_break_duration : Z;
  long_break_duration : Z;
  long_break_interval : Z;
  auto_start_breaks : bool;
  auto_start_work : bool;
  sound_enabled : bool;
  task_input : string
}.

Definition with_db (c : DatabaseManager.t) (a : t) : t :=
  mk c (timer_thread a) (current_session a) (session_type a) (is_running a)
     (work_duration a) (short_break_duration a) (long_break_duration a)
     (long_break_interval a) (auto_start_breaks a) (auto_start_work a)
     (sound_enabled a) (task_input a).

Definition with_timer (th : TimerThread.t) (a : t) : t :=
  mk (db_manager a) th (current_session a) (session_type a) (is_running a)
     (work_duration a) (short_break_duration a) (long_break_duration a)
     (long_break_interval a) (auto_start_breaks a) (auto_start_work a)
     (sound_enabled a) (task_input a).

Definition with_current_session (n : Z) (a : t) : t :=
  mk (db_manager a) (timer_thread a) n (session_type a) (is_running a)
     (work_duration a) (short_break_duration a) (long_break_duration a)
     (long_break_interval a) (auto_start_breaks a) (auto_start_work a)
     (sound_enabled a) (task_input a).

Definition with_session_type (ty : string) (a : t) : t :=
  mk (db_manager a) (timer_thread a) (current_session a) ty (is_running a)
     (work_duration a) (short_break_duration a) (long_break_duration a)
     (long_break_interval a) (auto_start_breaks a) (auto_start_work a)
     (sound_enabled a) (task_input a).

Definition with_is_running (b : bool) (a : t) : t :=
  mk (db_manager a) (timer_thread a) (current_session a) (session_type a) b
     (work_duration a) (short_break_duration a) (long_break_duration a)
     (long_break_interval a) (auto_start_breaks a) (auto_start_work a)
     (sound_enabled a) (task_input a).

Definition with_task_input (s : string) (a : t) : t :=
  mk (db_manager a) (timer_thread a) (current_session a) (session_type a)
     (is_running a)
     (work_duration a) (short_break_duration a) (long_break_duration a)
     (long_break_interval a) (auto_start_breaks a) (auto_start_work a)
     (sound_enabled a) s.

(** Python's [bool] of an integer. *)
Definition py_bool (z : Z) : bool := negb (z =? 0).

(** The three integers [update_profile_stats] puts on the profile tab. The
    success rate, a floating-point percentage, and the text of the recent
    sessions are left out. *)
Record profile : Type := mk_profile {
  total_sessions : Z;
  completed_sessions : Z;
  total_work_time : Z
}.

Definition update_profile_stats (now : DatabaseManager.datetime) (a : t)
    : outcome profile :=
  match DatabaseManager.get_sessions now 30 (db_manager a) with
  | Raise e => Raise e
  | Ok sessions =>
      Ok (mk_profile
            (Z.of_nat (List.length sessions))
            (Z.of_nat (List.length
                         (filter (fun s => DatabaseManager.sessions.completed s =? 1)
                            sessions)))
            (DatabaseManager.sum
               (map DatabaseManager.sessions.duration
                  (filter (fun s =>
                             (DatabaseManager.sessions.session_type s =? "work")%string
                             && (DatabaseManager.sessions.completed s =? 1))
                     sessions))))
  end.

(** What the clock reads at each [datetime.now()] of a repaint of the
    statistics: in [update_profile_stats], and in [update_charts] at its
    [get_sessions] and at its [get_daily_stats]. *)
Record clock : Type := mk_clock {
  profile_now : DatabaseManager.datetime;
  sessions_now : DatabaseManager.datetime;
  daily_now : DatabaseManager.datetime
}.

(** The queries of the two repaints, run for what they can raise: the
    numbers go to labels and charts, which are not part of the state. The
    drawing is the plotting library's; a day that SQLite returned as NULL
    reaches it as [None] among the date labels, and what it makes of that is
    not modelled. *)
Definition profile_repaint (now : DatabaseManager.datetime) (a : t)
    : outcome unit :=
  match update_profile_stats now a with
  | Ok _ => Ok tt
  | Raise e => Raise e
  end.

Definition charts_repaint (shown : clock) (c : DatabaseManager.t)
    : outcome unit :=
  match StatisticsWidget.update_charts (sessions_now shown) (daily_now shown) c with
  | Ok ch =>
      match StatisticsWidget.daily_work ch with
      | Some (dates, _) =>
          if forallb (fun d => match d with Some _ => true | None => false end) dates
          then Ok tt else Raise OutsideModel
      | None => Ok tt
      end
  | Raise e => Raise e
  end.

(** [update_profile_stats()] followed by [stats_tab.update_charts()]. *)
Definition repaint (shown : clock) (a : t) : outcome unit :=
  match profile_repaint (profile_now shown) a with
  | Ok _ => charts_repaint shown (db_manager a)
  | Raise e => Raise e
  end.

(** [load_settings]: the cached attributes are assigned only when
    [get_settings] returns a row; the method ends with
    [update_profile_stats], where [now] is read. *)
Definition load_settings (now : DatabaseManager.datetime) (a : t)
    : outcome unit * t :=
  let a' :=
    match DatabaseManager.get_settings (db_manager a) with
    | Some r =>
        mk (db_manager a) (timer_thread a) (current_session a) (session_type a)
           (is_running a)
           (DatabaseManager.settings.work_duration r)
           (DatabaseManager.settings.short_break r)
           (DatabaseManager.settings.long_break r)
           (DatabaseManager.settings.long_break_interval r)
           (py_bool (DatabaseManager.settings.auto_start_breaks r))
           (py_bool (DatabaseManager.settings.auto_start_work r))
           (py_bool (DatabaseManager.settings.sound_enabled r))
           (task_input a)
    | None => a
    end in
  (profile_repaint now a', a').

(** [__init__] on the tables found in the database file: the store is
    opened, [init_ui] builds the statistics tab, whose constructor draws the
    charts, and [load_settings] fills the cache, a placeholder until then
    ([create_tables] has seeded a row if there was none). An exception at
    any of these leaves no application. *)
Definition init (shown : clock) (disk : DatabaseManager.tables) : outcome t :=
  match DatabaseManager.create_tables (DatabaseManager.mk disk disk) with
  | (Raise e, _) => Raise e
  | (Ok _, c) =>
      match charts_repaint shown c with
      | Raise e => Raise e
      | Ok _ =>
          match load_settings (profile_now shown)
                  (mk c TimerThread.init 0 "work" false 0 0 0 0
                      false false false "") with
          | (Raise e, _) => Raise e
          | (Ok _, a) => Ok a
          end
      end
  end.

Definition get_current_duration (a : t) : Z :=
  if (session_type a =? "work")%string then work_duration a
  else if (session_type a =? "short_break")%string then short_break_duration a
  else long_break_duration a.

Definition start_timer (a : t) : t :=
  if negb (is_running a) then
    let duration := get_current_duration a in
    with_is_running true
      (with_timer (TimerThread.start_timer (duration * 60) (timer_thread a)) a)
  else if TimerThread.is_paused (timer_thread a) then
    with_timer (TimerThread.resume_timer (timer_thread a)) a
  else a.

Definition pause_timer (a : t) : t :=
  if is_running a && negb (TimerThread.is_paused (timer_thread a)) then
    with_timer (TimerThread.pause_timer (timer_thread a)) a
  else if is_running a && TimerThread.is_paused (timer_thread a) then
    with_timer (TimerThread.resume_timer (timer_thread a)) a
  else a.

Definition reset_timer (a : t) : t :=
  with_is_running false
    (with_timer (TimerThread.stop_timer (timer_thread a)) a).

(** [move_to_next_session]. The modulo raises on a zero interval, after the
    counter has been incremented. *)
Definition move_to_next_session (a : t) : outcome unit * t :=
  let next :=
    if (session_type a =? "work")%string then
      let a1 := with_current_session (current_session a + 1) a in
      if long_break_interval a1 =? 0 then (Raise ZeroDivisionError, a1)
      else if current_session a1 mod long_break_interval a1 =? 0
      then (Ok tt, with_session_type "long_break" a1)
      else (Ok tt, with_session_type "short_break" a1)
    else (Ok tt, with_session_type "work" a) in
  match next with
  | (Ok _, a2) =>
      if (negb (session_type a2 =? "work")%string && auto_start_breaks a2)
         || ((session_type a2 =? "work")%string && auto_start_work a2)
      then (Ok tt, start_timer a2)
      else (Ok tt, a2)
  | (Raise e, a2) => (Raise e, a2)
  end.

(** [timer_finished], with [now] the value of [datetime.now()] inside
    [add_session] and [shown] the clock of the repaint of the statistics
    that ends the method. *)
Definition timer_finished (now : DatabaseManager.datetime) (shown : clock)
    (a : t) : outcome unit * t :=
  let a1 := with_is_running false a in
  let task_name := task_input a1 in
  let duration := get_current_duration a1 in
  match DatabaseManager.add_session now (session_type a1) duration 1
          task_name "" (db_manager a1) with
  | (Ok _, c) =>
      match move_to_next_session (with_db c a1) with
      | (Ok _, a2) => (repaint shown a2, a2)
      | (Raise e, a2) => (Raise e, a2)
      end
  | (Raise e, c) => (Raise e, with_db c a1)
  end.

(** [open_settings]: [None] when the dialog is cancelled, otherwise the
    contents of its widgets when it is accepted; [now] is the clock the
    reload then reads. *)
Definition open_settings (now : DatabaseManager.datetime)
    (dialog : option SettingsDialog.t) (a : t) : outcome unit * t :=
  match dialog with
  | Some d =>
      match SettingsDialog.save_settings d (db_manager a) with
      | (Ok _, c) => load_settings now (with_db c a)
      | (Raise e, c) => (Raise e, with_db c a)
      end
  | None => (Ok tt, a)
  end.

(** The session history as the connection sees it. *)
Definition history (a : t) : list DatabaseManager.sessions.row :=
  DatabaseManager.sessions_rows (DatabaseManager.view (db_manager a)).

(** The sessions completed when [timer_finished] runs at each of the given
    times: for each, the type that finished and the type that comes next. *)
Fixpoint completions (nows : list (DatabaseManager.datetime * clock)) (a : t)
    : list (string * string) :=
  match nows with
  | [] => []
  | (now, shown) :: rest =>
      let (o, a') := timer_finished now shown a in
      (session_type a, session_type a')
      :: match o with
         | Ok _ => completions rest a'
         | Raise _ => []
         end
  end.

(** The three names a session type takes. *)
Definition known_type (ty : string) : Prop :=
  ty = "work" \/ ty = "short_break" \/ ty = "long_break".

(** Python's [format(z, "02d")]: zero-padded to two characters, sign
    included. *)
Definition format_02d (z : Z) : string :=
  if (0 <=? z) && (z <? 10) then ("0" ++ DatabaseManager.decimal z)%string
  else DatabaseManager.decimal z.

(** The text [update_timer_display] gives the time label. The progress ring
    it also updates is drawn with floating-point arithmetic and left out. *)
Definition time_label (seconds : Z) : string :=
  let minutes := seconds / 60 in
  let secs := seconds mod 60 in
  (format_02d minutes ++ ":" ++ format_02d secs)%string.

End PomodoroApp.

(** ** The running application

    The controller runs in the main thread and the countdown loop in the
    timer thread; a signal the loop emits is queued and its slot runs later
    in the main thread. A state of the process is the controller together
    with the signals emitted and not yet delivered. *)

Module Process.

Record t : Type := mk {
  app : PomodoroApp.t;
  pending : list TimerThread.signal
}.

(** What moves the process on: the timer thread takes a pass of its loop,
    the event loop delivers the oldest pending signal ([now] and [shown]
    are the clock as the slot reads it), or the user clicks a button, closes
    the settings dialog or edits the task field. Buttons are taken as
    clickable at any time, which covers the times they are enabled. *)
Inductive event : Type :=
| ThreadPass
| Deliver (now : DatabaseManager.datetime) (shown : PomodoroApp.clock)
| ClickStart
| ClickPause
| ClickReset
| Settings (dialog : option SettingsDialog.t) (now : DatabaseManager.datetime)
| EditTask (text : string).

(** The dialog's spin boxes only hold values within their bounds. *)
Definition possible (e : event) : bool :=
  match e with
  | Settings (Some d) _ => SettingsDialog.in_range d
  | _ => true
  end.

(** One step; [None] when the event cannot happen or when the slot raises,
    which ends the process. *)
Definition step (e : event) (w : t) : option t :=
  match e with
  | ThreadPass =>
      let (th, sigs) := TimerThread.act TimerThread.Pass
                          (PomodoroApp.timer_thread (app w)) in
      Some (mk (PomodoroApp.with_timer th (app w)) (pending w ++ sigs))
  | Deliver now shown =>
      match pending w with
      | [] => None
      | TimerThread.time_updated _ :: rest => Some (mk (app w) rest)
      | TimerThread.timer_finished :: rest =>
          match PomodoroApp.timer_finished now shown (app w) with
          | (Ok _, a) => Some (mk a rest)
          | (Raise _, _) => None
          end
      end
  | ClickStart => Some (mk (PomodoroApp.start_timer (app w)) (pending w))
  | ClickPause => Some (mk (PomodoroApp.pause_timer (app w)) (pending w))
  | ClickReset => Some (mk (PomodoroApp.reset_timer (app w)) (pending w))
  | Settings dialog now =>
      match PomodoroApp.open_settings now dialog (app w) with
      | (Ok _, a) => Some (mk a (pending w))
      | (Raise _, _) => None
      end
  | EditTask text => Some (mk (PomodoroApp.with_task_input text (app w)) (pending w))
  end.

(** A settings row as a database file holds it: its [INTEGER] cells are
    64-bit integers. *)
Definition settings_fit (r : DatabaseManager.settings.row) : bool :=
  DatabaseManager.sqlite_int (DatabaseManager.settings.work_duration r)
  && DatabaseManager.sqlite_int (DatabaseManager.settings.short_break r)
  && DatabaseManager.sqlite_int (DatabaseManager.settings.long_break r)
  && DatabaseManager.sqlite_int (DatabaseManager.settings.long_break_interval r)
  && DatabaseManager.sqlite_int (DatabaseManager.settings.auto_start_breaks r)
  && DatabaseManager.sqlite_int (DatabaseManager.settings.auto_start_work r)
  && DatabaseManager.sqlite_int (DatabaseManager.settings.sound_enabled r).

Definition on_disk (tb : DatabaseManager.tables) : bool :=
  forallb settings_fit (DatabaseManager.settings_rows tb).

(** The cached durations are values read back from a settings row. *)
Definition cache_fit (a : PomodoroApp.t) : bool :=
  DatabaseManager.sqlite_int (PomodoroApp.work_duration a)
  && DatabaseManager.sqlite_int (PomodoroApp.short_break_duration a)
  && DatabaseManager.sqlite_int (PomodoroApp.long_break_duration a).

Definition consistent (a : PomodoroApp.t) : Prop :=
  on_disk (DatabaseManager.view (PomodoroApp.db_manager a)) = true
  /\ DatabaseManager.settings_rows
       (DatabaseManager.view (PomodoroApp.db_manager a)) <> []
  /\ cache_fit a = true
  /\ DatabaseManager.durable (PomodoroApp.db_manager a)
     = DatabaseManager.view (PomodoroApp.db_manager a).

(** The states the application can be in: it starts on some database file,
    if its constructor returns, and moves by the events above. *)
Inductive reachable : t -> Prop :=
| reachable_init (shown : PomodoroApp.clock) (disk : DatabaseManager.tables)
    (a : PomodoroApp.t) :
    on_disk disk = true ->
    PomodoroApp.init shown disk = Ok a ->
    reachable (mk a [])
| reachable_step (w w' : t) (e : event) :
    reachable w -> possible e = true -> step e w = Some w' ->
    reachable w'.

(** The process as it starts on a database file, [None] when the
    constructor raises, and where a sequence of events takes a state;
    [None] when one of them cannot happen or ends the process. *)
Definition boot (shown : PomodoroApp.clock) (disk : DatabaseManager.tables)
    : option t :=
  match PomodoroApp.init shown disk with
  | Ok a => Some (mk a [])
  | Raise _ => None
  end.

Fixpoint steps (es : list event) (w : t) : option t :=
  match es with
  | [] => Some w
  | e :: rest =>
      if possible e then
        match step e w with
        | Some w' => steps rest w'
        | None => None
        end
      else None
  end.

End Process.

(** ** Sample values

    A clock reading for the examples and a reading of the same clock at
    every [datetime.now()] of a repaint: midnight of 2024-01-01 is 738885
    days after that of 0001-01-01. *)

Definition new_year_2024 : DatabaseManager.datetime :=
  738885 * DatabaseManager.microseconds_per_day.

Definition at_time (now : DatabaseManager.datetime) : PomodoroApp.clock :=
  PomodoroApp.mk_clock now now now.

Definition at_new_year_2024 : PomodoroApp.clock := at_time new_year_2024.

(** A database file with nothing in it, and the store a first start makes
    of it. *)
Definition empty_file : DatabaseManager.tables :=
  DatabaseManager.mk_tables [] 0 [] 0.

Definition fresh_store : DatabaseManager.t :=
  snd (DatabaseManager.create_tables (DatabaseManager.mk empty_file empty_file)).

(** * Properties *)

(** ** The countdown engine *)

Section Engine.

Import TimerThread.








Lemma run_returned (fuel : nat) (s : t) :
  isRunning s = false -> run fuel s = Some (s, []).
Proof. intros H. destruct fuel; simpl; rewrite H; reflexivity. Qed.



(** An unpaused running engine with [n] seconds left reports
    [n, n-1, ..., 0], then finishes, within [n + 1] passes. *)
Lemma run_countdown (n : nat) :
  forall s k,
    isRunning s = true -> is_running s = true -> is_paused s = false ->
    remaining s = Z.of_nat n ->
    run (S n + k) s =
      Some (mk (duration s) 0 false false false,
            map time_updated (countdown n) ++ [timer_finished]).
Proof.
  induction n as [|n IH]; intros s k Hthr Hrun Hp Hrem.
  - simpl. rewrite Hthr. unfold loop_pass. rewrite Hrun, Hp, Hrem. simpl.
    rewrite run_returned by reflexivity. reflexivity.
  - change (S (S n) + k)%nat with (S (S n + k)).
    cbn [run]. rewrite Hthr. unfold loop_pass. rewrite Hrun, Hp. cbn [negb].
    destruct (remaining s <=? 0) eqn:E; [apply Z.leb_le in E; lia|].
    rewrite (IH _ k) by (cbn; auto; lia).
    cbn [duration]. rewrite Hrem. reflexivity.
Qed.





(** *** Pausing and resuming *)

Lemma loop_pass_paused (s : t) :
  is_paused s = true ->
  remaining (fst (loop_pass s)) = remaining s /\ snd (loop_pass s) = [].
Proof.
  intros Hp. unfold loop_pass. rewrite Hp.
  destruct (is_running s); simpl; auto.
Qed.

(** Once the thread has left [run], passes do nothing until a restart. *)
Lemma exec_returned (acts : list action) :
  forall s, isRunning s = false ->
            decrements acts s = 0 /\ snd (exec acts s) = [].
Proof.
  induction acts as [|a acts IH]; intros s Hs; [auto|].
  assert (H1 : isRunning (fst (act a s)) = false
               /\ remaining (fst (act a s)) = remaining s
               /\ snd (act a s) = []).
  { destruct a; simpl; rewrite ?Hs; auto. }
  destruct H1 as (H1 & H2 & H3).
  destruct (IH _ H1) as [IHd IHe].
  simpl. destruct (act a s) as [s1 e1]; simpl in *.
  destruct (exec acts s1) as [s2 e2]; simpl in *.
  rewrite H2, Z.ltb_irrefl, IHd. subst. auto.
Qed.

Lemma existsb_is_finished_app (e1 e2 : list signal) :
  existsb is_finished (e1 ++ e2) =
  existsb is_finished e1 || existsb is_finished e2.
Proof. apply existsb_app. Qed.

(** Along any schedule the decrementing passes account exactly for the time
    that has gone, and [timer_finished] is only emitted when all of it has. *)
Lemma exec_decrements (acts : list action) :
  forall s, 0 <= remaining s ->
    0 <= decrements acts s <= remaining s
    /\ remaining (fst (exec acts s)) = remaining s - decrements acts s
    /\ (existsb is_finished (snd (exec acts s)) = true ->
        decrements acts s = remaining s).
Proof.
  induction acts as [|a acts IH]; intros s Hs.
  - simpl. split; [lia|]. split; [lia|]. intros H; discriminate H.
  - assert (Hstep :
      (remaining (fst (act a s)) = remaining s
       /\ existsb is_finished (snd (act a s)) = false)
      \/ (remaining (fst (act a s)) = remaining s - 1 /\ 0 < remaining s
          /\ existsb is_finished (snd (act a s)) = false)
      \/ (remaining s = 0 /\ remaining (fst (act a s)) = 0
          /\ isRunning (fst (act a s)) = false)).
    { destruct a; cbn [act]; [|left; auto|left; auto].
      destruct (isRunning s); [|left; auto].
      unfold loop_pass.
      destruct (is_running s); [|left; auto].
      destruct (is_paused s); cbn [negb]; [left; auto|].
      destruct (remaining s <=? 0) eqn:E.
      - apply Z.leb_le in E. right; right. cbn. repeat split; lia.
      - apply Z.leb_gt in E. right; left. cbn. repeat split; lia. }
    cbn [exec decrements].
    destruct (act a s) as [s1 e1]. cbn [fst snd] in *.
    destruct Hstep as [(Hr & He) | [(Hr & Hpos & He) | (Hz & Hr & Hthr)]].
    + assert (Hs1 : 0 <= remaining s1) by lia.
      destruct (IH _ Hs1) as (I1 & I2 & I3).
      destruct (exec acts s1) as [s2 e2]. cbn [fst snd] in *.
      rewrite existsb_is_finished_app, He, Hr, Z.ltb_irrefl. cbn [orb].
      split; [lia|]. split; [lia|]. intros Hf. specialize (I3 Hf). lia.
    + assert (Hs1 : 0 <= remaining s1) by lia.
      destruct (IH _ Hs1) as (I1 & I2 & I3).
      destruct (exec acts s1) as [s2 e2]. cbn [fst snd] in *.
      rewrite existsb_is_finished_app, He. cbn [orb].
      replace (remaining s1 <? remaining s) with true
        by (symmetry; apply Z.ltb_lt; lia).
      split; [lia|]. split; [lia|]. intros Hf. specialize (I3 Hf). lia.
    + destruct (exec_returned acts s1 Hthr) as [Hd _].
      assert (Hs1 : 0 <= remaining s1) by lia.
      destruct (IH _ Hs1) as (_ & I2 & _).
      destruct (exec acts s1) as [s2 e2]. cbn [fst snd] in *.
      rewrite Hd, Hr, Hz, Z.ltb_irrefl in *.
      split; [lia|]. split; [lia|]. intros _. lia.
Qed.

Lemma exec_app (a1 a2 : list action) :
  forall s,
    exec (a1 ++ a2) s =
    (fst (exec a2 (fst (exec a1 s))),
     snd (exec a1 s) ++ snd (exec a2 (fst (exec a1 s)))).
Proof.
  induction a1 as [|a a1 IH]; intros s.
  - cbn. destruct (exec a2 s); reflexivity.
  - cbn [app exec]. destruct (act a s) as [s1 e1]. rewrite IH.
    destruct (exec a1 s1) as [s2 e2]. cbn [fst snd].
    destruct (exec a2 s2) as [s3 e3]. cbn [fst snd].
    rewrite app_assoc. reflexivity.
Qed.

Lemma decrements_app (a1 a2 : list action) :
  forall s,
    decrements (a1 ++ a2) s =
    decrements a1 s + decrements a2 (fst (exec a1 s)).
Proof.
  induction a1 as [|a a1 IH]; intros s.
  - reflexivity.
  - cbn [app exec decrements]. rewrite IH.
    destruct (act a s) as [s1 e1]. cbn [fst].
    destruct (exec a1 s1) as [s2 e2]. cbn [fst]. lia.
Qed.

(** A schedule made of passes only is a [run]. *)
Lemma exec_passes_run (k : nat) :
  forall s r, run k s = Some r -> exec (repeat Pass k) s = r.
Proof.
  induction k as [|k IH]; intros s r Hrun.
  - cbn in *. destruct (isRunning s); [discriminate|]. congruence.
  - cbn [repeat exec act]. cbn [run] in Hrun.
    destruct (isRunning s) eqn:Ethr.
    + destruct (loop_pass s) as [s1 e1].
      destruct (run k s1) as [[s2 e2]|] eqn:E; [|discriminate].
      rewrite (IH _ _ E). congruence.
    + rewrite (IH s (s, [])) by (apply run_returned; exact Ethr).
      cbn. congruence.
Qed.

(** Until [timer_finished] is emitted, a started engine stays started. *)
Lemma exec_stays_started (acts : list action) :
  forall s,
    is_running s = true -> isRunning s = true ->
    existsb is_finished (snd (exec acts s)) = false ->
    is_running (fst (exec acts s)) = true
    /\ isRunning (fst (exec acts s)) = true.
Proof.
  induction acts as [|a acts IH]; intros s Hrun Hthr Hnf; [auto|].
  cbn [exec] in *.
  assert (Hstep : existsb is_finished (snd (act a s)) = true
                  \/ (is_running (fst (act a s)) = true
                      /\ isRunning (fst (act a s)) = true)).
  { destruct a; cbn [act]; [|right; auto|right; auto].
    rewrite Hthr. unfold loop_pass. rewrite Hrun.
    destruct (is_paused s); cbn [negb]; [right; auto|].
    destruct (remaining s <=? 0); [left|right]; cbn; auto. }
  destruct (act a s) as [s1 e1]. cbn [fst snd] in *.
  specialize (IH s1).
  destruct (exec acts s1) as [s2 e2]. cbn [fst snd] in *.
  rewrite existsb_is_finished_app in Hnf.
  apply orb_false_iff in Hnf. destruct Hnf as [Hn1 Hn2].
  destruct Hstep as [Hf | [H1 H2]]; [congruence|].
  apply IH; assumption.
Qed.

(** C7. A pass of the loop taken while the engine is paused neither
    decrements [remaining] nor emits a signal. Hence, for an engine started
    with [d * 60] seconds and any interleaving [acts] of loop passes, pauses
    and resumes: the decrementing passes never exceed [d * 60] and account
    exactly for the time gone; if [timer_finished] has been emitted there
    were exactly [d * 60] of them; and if it has not, resuming and letting
    the loop run emits it, again after [d * 60] decrementing passes in all. *)
Theorem pause_resume_loses_no_tick (d : Z) (s0 : t) (acts : list action) :
  1 <= d ->
  (forall p, is_paused p = true ->
             remaining (fst (act Pass p)) = remaining p
             /\ snd (act Pass p) = [])
  /\ 0 <= decrements acts (start_timer (d * 60) s0) <= d * 60
  /\ remaining (fst (exec acts (start_timer (d * 60) s0)))
     = d * 60 - decrements acts (start_timer (d * 60) s0)
  /\ (existsb is_finished (snd (exec acts (start_timer (d * 60) s0))) = true ->
      decrements acts (start_timer (d * 60) s0) = d * 60)
  /\ (existsb is_finished (snd (exec acts (start_timer (d * 60) s0))) = false ->
      forall rest,
        rest = Resume :: repeat Pass
                 (S (Z.to_nat (remaining (fst (exec acts (start_timer (d * 60) s0)))))) ->
        existsb is_finished (snd (exec (acts ++ rest) (start_timer (d * 60) s0))) = true
        /\ decrements (acts ++ rest) (start_timer (d * 60) s0) = d * 60).
Proof.
  intros Hd.
  set (s := start_timer (d * 60) s0).
  assert (Hs : 0 <= remaining s) by (cbn; lia).
  destruct (exec_decrements acts s Hs) as (D1 & D2 & D3).
  change (remaining s) with (d * 60) in D1, D2, D3.
  split.
  { intros p Hp. cbn [act]. destruct (isRunning p); [|auto].
    apply loop_pass_paused. exact Hp. }
  split; [exact D1|]. split; [exact D2|]. split; [exact D3|].
  intros Hnf rest ->.
  destruct (exec_stays_started acts s eq_refl eq_refl Hnf) as [Hrun Hthr].
  set (s1 := fst (exec acts s)) in *.
  assert (Hfin : exec (repeat Pass (S (Z.to_nat (remaining s1)))) (resume_timer s1)
                 = (mk (duration s1) 0 false false false,
                    map time_updated (countdown (Z.to_nat (remaining s1)))
                    ++ [timer_finished])).
  { apply exec_passes_run.
    replace (S (Z.to_nat (remaining s1))) with (S (Z.to_nat (remaining s1)) + 0)%nat
      by lia.
    rewrite (run_countdown (Z.to_nat (remaining s1))); cbn; auto. lia. }
  assert (Hall : existsb is_finished
            (snd (exec (acts ++ Resume :: repeat Pass (S (Z.to_nat (remaining s1)))) s))
            = true).
  { rewrite exec_app. cbn [snd]. rewrite existsb_is_finished_app.
    fold s1. cbn [exec act]. rewrite Hfin. cbn [snd app].
    rewrite existsb_is_finished_app. cbn. rewrite !orb_true_r. reflexivity. }
  split; [exact Hall|].
  apply (exec_decrements _ s Hs). exact Hall.
Qed.

Lemma pause_resume_loses_no_tick_witness :
  1 <= 1
  /\ existsb is_finished
       (snd (exec (repeat Pass 10 ++ [Pause] ++ repeat Pass 5 ++ [Resume]
                   ++ repeat Pass 20 ++ [Pause; Pass; Resume] ++ repeat Pass 31)
                  (start_timer (1 * 60) init))) = true
  /\ decrements (repeat Pass 10 ++ [Pause] ++ repeat Pass 5 ++ [Resume]
                 ++ repeat Pass 20 ++ [Pause; Pass; Resume] ++ repeat Pass 31)
                (start_timer (1 * 60) init) = 1 * 60.
Proof.
  split; [lia|].
  split; [vm_compute; reflexivity|].
  destruct (pause_resume_loses_no_tick 1 init
              (repeat Pass 10 ++ [Pause] ++ repeat Pass 5 ++ [Resume]
               ++ repeat Pass 20 ++ [Pause; Pass; Resume] ++ repeat Pass 31))
    as (_ & _ & _ & Hdone & _); [lia|].
  apply Hdone. vm_compute. reflexivity.
Defined.

End Engine.

(** ** The store *)

Section Store.

Import DatabaseManager.

Lemma latest_In (rows : list settings.row) (r : settings.row) :
  latest rows = Some r -> In r rows.
Proof.
  revert r. induction rows as [|x rows IH]; intros r H; [discriminate|].
  cbn in H. destruct (latest rows) as [r'|].
  - destruct (settings.id x <? settings.id r'); inversion H; subst.
    + right. apply IH. reflexivity.
    + left. reflexivity.
  - inversion H. left. reflexivity.
Qed.

Lemma latest_None (rows : list settings.row) :
  latest rows = None <-> rows = [].
Proof.
  split; [|intros ->; reflexivity].
  destruct rows as [|x rows]; [reflexivity|].
  cbn. destruct (latest rows) as [r'|]; [|discriminate].
  destruct (settings.id x <? settings.id r'); discriminate.
Qed.

(** Rewriting rows without touching their keys commutes with picking the
    row of largest key. *)
Lemma latest_map (g : settings.row -> settings.row) (rows : list settings.row) :
  (forall r, settings.id (g r) = settings.id r) ->
  latest (map g rows) = option_map g (latest rows).
Proof.
  intros Hg. induction rows as [|x rows IH]; [reflexivity|].
  cbn. rewrite IH. destruct (latest rows) as [r'|]; cbn; [|reflexivity].
  rewrite !Hg. destruct (settings.id x <? settings.id r'); reflexivity.
Qed.

Lemma execute_updates_app (pre rest : list (string * value)) (i : Z) :
  forall tb,
    execute_updates (pre ++ rest) i tb =
    match execute_updates pre i tb with
    | (Ok _, tb') => execute_updates rest i tb'
    | (Raise e, tb') => (Raise e, tb')
    end.
Proof.
  induction pre as [|[key v] pre IH]; intros tb; [reflexivity|].
  cbn. destruct (sql_update key v i tb); [apply IH | reflexivity].
Qed.

(** C10. When no settings row exists, [update_settings] raises nothing
    whatever its arguments: the tables the connection sees are unchanged, no
    row is inserted and [get_settings] still returns nothing. All it does is
    commit, so with no uncommitted statement open the connection is left
    exactly as it was. *)
Theorem update_settings_without_row
    (kwargs : list (string * value)) (c : t) :
  get_settings c = None ->
  fst (update_settings kwargs c) = Ok tt
  /\ view (snd (update_settings kwargs c)) = view c
  /\ settings_rows (view (snd (update_settings kwargs c))) = []
  /\ get_settings (snd (update_settings kwargs c)) = None
  /\ durable (snd (update_settings kwargs c)) = view c
  /\ (durable c = view c -> snd (update_settings kwargs c) = c).
Proof.
  intros Hnone. unfold update_settings. rewrite Hnone. cbn.
  repeat split; auto.
  - apply latest_None. exact Hnone.
  - intros Hd. destruct c as [v d]. cbn in *. subst. reflexivity.
Qed.

Lemma update_settings_without_row_witness :
  get_settings (mk (mk_tables [] 0 [] 0) (mk_tables [] 0 [] 0)) = None
  /\ update_settings [("work_duration", VInt 30); ("bogus", VInt 1)]
       (mk (mk_tables [] 0 [] 0) (mk_tables [] 0 [] 0))
     = (Ok tt, mk (mk_tables [] 0 [] 0) (mk_tables [] 0 [] 0)).
Proof.
  split; [reflexivity|].
  destruct (update_settings_without_row
              [("work_duration", VInt 30); ("bogus", VInt 1)]
              (mk (mk_tables [] 0 [] 0) (mk_tables [] 0 [] 0)) eq_refl)
    as (Hok & _ & _ & _ & _ & Hsame).
  rewrite (surjective_pairing (update_settings _ _)), Hok, Hsame; reflexivity.
Defined.

(** An assignment of a fitting value to a column other than the key succeeds
    and rewrites the rows of the given key: the column takes the value, the
    other cells stay. *)
Lemma sql_update_fits (key : string) (col : column) (v : value) (i : Z)
    (tb : tables) :
  column_of_name key = Some col -> col <> c_id -> fits col v = true ->
  exists f,
    sql_update key v i tb = Ok (update_where_id f i tb)
    /\ (forall r, settings.id (f r) = settings.id r)
    /\ (forall r, cell col (f r) = v)
    /\ (forall r col', col' <> col -> cell col' (f r) = cell col' r).
Proof.
  intros Hcol Hid Hfit. unfold sql_update. rewrite Hcol.
  destruct col, v as [z|txt]; cbn in Hfit; try discriminate; try congruence;
    rewrite ?Hfit;
    (eexists; split; [reflexivity|]);
    (split; [intros []; reflexivity|]);
    (split; [intros []; reflexivity|]);
    intros [] col' Hne; destruct col'; cbn; congruence.
Qed.

Lemma get_settings_update_where_id (f : settings.row -> settings.row)
    (c : t) (row : settings.row) (d : tables) :
  (forall r, settings.id (f r) = settings.id r) ->
  get_settings c = Some row ->
  get_settings (mk (update_where_id f (settings.id row) (view c)) d)
  = Some (f row).
Proof.
  intros Hf Hrow. unfold get_settings in *. cbn.
  rewrite latest_map.
  - rewrite Hrow. cbn. rewrite Z.eqb_refl. reflexivity.
  - intros r. destruct (settings.id r =? settings.id row); [apply Hf | reflexivity].
Qed.

(** C5, as amended. With a settings row in place, updating one settings
    field with a value of its kind (text for [username], a 64-bit integer
    for the others) succeeds and is committed, and [get_settings] then
    returns a row holding that value in that field and, in every other
    column, what it held before. *)
Theorem update_settings_round_trip
    (c : t) (row : settings.row) (key : string) (col : column) (v : value) :
  get_settings c = Some row ->
  column_of_name key = Some col -> col <> c_id -> fits col v = true ->
  fst (update_settings [(key, v)] c) = Ok tt
  /\ durable (snd (update_settings [(key, v)] c))
     = view (snd (update_settings [(key, v)] c))
  /\ exists row',
       get_settings (snd (update_settings [(key, v)] c)) = Some row'
       /\ cell col row' = v
       /\ (forall col', col' <> col -> cell col' row' = cell col' row).
Proof.
  intros Hrow Hcol Hid Hfit.
  destruct (sql_update_fits key col v (settings.id row) (view c) Hcol Hid Hfit)
    as (f & Hup & Hfid & Hset & Hkeep).
  unfold update_settings. rewrite Hrow. cbn [execute_updates]. rewrite Hup.
  cbn [fst snd commit view durable].
  split; [reflexivity|]. split; [reflexivity|].
  exists (f row). split; [|split; [apply Hset | apply Hkeep]].
  apply get_settings_update_where_id; assumption.
Qed.

Lemma update_settings_round_trip_witness :
  get_settings fresh_store = Some (settings.mk 1 25 5 15 4 0 0 1 default_username)
  /\ column_of_name "long_break" = Some c_long_break
  /\ fits c_long_break (VInt 20) = true
  /\ get_settings (snd (update_settings [("long_break", VInt 20)] fresh_store))
     = Some (settings.mk 1 25 5 20 4 0 0 1 default_username).
Proof.
  split; [reflexivity|]. split; [reflexivity|]. split; [reflexivity|].
  destruct (update_settings_round_trip fresh_store
              (settings.mk 1 25 5 15 4 0 0 1 default_username)
              "long_break" c_long_break (VInt 20)
              eq_refl eq_refl ltac:(discriminate) eq_refl)
    as (_ & _ & row' & Hget & _).
  rewrite Hget. vm_compute in Hget. injection Hget as <-. reflexivity.
Defined.

(** C5, as the specification words it, fails: not every value comes back.
    On the default row the field [username] given the integer 5 is updated
    without error, and [get_settings] then returns the text "5" in it, which
    is not the value given; the other fields are as before. *)
Lemma username_given_an_integer :
  exists row row',
    get_settings fresh_store = Some row
    /\ column_of_name "username" = Some c_username
    /\ fst (update_settings [("username", VInt 5)] fresh_store) = Ok tt
    /\ get_settings (snd (update_settings [("username", VInt 5)] fresh_store))
       = Some row'
    /\ cell c_username row' = VText "5"
    /\ cell c_username row' <> VInt 5
    /\ (forall col, col <> c_username -> cell col row' = cell col row).
Proof.
  exists (settings.mk 1 25 5 15 4 0 0 1 default_username).
  exists (settings.mk 1 25 5 15 4 0 0 1 "5").
  split; [reflexivity|]. split; [reflexivity|]. split; [reflexivity|].
  split; [reflexivity|]. split; [reflexivity|]. split; [discriminate|].
  intros [] H; try reflexivity. contradiction.
Qed.

(** C4, as amended. With a settings row in place, keyword arguments that
    reach a name that is no column make [update_settings] raise sqlite3's
    [OperationalError] at that argument. Nothing is committed, but the
    arguments before it have run: the connection sees the tables as a call
    with just those arguments leaves them. The arguments after it never run.
    When the unknown name comes first, nothing has changed. *)
Theorem update_settings_unknown_field
    (c : t) (row : settings.row) (pre post : list (string * value))
    (key : string) (v : value) :
  get_settings c = Some row ->
  plain_name key = true ->
  column_of_name key = None ->
  fst (update_settings pre c) = Ok tt ->
  fst (update_settings (pre ++ (key, v) :: post) c) = Raise OperationalError
  /\ view (snd (update_settings (pre ++ (key, v) :: post) c))
     = view (snd (update_settings pre c))
  /\ durable (snd (update_settings (pre ++ (key, v) :: post) c)) = durable c
  /\ (pre = [] -> snd (update_settings (pre ++ (key, v) :: post) c) = c).
Proof.
  intros Hrow Hplain Hcol Hpre. unfold update_settings in *. rewrite Hrow in *.
  rewrite execute_updates_app.
  destruct (execute_updates pre (settings.id row) (view c)) as [[[]|e] tb] eqn:E;
    [|discriminate Hpre].
  cbn [execute_updates]. unfold sql_update. rewrite Hcol, Hplain.
  cbn [fst snd view durable commit].
  repeat split.
  intros ->. cbn in E. inversion E. destruct c; reflexivity.
Qed.

Lemma update_settings_unknown_field_witness :
  let kwargs :=
    [("work_duration", VInt 30)] ++ ("bogus", VInt 1) :: [("short_break", VInt 9)] in
  get_settings fresh_store = Some (settings.mk 1 25 5 15 4 0 0 1 default_username)
  /\ plain_name "bogus" = true
  /\ column_of_name "bogus" = None
  /\ fst (update_settings [("work_duration", VInt 30)] fresh_store) = Ok tt
  /\ fst (update_settings kwargs fresh_store) = Raise OperationalError
  /\ view (snd (update_settings kwargs fresh_store))
     = view (snd (update_settings [("work_duration", VInt 30)] fresh_store))
  /\ durable (snd (update_settings kwargs fresh_store)) = durable fresh_store.
Proof.
  cbv zeta.
  split; [reflexivity|]. split; [reflexivity|]. split; [reflexivity|].
  split; [reflexivity|].
  destruct (update_settings_unknown_field fresh_store
              (settings.mk 1 25 5 15 4 0 0 1 default_username)
              [("work_duration", VInt 30)] [("short_break", VInt 9)]
              "bogus" (VInt 1) eq_refl eq_refl eq_refl eq_refl)
    as (Hraise & Hview & Hdur & _).
  split; [exact Hraise|]. split; [exact Hview | exact Hdur].
Defined.

(** C4, as the specification words it, fails: a valid field given before an
    unknown one is written. On the default row, updating [work_duration] to
    30 together with an unknown [bogus] raises, and [get_settings] then
    returns 30 where it returned 25; the next commit on the connection, here
    that of [add_session], makes the 30 durable. *)
Lemma update_settings_partial_write :
  let c := fresh_store in
  let r := update_settings [("work_duration", VInt 30); ("bogus", VInt 1)] c in
  plain_name "bogus" = true
  /\ column_of_name "bogus" = None
  /\ fst r = Raise OperationalError
  /\ option_map settings.work_duration (get_settings c) = Some 25
  /\ option_map settings.work_duration (get_settings (snd r)) = Some 30
  /\ get_settings (snd r) <> get_settings c
  /\ map settings.work_duration
       (settings_rows
          (durable (snd (add_session new_year_2024 "work" 25 1 "" "" (snd r)))))
     = [30].
Proof.
  cbv zeta. repeat split; try reflexivity.
  vm_compute. discriminate.
Qed.

(** *** Daily statistics *)

Lemma day_eqb_eq (a b : option Z) : day_eqb a b = true <-> a = b.
Proof.
  destruct a as [x|], b as [y|]; cbn; rewrite ?Z.eqb_eq; split; congruence.
Qed.

Lemma day_eqb_refl (a : option Z) : day_eqb a a = true.
Proof. apply day_eqb_eq. reflexivity. Qed.

Lemma day_lt_spec (a b : option Z) :
  day_lt a b <->
  match a, b with
  | None, Some _ => True
  | Some x, Some y => x < y
  | _, None => False
  end.
Proof.
  unfold day_lt. destruct a as [x|], b as [y|]; cbn;
    rewrite ?Z.ltb_lt; intuition congruence.
Qed.

Lemma day_lt_trans (a b c : option Z) : day_lt a b -> day_lt b c -> day_lt a c.
Proof.
  rewrite !day_lt_spec. destruct a, b, c; try tauto. lia.
Qed.

Lemma day_lt_irrefl (a : option Z) : ~ day_lt a a.
Proof. rewrite day_lt_spec. destruct a; [lia | tauto]. Qed.

Lemma day_lt_total (a b : option Z) :
  day_ltb a b = false -> day_eqb a b = false -> day_lt b a.
Proof.
  rewrite day_lt_spec. destruct a as [x|], b as [y|]; cbn;
    rewrite ?Z.ltb_ge, ?Z.eqb_neq; try discriminate; try tauto. lia.
Qed.

Lemma insert_day_In (d x : option Z) (l : list (option Z)) :
  In x (insert_day d l) <-> x = d \/ In x l.
Proof.
  induction l as [|y l IH]; cbn.
  - intuition.
  - destruct (day_ltb d y); [cbn; intuition|].
    destruct (day_eqb d y) eqn:E.
    + apply day_eqb_eq in E. subst. cbn. intuition.
    + cbn. rewrite IH. intuition.
Qed.

Lemma insert_day_sorted (d : option Z) (l : list (option Z)) :
  StronglySorted day_lt l -> StronglySorted day_lt (insert_day d l).
Proof.
  induction 1 as [|y l Hs IH Hall]; cbn.
  - repeat constructor.
  - destruct (day_ltb d y) eqn:E1.
    + constructor; [constructor; assumption|].
      constructor; [exact E1|].
      eapply Forall_impl; [|exact Hall]. cbn. intros z Hz.
      exact (day_lt_trans _ _ _ E1 Hz).
    + destruct (day_eqb d y) eqn:E2; [constructor; assumption|].
      pose proof (day_lt_total _ _ E1 E2) as Hlt.
      constructor; [exact IH|].
      apply Forall_forall. intros x Hx. apply insert_day_In in Hx.
      destruct Hx as [->|Hx]; [exact Hlt|].
      rewrite Forall_forall in Hall. apply Hall. exact Hx.
Qed.

Lemma group_days_sorted (rows : list sessions.row) :
  StronglySorted day_lt (group_days rows).
Proof.
  unfold group_days. induction rows as [|r rows IH]; cbn.
  - constructor.
  - apply insert_day_sorted. exact IH.
Qed.

Lemma group_days_In (rows : list sessions.row) (d : option Z) :
  In d (group_days rows) <->
  exists r, In r rows /\ sql_date (sessions.date r) = d.
Proof.
  unfold group_days. induction rows as [|r rows IH]; cbn.
  - split; [intros [] | intros (r & [] & _)].
  - rewrite insert_day_In, IH. split.
    + intros [->|(r' & Hin & Hd)]; [exists r; auto | exists r'; auto].
    + intros (r' & [<-|Hin] & Hd); [left; auto | right; exists r'; auto].
Qed.

Lemma sorted_NoDup (l : list (option Z)) : StronglySorted day_lt l -> NoDup l.
Proof.
  induction 1 as [|y l Hs IH Hall]; constructor; [|exact IH].
  intros Hin. rewrite Forall_forall in Hall.
  exact (day_lt_irrefl y (Hall _ Hin)).
Qed.

Lemma sum_cons (x : Z) (l : list Z) : sum (x :: l) = x + sum l.
Proof. reflexivity. Qed.

Lemma sum_map_if {A : Type} (p : A -> bool) (f : A -> Z) (l : list A) :
  sum (map (fun r => if p r then f r else 0) l) = sum (map f (filter p l)).
Proof.
  induction l as [|x l IH]; [reflexivity|].
  cbn [map filter]. rewrite sum_cons, IH.
  destruct (p x); [cbn [map]; rewrite sum_cons|]; lia.
Qed.

Lemma filter_filter {A : Type} (p q : A -> bool) (l : list A) :
  filter p (filter q l) = filter (fun r => q r && p r) l.
Proof.
  induction l as [|x l IH]; cbn; [reflexivity|].
  destruct (q x); cbn; [destruct (p x)|]; rewrite IH; reflexivity.
Qed.

Lemma filter_ext_eq {A : Type} (p q : A -> bool) (l : list A) :
  (forall r, p r = q r) -> filter p l = filter q l.
Proof.
  intros H. induction l as [|x l IH]; cbn; [reflexivity|].
  rewrite H, IH. reflexivity.
Qed.

Lemma sum_map_zero {A : Type} (l : list A) : sum (map (fun _ => 0) l) = 0.
Proof.
  induction l as [|x l IH]; [reflexivity|].
  cbn [map]. rewrite sum_cons, IH. reflexivity.
Qed.

Lemma sum_map_add {A : Type} (f g : A -> Z) (l : list A) :
  sum (map (fun d => f d + g d) l) = sum (map f l) + sum (map g l).
Proof.
  induction l as [|x l IH]; [reflexivity|].
  cbn [map]. rewrite !sum_cons, IH. lia.
Qed.

Lemma sum_map_miss (x : option Z) (v : Z) (ds : list (option Z)) :
  ~ In x ds -> sum (map (fun d => if day_eqb x d then v else 0) ds) = 0.
Proof.
  induction ds as [|z ds IH]; intros Hnin; [reflexivity|].
  cbn [map]. rewrite sum_cons.
  destruct (day_eqb x z) eqn:E.
  - apply day_eqb_eq in E. subst. exfalso. apply Hnin. left. reflexivity.
  - rewrite IH; [reflexivity|]. intros H. apply Hnin. right. exact H.
Qed.

(** In a list without repetition, a value is picked exactly once. *)
Lemma sum_map_pick (x : option Z) (v : Z) (ds : list (option Z)) :
  NoDup ds -> In x ds ->
  sum (map (fun d => if day_eqb x d then v else 0) ds) = v.
Proof.
  induction 1 as [|y ds Hnin Hnd IH]; intros Hin; [destruct Hin|].
  cbn [map]. rewrite sum_cons. destruct Hin as [->|Hin].
  - rewrite day_eqb_refl, sum_map_miss by exact Hnin. lia.
  - destruct (day_eqb x y) eqn:E.
    + apply day_eqb_eq in E. subst. contradiction.
    + rewrite IH by exact Hin. lia.
Qed.

(** Grouping by day splits a total: the per-day sums add up to the sum over
    all rows. *)
Lemma sum_by_day (f : sessions.row -> Z) (rows : list sessions.row)
    (ds : list (option Z)) :
  NoDup ds ->
  (forall r, In r rows -> In (sql_date (sessions.date r)) ds) ->
  sum (map (fun d =>
              sum (map f (filter (fun r => day_eqb (sql_date (sessions.date r)) d)
                            rows)))
           ds)
  = sum (map f rows).
Proof.
  intros Hnd. induction rows as [|r rows IH]; intros Hcover.
  - cbn [filter map]. apply sum_map_zero.
  - cbn [map]. rewrite sum_cons.
    rewrite <- IH by (intros r' Hr'; apply Hcover; right; exact Hr').
    rewrite <- (sum_map_pick (sql_date (sessions.date r)) (f r) ds Hnd)
      by (apply Hcover; left; reflexivity).
    rewrite <- sum_map_add. f_equal. apply map_ext. intros d.
    cbn [filter]. destruct (day_eqb (sql_date (sessions.date r)) d);
      [cbn [map]; rewrite sum_cons|]; lia.
Qed.

(** Adding up a per-day column over the days gives the total over the
    rows. *)
Lemma daily_column_total (f : sessions.row -> Z) (rows : list sessions.row) :
  sum (map (fun d =>
              sum (map f (filter (fun r => day_eqb (sql_date (sessions.date r)) d)
                            rows)))
           (group_days rows))
  = sum (map f rows).
Proof.
  apply sum_by_day.
  - apply sorted_NoDup, group_days_sorted.
  - intros r Hr. apply group_days_In. exists r. auto.
Qed.

Lemma sqlite_int_bounds (z : Z) :
  sqlite_int z = true <-> - 2 ^ 63 <= z < 2 ^ 63.
Proof.
  unfold sqlite_int. rewrite andb_true_iff, Z.leb_le, Z.ltb_lt. reflexivity.
Qed.

(** *** SQL's [SUM] against the plain sum *)

Lemma sql_sum_from_value (l : list Z) :
  forall acc s, sql_sum_from acc l = Some s -> s = acc + sum l.
Proof.
  induction l as [|x l IH]; intros acc s H; cbn in H.
  - inversion H. cbn. lia.
  - destruct (sqlite_int (acc + x)); [|discriminate].
    rewrite (IH _ _ H), sum_cons. lia.
Qed.

Lemma sql_sum_value (l : list Z) (s : Z) : sql_sum l = Some s -> s = sum l.
Proof. intros H. apply sql_sum_from_value in H. lia. Qed.

Lemma sum_nonneg (l : list Z) : Forall (fun x => 0 <= x) l -> 0 <= sum l.
Proof.
  induction 1 as [|x l Hx Hall IH]; [cbn; lia|]. rewrite sum_cons. lia.
Qed.

(** Values that are not negative never overflow on the way when their
    total fits. *)
Lemma sql_sum_from_nonneg (l : list Z) :
  forall acc, 0 <= acc -> Forall (fun x => 0 <= x) l -> acc + sum l < 2 ^ 63 ->
              sql_sum_from acc l = Some (acc + sum l).
Proof.
  induction l as [|x l IH]; intros acc Hacc Hall Hsum.
  - cbn. f_equal. lia.
  - inversion Hall as [|? ? Hx Hall']; subst. rewrite sum_cons in Hsum.
    pose proof (sum_nonneg l Hall') as Hl.
    cbn [sql_sum_from].
    replace (sqlite_int (acc + x)) with true
      by (symmetry; apply sqlite_int_bounds; lia).
    rewrite IH by (try assumption; lia). rewrite sum_cons. f_equal. lia.
Qed.

Lemma sql_sum_nonneg (l : list Z) :
  Forall (fun x => 0 <= x) l -> sum l < 2 ^ 63 -> sql_sum l = Some (sum l).
Proof.
  intros Hall Hsum. unfold sql_sum.
  rewrite sql_sum_from_nonneg by (try assumption; lia). reflexivity.
Qed.

Lemma sum_filter_le {A : Type} (f : A -> Z) (p : A -> bool) (l : list A) :
  Forall (fun x => 0 <= f x) l -> sum (map f (filter p l)) <= sum (map f l).
Proof.
  induction 1 as [|x l Hx Hall IH]; [cbn; lia|].
  cbn [filter map]. destruct (p x); cbn [map]; rewrite ?sum_cons; lia.
Qed.

Lemma sum_ones {A : Type} (l : list A) :
  sum (map (fun _ => 1) l) = Z.of_nat (List.length l).
Proof.
  induction l as [|x l IH]; [reflexivity|].
  cbn [map List.length]. rewrite sum_cons, IH. lia.
Qed.

Lemma sum_count {A : Type} (p : A -> bool) (l : list A) :
  sum (map (fun r => if p r then 1 else 0) l)
  = Z.of_nat (List.length (filter p l)).
Proof. rewrite (sum_map_if p (fun _ => 1)). apply sum_ones. Qed.

Lemma filter_shorter {A : Type} (p : A -> bool) (l : list A) :
  (List.length (filter p l) <= List.length l)%nat.
Proof.
  induction l as [|x l IH]; cbn; [lia|]. destruct (p x); cbn; lia.
Qed.

(** *** What a returned row of the statistics holds *)

Lemma collect_inv {A B : Type} (f : A -> option B) (l : list A) :
  forall ys, collect (map f l) = Some ys -> Forall2 (fun x y => f x = Some y) l ys.
Proof.
  induction l as [|x l IH]; intros ys H; cbn in H.
  - inversion H. constructor.
  - destruct (f x) as [y|] eqn:E; [|discriminate].
    destruct (collect (map f l)) as [ys'|]; [|discriminate].
    inversion H; subst. constructor; [exact E | apply IH; reflexivity].
Qed.

Lemma collect_all {A B : Type} (f : A -> option B) (l : list A) :
  (forall x, In x l -> f x <> None) -> exists ys, collect (map f l) = Some ys.
Proof.
  induction l as [|x l IH]; intros H; [exists []; reflexivity|].
  cbn. destruct (f x) as [y|] eqn:E;
    [|exfalso; exact (H x (or_introl eq_refl) E)].
  destruct IH as (ys & ->); [intros z Hz; apply H; right; exact Hz|].
  eexists. reflexivity.
Qed.

Lemma aggregate_Some (rows : list sessions.row) (d : option Z) (row : daily) :
  aggregate rows d = Some row ->
  let g := filter (fun r => day_eqb (sql_date (sessions.date r)) d) rows in
  day row = d
  /\ total_sessions row = Z.of_nat (List.length g)
  /\ completed_sessions row
     = sum (map (fun r => if sessions.completed r =? 1 then 1 else 0) g)
  /\ work_minutes row
     = sum (map (fun r =>
                   if (sessions.session_type r =? "work")%string
                      && (sessions.completed r =? 1)
                   then sessions.duration r else 0) g).
Proof.
  unfold aggregate. cbv zeta.
  destruct (sql_sum (map (fun r => if sessions.completed r =? 1 then 1 else 0) _))
    as [k|] eqn:E1; [|discriminate].
  destruct (sql_sum (map (fun r => if (sessions.session_type r =? "work")%string
                                      && (sessions.completed r =? 1)
                                   then sessions.duration r else 0) _))
    as [m|] eqn:E2; [|discriminate].
  intros H. inversion H; subst. cbn.
  apply sql_sum_value in E1. apply sql_sum_value in E2. auto.
Qed.

Lemma days_before_Ok (now : datetime) (days : Z) (limit : datetime) :
  days_before now days = Ok limit <->
  limit = now - days * 86400000000 /\ 0 <= limit <= 315537897599999999.
Proof.
  unfold days_before, timedelta_days, datetime_max, microseconds_per_day.
  cbv zeta.
  destruct ((0 <=? now - days * 86400000000)
            && (now - days * 86400000000 <=? 3652059 * 86400000000 - 1)) eqn:E.
  - apply andb_true_iff in E. rewrite !Z.leb_le in E.
    split; [intros H; inversion H; subst; lia | intros [-> _]; reflexivity].
  - apply andb_false_iff in E. rewrite !Z.leb_gt in E.
    split; [discriminate | intros [-> H]; lia].
Qed.

Lemma days_before_Raise (now : datetime) (days : Z) (e : exn) :
  days_before now days = Raise e ->
  e = OverflowError
  /\ (now - days * 86400000000 < 0
      \/ 315537897599999999 < now - days * 86400000000).
Proof.
  unfold days_before, timedelta_days, datetime_max, microseconds_per_day.
  cbv zeta.
  destruct ((0 <=? now - days * 86400000000)
            && (now - days * 86400000000 <=? 3652059 * 86400000000 - 1)) eqn:E;
    [discriminate|].
  apply andb_false_iff in E. rewrite !Z.leb_gt in E.
  intros H. inversion H. split; [reflexivity | lia].
Qed.

(** The rows of a [get_daily_stats] that returns: one for each day of the
    selected sessions, holding the plain count and sums of that day. *)
Lemma get_daily_stats_rows (now : datetime) (days : Z) (c : t)
    (stats : list daily) :
  get_daily_stats now days c = Ok stats ->
  let selected :=
    filter (fun r => now - days * 86400000000 <=? sessions.date r)
      (sessions_rows (view c)) in
  let of_day d := filter (fun r => day_eqb (sql_date (sessions.date r)) d) selected in
  0 <= now - days * 86400000000 <= 315537897599999999
  /\ map day stats = group_days selected
  /\ map total_sessions stats
     = map (fun d => Z.of_nat (List.length (of_day d))) (group_days selected)
  /\ map completed_sessions stats
     = map (fun d => sum (map (fun r => if sessions.completed r =? 1 then 1 else 0)
                            (of_day d)))
         (group_days selected)
  /\ map work_minutes stats
     = map (fun d => sum (map (fun r =>
                                 if (sessions.session_type r =? "work")%string
                                    && (sessions.completed r =? 1)
                                 then sessions.duration r else 0)
                            (of_day d)))
         (group_days selected).
Proof.
  unfold get_daily_stats. intros H. cbv zeta.
  destruct (days_before now days) as [limit|e] eqn:E; [|discriminate].
  apply days_before_Ok in E. destruct E as [-> Hrange].
  split; [exact Hrange|].
  set (selected := filter _ (sessions_rows (view c))) in *.
  destruct (collect (map (aggregate selected) (group_days selected)))
    as [ys|] eqn:Ec; [|discriminate].
  inversion H; subst ys. apply collect_inv in Ec. clear H.
  revert Ec. generalize (group_days selected) as ds. intros ds Ec.
  induction Ec as [|d row ds rows Hagg Hrest IH]; [cbn; auto|].
  apply aggregate_Some in Hagg. cbv zeta in Hagg.
  destruct Hagg as (H1 & H2 & H3 & H4).
  destruct IH as (I1 & I2 & I3 & I4).
  cbn [map]. rewrite H1, H2, H3, H4, I1, I2, I3, I4. auto.
Qed.

(** C8, as amended. [get_daily_stats] first computes the start of the
    window, [days] days before [now], and raises [OverflowError] when that
    is no datetime. Otherwise it either raises sqlite3's
    [OperationalError], when a sum overflows, or returns its rows in
    strictly ascending order of day, one for each calendar day on which a
    session within the window falls. On each row [work_minutes] is the sum
    of [duration] over the sessions of that day in the window that are of
    type [work] and have [completed = 1], and the rows together share out
    exactly the minutes of all such sessions in the window. It does return
    when the window holds fewer than 2^63 sessions, none of those counted
    has a negative duration and their durations add up to less than 2^63;
    on an empty history the result is the empty list. A calendar day is a
    span of 86400000000 microseconds counted from midnight; for a date in
    the last half millisecond of year 9999 SQLite gives no day, and such
    sessions share one row, which comes first. *)
Theorem get_daily_stats_groups_by_day (now : datetime) (days : Z) (c : t) :
  let limit := now - days * 86400000000 in
  let rows := sessions_rows (view c) in
  let window r := limit <=? sessions.date r in
  let on_day d r := day_eqb (sql_date (sessions.date r)) d in
  let counted r :=
    (sessions.session_type r =? "work")%string && (sessions.completed r =? 1) in
  (limit < 0 \/ 315537897599999999 < limit ->
   get_daily_stats now days c = Raise OverflowError)
  /\ (0 <= limit <= 315537897599999999 ->
      get_daily_stats now days c = Raise OperationalError
      \/ exists stats, get_daily_stats now days c = Ok stats)
  /\ (forall stats,
        get_daily_stats now days c = Ok stats ->
        StronglySorted day_lt (map day stats)
        /\ (forall d, In d (map day stats) <->
                      exists r, In r rows /\ window r = true
                                /\ sql_date (sessions.date r) = d)
        /\ Forall (fun row =>
             work_minutes row =
             sum (map sessions.duration
                    (filter (fun r => window r && on_day (day row) r && counted r)
                       rows))) stats
        /\ sum (map work_minutes stats)
           = sum (map sessions.duration
                    (filter (fun r => window r && counted r) rows)))
  /\ (0 <= limit <= 315537897599999999 ->
      Z.of_nat (List.length (filter window rows)) < 2 ^ 63 ->
      Forall (fun r => 0 <= sessions.duration r)
        (filter (fun r => window r && counted r) rows) ->
      sum (map sessions.duration (filter (fun r => window r && counted r) rows))
      < 2 ^ 63 ->
      exists stats, get_daily_stats now days c = Ok stats)
  /\ (0 <= limit <= 315537897599999999 -> rows = [] ->
      get_daily_stats now days c = Ok [])
  /\ (forall d k,
        sql_date d = Some k <->
        0 <= d <= 315537897599999499
        /\ k * 86400000000 <= d < (k + 1) * 86400000000)
  /\ (forall a b,
        day_lt a b <->
        match a, b with
        | None, Some _ => True
        | Some x, Some y => x < y
        | _, None => False
        end).
Proof.
  intros limit rows window on_day counted.
  set (selected := filter window rows).
  split.
  { intros Hout. unfold get_daily_stats.
    destruct (days_before now days) as [l|e] eqn:E.
    - apply days_before_Ok in E. fold limit in E. lia.
    - apply days_before_Raise in E. destruct E as [-> _]. reflexivity. }
  split.
  { intros Hin. unfold get_daily_stats.
    destruct (days_before now days) as [l|e] eqn:E.
    - destruct (collect _); [right; eexists; reflexivity | left; reflexivity].
    - apply days_before_Raise in E. fold limit in E. lia. }
  split.
  { intros stats Hok.
    destruct (get_daily_stats_rows now days c stats Hok)
      as (_ & Hdays & _ & _ & Hwork).
    fold limit in Hdays, Hwork. fold rows in Hdays, Hwork.
    fold window in Hdays, Hwork. fold selected in Hdays, Hwork.
    split; [rewrite Hdays; apply group_days_sorted|].
    split.
    { intros d. rewrite Hdays, group_days_In. unfold selected.
      split; intros (r & Hr & Hd).
      - apply filter_In in Hr. exists r. tauto.
      - destruct Hd as [Hw Hd]. exists r.
        split; [apply filter_In; tauto | exact Hd]. }
    split.
    { assert (Hrow : map work_minutes stats
                     = map (fun row =>
                              sum (map sessions.duration
                                     (filter (fun r => window r && on_day (day row) r
                                                       && counted r) rows)))
                         stats).
      { rewrite Hwork, <- Hdays, map_map. apply map_ext. intros row.
        fold counted. rewrite (sum_map_if counted sessions.duration).
        unfold selected. rewrite !filter_filter. do 2 f_equal.
        apply filter_ext_eq. intros r. apply andb_assoc. }
      clear - Hrow. induction stats as [|row stats IH]; constructor.
      - cbn in Hrow. injection Hrow as H _. exact H.
      - apply IH. cbn in Hrow. injection Hrow as _ H. exact H. }
    rewrite Hwork. fold counted.
    rewrite (daily_column_total
               (fun r => if counted r then sessions.duration r else 0)).
    rewrite sum_map_if. unfold selected. rewrite filter_filter. reflexivity. }
  split.
  { intros Hin Hcount Hpos Htotal. unfold get_daily_stats.
    destruct (days_before now days) as [l|e] eqn:E;
      [|apply days_before_Raise in E; fold limit in E; lia].
    apply days_before_Ok in E. destruct E as [-> _].
    fold limit. fold rows. fold window. fold selected.
    destruct (collect_all (aggregate selected) (group_days selected))
      as (ys & ->); [|eexists; reflexivity].
    intros d _. unfold aggregate. cbv zeta.
    set (g := filter _ selected).
    assert (Hlen : (List.length g <= List.length selected)%nat)
      by apply filter_shorter.
    rewrite sql_sum_nonneg.
    - fold counted. rewrite sql_sum_nonneg; [discriminate | |].
      + apply Forall_forall. intros x Hx. apply in_map_iff in Hx.
        destruct Hx as (r & <- & Hr).
        change ((sessions.session_type r =? "work")%string
                && (sessions.completed r =? 1)) with (counted r).
        destruct (counted r) eqn:Ec; [|lia].
        rewrite Forall_forall in Hpos. apply Hpos.
        apply filter_In in Hr. destruct Hr as [Hr _].
        unfold selected in Hr. apply filter_In in Hr.
        apply filter_In. rewrite Ec, (proj2 Hr). tauto.
      + rewrite sum_map_if.
        assert (Hle : sum (map sessions.duration (filter counted g))
                      <= sum (map sessions.duration (filter counted selected))).
        { assert (Heq : filter counted g
                        = filter (on_day d) (filter counted selected)).
          { unfold g. rewrite !filter_filter. apply filter_ext_eq.
            intros r. apply andb_comm. }
          rewrite Heq.
          apply sum_filter_le. rewrite Forall_forall in *. intros r Hr.
          apply Hpos. apply filter_In in Hr. unfold selected in Hr.
          destruct Hr as [Hr Hc]. apply filter_In in Hr.
          apply filter_In. rewrite Hc, (proj2 Hr). tauto. }
        unfold selected in Hle. rewrite filter_filter in Hle.
        exact (Z.le_lt_trans _ _ _ Hle Htotal).
    - apply Forall_forall. intros x Hx. apply in_map_iff in Hx.
      destruct Hx as (r & <- & _). destruct (sessions.completed r =? 1); lia.
    - rewrite sum_count.
      pose proof (filter_shorter (fun r => sessions.completed r =? 1) g). lia. }
  split.
  { intros Hin Hempty. unfold get_daily_stats.
    destruct (days_before now days) as [l|e] eqn:E;
      [|apply days_before_Raise in E; fold limit in E; lia].
    fold rows. rewrite Hempty. reflexivity. }
  split; [|exact day_lt_spec].
  intros d k. unfold sql_date, datetime_max, microseconds_per_day.
  destruct ((0 <=? d) && (d <=? 3652059 * 86400000000 - 1 - 500)) eqn:E.
  - apply andb_true_iff in E. rewrite !Z.leb_le in E. split.
    + intros H. inversion H; subst. split; [lia|].
      pose proof (Z.mul_div_le d 86400000000).
      pose proof (Z.mul_succ_div_gt d 86400000000). lia.
    + intros [_ Hk]. f_equal. symmetry. apply (Z.div_unique d 86400000000 k (d - k * 86400000000)); lia.
  - apply andb_false_iff in E. rewrite !Z.leb_gt in E.
    split; [discriminate | lia].
Qed.

(** C8, as the specification words it, fails: not every day count returns.
    On an empty history, asking for the last 1000000 days on new year's day
    2024 raises [OverflowError], the start of that window being before
    year 1; and one day's work minutes beyond the 64-bit range make the
    query itself fail. *)
Lemma get_daily_stats_window_out_of_range :
  let full := sessions.mk 1 new_year_2024 "work" (2 ^ 63 - 1) 1 "" "" in
  let more := sessions.mk 2 new_year_2024 "work" 1 1 "" "" in
  sessions_rows (view (mk empty_file empty_file)) = []
  /\ get_daily_stats new_year_2024 1000000 (mk empty_file empty_file)
     = Raise OverflowError
  /\ get_daily_stats new_year_2024 7
       (mk (mk_tables [full; more] 2 [] 0) (mk_tables [full; more] 2 [] 0))
     = Raise OperationalError.
Proof. cbv zeta. repeat split; vm_compute; reflexivity. Qed.

(** *** Several fields at once *)

Lemma column_eqb_eq (a b : column) : column_eqb a b = true <-> a = b.
Proof. destruct a, b; cbn; split; intros H; try reflexivity; discriminate H. Qed.

Lemma update_where_id_compose (f g : settings.row -> settings.row) (i : Z)
    (tb : tables) :
  (forall r, settings.id (f r) = settings.id r) ->
  update_where_id g i (update_where_id f i tb)
  = update_where_id (fun r => g (f r)) i tb.
Proof.
  intros Hf. unfold update_where_id. cbn. f_equal.
  rewrite map_map. apply map_ext. intros r.
  destruct (settings.id r =? i) eqn:E; [|rewrite E; reflexivity].
  rewrite Hf, E. reflexivity.
Qed.

Lemma update_where_id_same (i : Z) (tb : tables) :
  update_where_id (fun r => r) i tb = tb.
Proof.
  destruct tb as [ss sq rows sq']. unfold update_where_id. cbn. f_equal.
  rewrite <- (map_id rows) at 2. apply map_ext. intros r.
  destruct (settings.id r =? i); reflexivity.
Qed.

(** Assignable keyword arguments all run, and together rewrite the rows of
    the given key cell by cell as [written] says. *)
Lemma execute_updates_assignable (kwargs : list (string * value)) (i : Z) :
  forall tb,
    forallb assignable kwargs = true ->
    exists F,
      execute_updates kwargs i tb = (Ok tt, update_where_id F i tb)
      /\ (forall r, settings.id (F r) = settings.id r)
      /\ (forall r col, cell col (F r) = written kwargs col (cell col r)).
Proof.
  induction kwargs as [|[key v] kwargs IH]; intros tb Hall.
  - exists (fun r => r). rewrite update_where_id_same. cbn. auto.
  - cbn [forallb] in Hall. apply andb_true_iff in Hall. destruct Hall as [Hkv Hall].
    unfold assignable in Hkv. cbn [fst snd] in Hkv.
    destruct (column_of_name key) as [col|] eqn:Ecol; [|discriminate].
    assert (Hid : col <> c_id) by (intros ->; discriminate).
    assert (Hfit : fits col v = true) by (destruct col; auto; discriminate).
    destruct (sql_update_fits key col v i tb Ecol Hid Hfit)
      as (f & Hup & Hfid & Hset & Hkeep).
    destruct (IH (update_where_id f i tb) Hall) as (F & Hex & HFid & Hcells).
    exists (fun r => F (f r)).
    cbn [execute_updates]. rewrite Hup, Hex.
    rewrite update_where_id_compose by exact Hfid.
    split; [reflexivity|]. split; [intros r; rewrite HFid; apply Hfid|].
    intros r c'. rewrite Hcells. cbn [written]. rewrite Ecol. f_equal.
    destruct (column_eqb col c') eqn:E.
    + apply column_eqb_eq in E. subst. apply Hset.
    + apply Hkeep. intros ->. rewrite (proj2 (column_eqb_eq col col) eq_refl) in E.
      discriminate.
Qed.

(** The multi-field form of the round trip: assignable keyword arguments are
    applied to the row [get_settings] returns, committed, and leave the
    session history alone. *)
Lemma update_settings_assignable (kwargs : list (string * value)) (c : t)
    (row : settings.row) :
  get_settings c = Some row ->
  forallb assignable kwargs = true ->
  exists c' row',
    update_settings kwargs c = (Ok tt, c')
    /\ get_settings c' = Some row'
    /\ (forall col, cell col row' = written kwargs col (cell col row))
    /\ sessions_rows (view c') = sessions_rows (view c)
    /\ durable c' = view c'.
Proof.
  intros Hrow Hall.
  destruct (execute_updates_assignable kwargs (settings.id row) (view c) Hall)
    as (F & Hex & HFid & Hcells).
  unfold update_settings. rewrite Hrow, Hex.
  eexists. exists (F row). split; [reflexivity|].
  split; [apply get_settings_update_where_id; assumption|].
  split; [intros col; apply Hcells|].
  split; reflexivity.
Qed.

(** *** Keys *)

Lemma fold_max_bound (floor : Z) (ids : list Z) :
  floor <= fold_right Z.max floor ids
  /\ Forall (fun x => x <= fold_right Z.max floor ids) ids.
Proof.
  induction ids as [|x ids [IH1 IH2]]; cbn; [split; [lia | constructor]|].
  split; [lia|]. constructor; [lia|].
  eapply Forall_impl; [|exact IH2]. cbn. intros; lia.
Qed.

(** The proposed key is larger than every key of the table and than the
    sequence entry. *)
Lemma next_id_above (seq : Z) (ids : list Z) :
  seq < next_id seq ids /\ Forall (fun i => i < next_id seq ids) ids.
Proof.
  unfold next_id. split; [lia|].
  destruct ids as [|i rest]; [constructor|].
  destruct (fold_max_bound i rest) as [H1 H2].
  constructor; [lia|]. eapply Forall_impl; [|exact H2]. cbn. intros; lia.
Qed.

Lemma fold_max_below (bound floor : Z) (ids : list Z) :
  floor < bound -> Forall (fun i => i < bound) ids ->
  fold_right Z.max floor ids < bound.
Proof.
  intros Hf. induction 1 as [|x ids Hx Hall IH]; cbn; [exact Hf | lia].
Qed.

(** A key is left exactly while the sequence entry and every key of the
    table are below the largest 64-bit integer. *)
Lemma next_id_fits (seq : Z) (ids : list Z) :
  - 2 ^ 63 <= seq < 2 ^ 63 - 1 -> Forall (fun i => i < 2 ^ 63 - 1) ids ->
  sqlite_int (next_id seq ids) = true.
Proof.
  intros Hseq Hall. apply sqlite_int_bounds. unfold next_id.
  destruct ids as [|i rest]; [lia|].
  inversion Hall as [|? ? Hi Hrest]; subst.
  pose proof (fold_max_below (2 ^ 63 - 1) i rest Hi Hrest). lia.
Qed.

Lemma next_id_full (seq : Z) (ids : list Z) :
  2 ^ 63 - 1 <= seq \/ Exists (fun i => 2 ^ 63 - 1 <= i) ids ->
  sqlite_int (next_id seq ids) = false.
Proof.
  intros H. destruct (sqlite_int (next_id seq ids)) eqn:E; [|reflexivity].
  apply sqlite_int_bounds in E. destruct (next_id_above seq ids) as [H1 H2].
  destruct H as [H|H]; [lia|].
  apply Exists_exists in H. destruct H as (i & Hin & Hi).
  rewrite Forall_forall in H2. specialize (H2 i Hin). lia.
Qed.

(** *** What an update can touch *)

Lemma sql_update_shape (key : string) (v : value) (i : Z) (tb tb' : tables) :
  sql_update key v i tb = Ok tb' -> exists f, tb' = update_where_id f i tb.
Proof.
  unfold sql_update.
  destruct (column_of_name key) as [col|];
    [|destruct (plain_name key); discriminate].
  destruct v as [z|u], col; try discriminate;
    try (destruct (sqlite_int z); cbn [negb]; try discriminate);
    try (destruct (has_id i (settings_rows tb) && negb (z =? i)
                   && has_id z (settings_rows tb)); try discriminate);
    intros H; inversion H; eexists; reflexivity.
Qed.

Lemma execute_updates_shape (kwargs : list (string * value)) (i : Z) :
  forall tb o tb',
    execute_updates kwargs i tb = (o, tb') ->
    sessions_rows tb' = sessions_rows tb
    /\ sessions_seq tb' = sessions_seq tb
    /\ settings_seq tb' = settings_seq tb
    /\ exists G, settings_rows tb' = map G (settings_rows tb)
                 /\ forall r, settings.id r <> i -> G r = r.
Proof.
  induction kwargs as [|[key v] kwargs IH]; intros tb o tb' H.
  - inversion H; subst. repeat split. exists (fun r => r).
    split; [symmetry; apply map_id | reflexivity].
  - cbn in H. destruct (sql_update key v i tb) as [tb1|e] eqn:E.
    + apply sql_update_shape in E. destruct E as (f & ->).
      destruct (IH _ _ _ H) as (S1 & S2 & S3 & G & HG & Hfix).
      cbn in *. repeat split; try assumption.
      exists (fun r => G (if settings.id r =? i then f r else r)).
      split; [rewrite HG, map_map; reflexivity|].
      intros r Hr. apply Z.eqb_neq in Hr. rewrite Hr. apply Hfix.
      apply Z.eqb_neq. exact Hr.
    + inversion H; subst. repeat split. exists (fun r => r).
      split; [symmetry; apply map_id | reflexivity].
Qed.

Lemma sql_update_covered (key : string) (v : value) (i : Z) (tb : tables) :
  covered (key, v) = true -> sql_update key v i tb <> Raise OutsideModel.
Proof.
  unfold covered, sql_update. cbn [fst snd].
  destruct (plain_name key); [cbn [andb]|discriminate].
  destruct (column_of_name key) as [col|]; [|discriminate].
  destruct v as [z|s]; destruct col; intros H; try discriminate H;
    repeat match goal with
           | |- context [if ?b then _ else _] => destruct b
           end; discriminate.
Qed.

Lemma execute_updates_covered (kwargs : list (string * value)) :
  forall (i : Z) (tb : tables),
    Forall (fun kw => covered kw = true) kwargs ->
    fst (execute_updates kwargs i tb) <> Raise OutsideModel.
Proof.
  induction kwargs as [|[key v] kwargs IH]; intros i tb Hall; [discriminate|].
  inversion Hall as [|kw l Hkw Hrest]; subst. cbn [execute_updates].
  pose proof (sql_update_covered key v i tb Hkw) as Hone.
  destruct (sql_update key v i tb) as [tb'|e]; [apply IH; exact Hrest|].
  cbn [fst]. congruence.
Qed.

Lemma update_settings_covered (kwargs : list (string * value)) (c : t) :
  Forall (fun kw => covered kw = true) kwargs ->
  fst (update_settings kwargs c) <> Raise OutsideModel.
Proof.
  intros Hall. unfold update_settings.
  destruct (get_settings c) as [row|]; [|discriminate].
  pose proof (execute_updates_covered kwargs (settings.id row) (view c) Hall) as H.
  destruct (execute_updates kwargs (settings.id row) (view c)) as [[[]|e] tb'];
    cbn [fst] in *; congruence.
Qed.

End Store.

(** ** The controller *)

Section Controller.

Import DatabaseManager.

Ltac branches :=
  repeat match goal with
         | |- context [if ?b then _ else _] => destruct b eqn:?
         end.

(** *** What every reachable state satisfies *)

Lemma settings_fit_set_int (col : column) (z : Z) (r : settings.row) :
  sqlite_int z = true -> Process.settings_fit r = true ->
  Process.settings_fit (set_int col z r) = true.
Proof.
  intros Hz. destruct r, col; unfold Process.settings_fit;
    cbn -[sqlite_int]; rewrite !andb_true_iff; intuition.
Qed.

Lemma settings_fit_set_username (u : string) (r : settings.row) :
  Process.settings_fit r = true ->
  Process.settings_fit (set_username u r) = true.
Proof. destruct r. exact (fun H => H). Qed.

Lemma update_where_id_frame (f : settings.row -> settings.row) (i : Z)
    (tb : tables) :
  (forall r, Process.settings_fit r = true -> Process.settings_fit (f r) = true) ->
  sessions_rows (update_where_id f i tb) = sessions_rows tb
  /\ (settings_rows tb <> [] -> settings_rows (update_where_id f i tb) <> [])
  /\ (Process.on_disk tb = true -> Process.on_disk (update_where_id f i tb) = true).
Proof.
  intros Hf. split; [reflexivity|]. split.
  - cbn. destruct (settings_rows tb); [auto | discriminate].
  - unfold Process.on_disk. cbn. rewrite !forallb_forall. intros H r Hin.
    apply in_map_iff in Hin. destruct Hin as (r0 & <- & Hin).
    destruct (settings.id r0 =? i); auto.
Qed.

Lemma sql_update_frame (key : string) (v : value) (i : Z) (tb tb' : tables) :
  sql_update key v i tb = Ok tb' ->
  sessions_rows tb' = sessions_rows tb
  /\ (settings_rows tb <> [] -> settings_rows tb' <> [])
  /\ (Process.on_disk tb = true -> Process.on_disk tb' = true).
Proof.
  unfold sql_update.
  destruct (column_of_name key) as [col|];
    [|destruct (plain_name key); discriminate].
  destruct v as [z|u], col; try discriminate;
    try (destruct (sqlite_int z) eqn:Ez; cbn [negb]; try discriminate);
    try (destruct (has_id i (settings_rows tb) && negb (z =? i)
                   && has_id z (settings_rows tb)); try discriminate);
    intros H; inversion H; subst; apply update_where_id_frame; intros r;
    first [apply settings_fit_set_int; exact Ez | apply settings_fit_set_username].
Qed.

Lemma execute_updates_frame (kwargs : list (string * value)) (i : Z) :
  forall tb o tb',
    execute_updates kwargs i tb = (o, tb') ->
    sessions_rows tb' = sessions_rows tb
    /\ (settings_rows tb <> [] -> settings_rows tb' <> [])
    /\ (Process.on_disk tb = true -> Process.on_disk tb' = true).
Proof.
  induction kwargs as [|[key v] kwargs IH]; intros tb o tb' H.
  - inversion H. auto.
  - cbn in H. destruct (sql_update key v i tb) as [tb1|e] eqn:E.
    + destruct (sql_update_frame _ _ _ _ _ E) as (S1 & N1 & D1).
      destruct (IH _ _ _ H) as (S2 & N2 & D2).
      split; [congruence|]. split; auto.
    + inversion H. auto.
Qed.

Lemma update_settings_frame (kwargs : list (string * value)) (c : t) :
  sessions_rows (view (snd (update_settings kwargs c))) = sessions_rows (view c)
  /\ (settings_rows (view c) <> [] ->
      settings_rows (view (snd (update_settings kwargs c))) <> [])
  /\ (Process.on_disk (view c) = true ->
      Process.on_disk (view (snd (update_settings kwargs c))) = true).
Proof.
  unfold update_settings. destruct (get_settings c) as [row|]; [|cbn; auto].
  destruct (execute_updates kwargs (settings.id row) (view c)) as [o tb'] eqn:E.
  apply execute_updates_frame in E. destruct o; exact E.
Qed.

(** With nothing uncommitted, abandoning the transaction changes nothing. *)
Lemma rollback_committed (c : t) : durable c = view c -> rollback c = c.
Proof. destruct c as [v d]. cbn. intros ->. reflexivity. Qed.

(** What [create_tables] leaves when it returns on a database file. *)
Lemma create_tables_seeds (disk : tables) (c : t) :
  create_tables (mk disk disk) = (Ok tt, c) ->
  settings_rows (view c) <> []
  /\ durable c = view c
  /\ sessions_rows (view c) = sessions_rows disk
  /\ sessions_seq (view c) = sessions_seq disk
  /\ List.length (settings_rows (view c))
     = Nat.max 1 (List.length (settings_rows disk))
  /\ (Process.on_disk disk = true -> Process.on_disk (view c) = true).
Proof.
  unfold create_tables. cbn [view durable].
  destruct (settings_rows disk) as [|r rows] eqn:E; cbn [List.length].
  - change (Z.of_nat 0 =? 0) with true. cbv iota.
    destruct (sqlite_int _); [|discriminate].
    intros H. inversion H; subst. cbn.
    repeat split; try reflexivity; discriminate.
  - replace (Z.of_nat (S (List.length rows)) =? 0) with false
      by (symmetry; apply Z.eqb_neq; lia).
    intros H. inversion H; subst. cbn [view durable commit].
    rewrite E. repeat split; first [discriminate | cbn; lia | auto].
Qed.

Lemma load_settings_consistent (now : datetime) (a : PomodoroApp.t) :
  Process.on_disk (view (PomodoroApp.db_manager a)) = true ->
  settings_rows (view (PomodoroApp.db_manager a)) <> [] ->
  durable (PomodoroApp.db_manager a) = view (PomodoroApp.db_manager a) ->
  Process.consistent (snd (PomodoroApp.load_settings now a)).
Proof.
  intros Hd Hne Hdur. unfold PomodoroApp.load_settings, get_settings. cbn [snd].
  destruct (latest (settings_rows (view (PomodoroApp.db_manager a)))) as [r|] eqn:E.
  - apply latest_In in E. pose proof Hd as Hall.
    unfold Process.on_disk in Hall. rewrite forallb_forall in Hall.
    specialize (Hall _ E).
    unfold Process.consistent, Process.cache_fit. cbn -[sqlite_int].
    split; [exact Hd|]. split; [exact Hne|]. split; [|exact Hdur].
    unfold Process.settings_fit in Hall. rewrite !andb_true_iff in *. tauto.
  - apply latest_None in E. contradiction.
Qed.

Lemma consistent_frame (a b : PomodoroApp.t) :
  settings_rows (view (PomodoroApp.db_manager b))
  = settings_rows (view (PomodoroApp.db_manager a)) ->
  PomodoroApp.work_duration b = PomodoroApp.work_duration a ->
  PomodoroApp.short_break_duration b = PomodoroApp.short_break_duration a ->
  PomodoroApp.long_break_duration b = PomodoroApp.long_break_duration a ->
  durable (PomodoroApp.db_manager b) = view (PomodoroApp.db_manager b) ->
  Process.consistent a -> Process.consistent b.
Proof.
  unfold Process.consistent, Process.cache_fit, Process.on_disk.
  intros -> -> -> -> Hdur. tauto.
Qed.

(** [move_to_next_session] touches neither the store nor the cached
    settings, whether or not it starts the next countdown. *)
Lemma move_to_next_session_frame (a : PomodoroApp.t) :
  let b := snd (PomodoroApp.move_to_next_session a) in
  PomodoroApp.db_manager b = PomodoroApp.db_manager a
  /\ PomodoroApp.work_duration b = PomodoroApp.work_duration a
  /\ PomodoroApp.short_break_duration b = PomodoroApp.short_break_duration a
  /\ PomodoroApp.long_break_duration b = PomodoroApp.long_break_duration a.
Proof.
  unfold PomodoroApp.move_to_next_session, PomodoroApp.start_timer.
  branches; cbn; auto.
Qed.

Lemma get_current_duration_fit (a : PomodoroApp.t) :
  Process.cache_fit a = true ->
  sqlite_int (PomodoroApp.get_current_duration a) = true.
Proof.
  unfold Process.cache_fit, PomodoroApp.get_current_duration.
  rewrite !andb_true_iff. intros [[H1 H2] H3]. branches; assumption.
Qed.

(** How [timer_finished] leaves a controller whose cached durations were
    read from the store. While the store still has a key to give, one row
    is inserted and committed, made of the state the method finds, and this
    holds whatever the transition or the repaint after it does. With the
    keys used up the [INSERT] fails and nothing else is done. *)
Lemma timer_finished_effect (now : datetime) (shown : PomodoroApp.clock)
    (a : PomodoroApp.t) :
  Process.cache_fit a = true ->
  let i := next_id (sessions_seq (view (PomodoroApp.db_manager a)))
             (map sessions.id (PomodoroApp.history a)) in
  let r := sessions.mk i now (PomodoroApp.session_type a)
             (PomodoroApp.get_current_duration a) 1 (PomodoroApp.task_input a) "" in
  let a' := snd (PomodoroApp.timer_finished now shown a) in
  (sqlite_int i = true ->
   PomodoroApp.db_manager a'
   = commit (mk (mk_tables (PomodoroApp.history a ++ [r]) i
                   (settings_rows (view (PomodoroApp.db_manager a)))
                   (settings_seq (view (PomodoroApp.db_manager a))))
                (durable (PomodoroApp.db_manager a)))
   /\ fst (PomodoroApp.timer_finished now shown a)
      = (if (PomodoroApp.session_type a =? "work")%string
            && (PomodoroApp.long_break_interval a =? 0)
         then Raise ZeroDivisionError else PomodoroApp.repaint shown a')
   /\ PomodoroApp.current_session a'
      = PomodoroApp.current_session a
        + (if (PomodoroApp.session_type a =? "work")%string then 1 else 0)
   /\ PomodoroApp.session_type a'
      = (if (PomodoroApp.session_type a =? "work")%string
         then if PomodoroApp.long_break_interval a =? 0 then "work"
              else if (PomodoroApp.current_session a + 1)
                      mod PomodoroApp.long_break_interval a =? 0
                   then "long_break" else "short_break"
         else "work")
   /\ PomodoroApp.task_input a' = PomodoroApp.task_input a
   /\ PomodoroApp.long_break_interval a' = PomodoroApp.long_break_interval a
   /\ PomodoroApp.auto_start_breaks a' = PomodoroApp.auto_start_breaks a
   /\ PomodoroApp.auto_start_work a' = PomodoroApp.auto_start_work a
   /\ PomodoroApp.work_duration a' = PomodoroApp.work_duration a
   /\ PomodoroApp.short_break_duration a' = PomodoroApp.short_break_duration a
   /\ PomodoroApp.long_break_duration a' = PomodoroApp.long_break_duration a)
  /\ (sqlite_int i = false ->
      PomodoroApp.timer_finished now shown a
      = (Raise OperationalError,
         PomodoroApp.with_db (rollback (PomodoroApp.db_manager a))
           (PomodoroApp.with_is_running false a))).
Proof.
  intros Hfit. apply get_current_duration_fit in Hfit. cbv zeta.
  unfold PomodoroApp.timer_finished, add_session, PomodoroApp.history.
  change (PomodoroApp.get_current_duration (PomodoroApp.with_is_running false a))
    with (PomodoroApp.get_current_duration a).
  rewrite Hfit. change (sqlite_int 1) with true. cbn [andb].
  cbn [PomodoroApp.db_manager PomodoroApp.with_is_running].
  split; intros Hi; rewrite Hi; [|reflexivity].
  unfold PomodoroApp.move_to_next_session, PomodoroApp.start_timer.
  cbn [PomodoroApp.session_type PomodoroApp.with_db PomodoroApp.with_is_running
       PomodoroApp.with_current_session PomodoroApp.long_break_interval
       PomodoroApp.current_session PomodoroApp.db_manager PomodoroApp.task_input].
  destruct (PomodoroApp.session_type a =? "work")%string eqn:Ework;
    [destruct (PomodoroApp.long_break_interval a =? 0);
     [|destruct ((PomodoroApp.current_session a + 1)
                 mod PomodoroApp.long_break_interval a =? 0)]|];
    branches; cbn; repeat split; try reflexivity; try lia;
    apply String.eqb_eq; exact Ework.
Qed.

Lemma timer_finished_consistent (now : datetime) (shown : PomodoroApp.clock)
    (a : PomodoroApp.t) :
  Process.consistent a ->
  Process.consistent (snd (PomodoroApp.timer_finished now shown a)).
Proof.
  intros Hc. pose proof Hc as (_ & _ & Hfit & Hdur).
  destruct (timer_finished_effect now shown a Hfit) as [Hok Hfull].
  cbv zeta in Hok, Hfull.
  destruct (sqlite_int (next_id (sessions_seq (view (PomodoroApp.db_manager a)))
                          (map sessions.id (PomodoroApp.history a)))) eqn:Ei.
  - destruct (Hok eq_refl) as (Hdb & _ & _ & _ & _ & _ & _ & _ & Hw & Hs & Hl).
    revert Hc. apply consistent_frame; try assumption; rewrite Hdb; reflexivity.
  - rewrite (Hfull eq_refl), (rollback_committed _ Hdur). cbn [snd].
    revert Hc. apply consistent_frame; try reflexivity. exact Hdur.
Qed.

Lemma dialog_kwargs_assignable (d : SettingsDialog.t) :
  SettingsDialog.in_range d = true ->
  forallb assignable (SettingsDialog.kwargs d) = true.
Proof.
  unfold SettingsDialog.in_range. rewrite !andb_true_iff, !Z.leb_le.
  intros Hr.
  assert (Hb : forall b : bool, sqlite_int (Z.b2z b) = true) by (intros []; reflexivity).
  assert (Hs : forall z, 1 <= z <= 60 -> sqlite_int z = true)
    by (intros z Hz; apply sqlite_int_bounds; lia).
  unfold SettingsDialog.kwargs. cbn [forallb]. unfold assignable. cbn [fst snd].
  change (column_of_name "username") with (Some c_username).
  change (column_of_name "work_duration") with (Some c_work_duration).
  change (column_of_name "short_break") with (Some c_short_break).
  change (column_of_name "long_break") with (Some c_long_break).
  change (column_of_name "long_break_interval") with (Some c_long_break_interval).
  change (column_of_name "auto_start_breaks") with (Some c_auto_start_breaks).
  change (column_of_name "auto_start_work") with (Some c_auto_start_work).
  change (column_of_name "sound_enabled") with (Some c_sound_enabled).
  cbn [fits]. rewrite !Hb, !Hs by lia. reflexivity.
Qed.

Lemma exec_keeps_duration (acts : list TimerThread.action) :
  forall s, TimerThread.duration (fst (TimerThread.exec acts s))
            = TimerThread.duration s.
Proof.
  induction acts as [|x acts IH]; intros s; [reflexivity|].
  cbn [TimerThread.exec].
  assert (H1 : TimerThread.duration (fst (TimerThread.act x s))
               = TimerThread.duration s).
  { destruct x; cbn; [|reflexivity|reflexivity].
    unfold TimerThread.loop_pass. branches; reflexivity. }
  destruct (TimerThread.act x s) as [s1 e1]. cbn [fst] in H1.
  specialize (IH s1). destruct (TimerThread.exec acts s1) as [s2 e2].
  cbn [fst] in *. congruence.
Qed.

(** Accepting the dialog in a consistent state stores its values, reloads
    the cache from them and ends with the repaint of the profile. *)
Lemma open_settings_accepted (now : datetime) (d : SettingsDialog.t)
    (a : PomodoroApp.t) :
  Process.consistent a -> SettingsDialog.in_range d = true ->
  exists a',
    PomodoroApp.open_settings now (Some d) a
    = (PomodoroApp.profile_repaint now a', a')
    /\ PomodoroApp.work_duration a' = SettingsDialog.work_spin d
    /\ PomodoroApp.short_break_duration a' = SettingsDialog.short_break_spin d
    /\ PomodoroApp.long_break_duration a' = SettingsDialog.long_break_spin d
    /\ PomodoroApp.long_break_interval a' = SettingsDialog.long_break_interval_spin d
    /\ PomodoroApp.session_type a' = PomodoroApp.session_type a
    /\ PomodoroApp.timer_thread a' = PomodoroApp.timer_thread a
    /\ PomodoroApp.task_input a' = PomodoroApp.task_input a
    /\ PomodoroApp.history a' = PomodoroApp.history a
    /\ sessions_seq (view (PomodoroApp.db_manager a'))
       = sessions_seq (view (PomodoroApp.db_manager a))
    /\ Process.consistent a'.
Proof.
  intros Hc Hr. pose proof Hc as (Hd & Hne & Hfit & Hdur).
  destruct (get_settings (PomodoroApp.db_manager a)) as [row|] eqn:Erow;
    [|apply latest_None in Erow; contradiction].
  destruct (update_settings_assignable (SettingsDialog.kwargs d)
              (PomodoroApp.db_manager a) row Erow (dialog_kwargs_assignable d Hr))
    as (c' & row' & Hup & Hget & Hcells & Hsess & Hdur').
  destruct (update_settings_frame (SettingsDialog.kwargs d)
              (PomodoroApp.db_manager a)) as (_ & Hne' & Hd').
  assert (Hseq : sessions_seq (view c') = sessions_seq (view (PomodoroApp.db_manager a))).
  { revert Hup. unfold update_settings. rewrite Erow.
    destruct (execute_updates (SettingsDialog.kwargs d) (settings.id row)
                (view (PomodoroApp.db_manager a))) as [o tb'] eqn:E.
    apply execute_updates_shape in E. destruct E as (_ & E & _).
    destruct o; intros H; inversion H; subst; cbn; exact E. }
  rewrite Hup in Hne', Hd'. cbn [snd] in Hne', Hd'.
  pose proof (load_settings_consistent now (PomodoroApp.with_db c' a)
                (Hd' Hd) (Hne' Hne) Hdur') as Hc'.
  unfold PomodoroApp.open_settings, SettingsDialog.save_settings. rewrite Hup.
  revert Hc'. unfold PomodoroApp.load_settings.
  cbn [PomodoroApp.db_manager PomodoroApp.with_db snd].
  rewrite Hget. intros Hc'.
  eexists. split; [reflexivity|].
  pose proof (Hcells c_work_duration) as Hw.
  pose proof (Hcells c_short_break) as Hs.
  pose proof (Hcells c_long_break) as Hl.
  pose proof (Hcells c_long_break_interval) as Hi.
  cbn in Hw, Hs, Hl, Hi.
  injection Hw as Hw. injection Hs as Hs. injection Hl as Hl. injection Hi as Hi.
  cbn. unfold PomodoroApp.history. cbn. auto 12.
Qed.

(** *** What every reachable state satisfies *)

Lemma init_consistent (shown : PomodoroApp.clock) (disk : tables)
    (a : PomodoroApp.t) :
  PomodoroApp.init shown disk = Ok a ->
  Process.on_disk disk = true -> Process.consistent a.
Proof.
  unfold PomodoroApp.init. intros H Hd.
  destruct (create_tables (mk disk disk)) as [[[]|e] c] eqn:Ec; [|discriminate].
  destruct (create_tables_seeds disk c Ec) as (H2 & H3 & _ & _ & _ & H1).
  specialize (H1 Hd).
  destruct (PomodoroApp.charts_repaint shown c); [|discriminate].
  match type of H with
  | match PomodoroApp.load_settings ?n ?x with _ => _ end = _ =>
      pose proof (load_settings_consistent n x H1 H2 H3) as Hc;
      destruct (PomodoroApp.load_settings n x) as [[[]|ex] b]; [|discriminate]
  end.
  inversion H; subst. exact Hc.
Qed.

Lemma step_consistent (e : Process.event) (w w' : Process.t) :
  Process.possible e = true ->
  Process.step e w = Some w' ->
  Process.consistent (Process.app w) -> Process.consistent (Process.app w').
Proof.
  intros Hp Hstep Hc. pose proof Hc as (_ & _ & _ & Hdur).
  destruct e; cbn in Hstep.
  - destruct (TimerThread.isRunning _); [destruct (TimerThread.loop_pass _)|];
      inversion Hstep; subst; cbn; revert Hc; apply consistent_frame;
      first [reflexivity | exact Hdur].
  - destruct (Process.pending w) as [|[n|] rest]; [discriminate| |].
    + inversion Hstep; subst. exact Hc.
    + pose proof (timer_finished_consistent now shown (Process.app w) Hc) as Hf.
      destruct (PomodoroApp.timer_finished now shown (Process.app w)) as [[[]|e] a];
        [|discriminate].
      inversion Hstep; subst. exact Hf.
  - inversion Hstep; subst; cbn. revert Hc. apply consistent_frame;
      unfold PomodoroApp.start_timer; branches; first [reflexivity | exact Hdur].
  - inversion Hstep; subst; cbn. revert Hc. apply consistent_frame;
      unfold PomodoroApp.pause_timer; branches; first [reflexivity | exact Hdur].
  - inversion Hstep; subst; cbn. revert Hc. apply consistent_frame;
      first [reflexivity | exact Hdur].
  - destruct dialog as [d|]; cbn in Hstep; [|inversion Hstep; subst; exact Hc].
    cbn in Hp.
    destruct (open_settings_accepted now d (Process.app w) Hc Hp)
      as (a' & Hopen & _ & _ & _ & _ & _ & _ & _ & _ & _ & Hc').
    fold (PomodoroApp.open_settings now (Some d) (Process.app w)) in Hstep.
    rewrite Hopen in Hstep.
    destruct (PomodoroApp.profile_repaint now a') as [[]|e]; [|discriminate].
    inversion Hstep; subst. exact Hc'.
  - inversion Hstep; subst; cbn. revert Hc. apply consistent_frame;
      first [reflexivity | exact Hdur].
Qed.

Lemma reachable_consistent (w : Process.t) :
  Process.reachable w -> Process.consistent (Process.app w).
Proof.
  induction 1 as [shown disk a Hd Hi | w w' e Hr IH Hp Hs].
  - exact (init_consistent shown disk a Hi Hd).
  - exact (step_consistent e w w' Hp Hs IH).
Qed.

(** *** Completion and reset *)

(** C3, as amended. In every reachable state, [reset_timer] leaves the
    store, and so the session history, as it was. [timer_finished] appends
    exactly one session row to the history and commits it, whatever the
    transition and the repaint after it do, as long as the store has a key
    left to give the row; that row has [completed = 1] and carries the
    session type that just finished. With the keys used up
    [timer_finished] raises sqlite3's [OperationalError] and the history is
    as before. *)
Theorem history_written_on_completion_only
    (w : Process.t) (now : datetime) (shown : PomodoroApp.clock) :
  Process.reachable w ->
  let a := Process.app w in
  let seq := sessions_seq (view (PomodoroApp.db_manager a)) in
  PomodoroApp.db_manager (PomodoroApp.reset_timer a) = PomodoroApp.db_manager a
  /\ PomodoroApp.history (PomodoroApp.reset_timer a) = PomodoroApp.history a
  /\ (- 2 ^ 63 <= seq < 2 ^ 63 - 1 ->
      Forall (fun r => sessions.id r < 2 ^ 63 - 1) (PomodoroApp.history a) ->
      exists r,
        PomodoroApp.history (snd (PomodoroApp.timer_finished now shown a))
        = PomodoroApp.history a ++ [r]
        /\ sessions.completed r = 1
        /\ sessions.session_type r = PomodoroApp.session_type a
        /\ sessions.date r = now
        /\ sessions_rows
             (durable (PomodoroApp.db_manager
                         (snd (PomodoroApp.timer_finished now shown a))))
           = PomodoroApp.history a ++ [r])
  /\ (2 ^ 63 - 1 <= seq
      \/ Exists (fun r => 2 ^ 63 - 1 <= sessions.id r) (PomodoroApp.history a) ->
      fst (PomodoroApp.timer_finished now shown a) = Raise OperationalError
      /\ PomodoroApp.history (snd (PomodoroApp.timer_finished now shown a))
         = PomodoroApp.history a
      /\ sessions_rows
           (durable (PomodoroApp.db_manager
                       (snd (PomodoroApp.timer_finished now shown a))))
         = PomodoroApp.history a).
Proof.
  intros Hr a seq. pose proof (reachable_consistent w Hr) as Hc.
  fold a in Hc. destruct Hc as (_ & _ & Hfit & Hdur).
  split; [reflexivity|]. split; [reflexivity|].
  destruct (timer_finished_effect now shown a Hfit) as [Hok Hfull].
  cbv zeta in Hok, Hfull. split.
  - intros Hseq Hids.
    destruct (Hok (next_id_fits _ _ Hseq (proj2 (Forall_map _ _ _) Hids)))
      as (Hdb & _).
    eexists. unfold PomodoroApp.history at 1. rewrite Hdb. cbn. auto.
  - intros Hfull'.
    assert (Hno : sqlite_int (next_id seq (map sessions.id (PomodoroApp.history a)))
                  = false).
    { apply next_id_full. destruct Hfull' as [H|H]; [left; exact H | right].
      apply Exists_map. exact H. }
    rewrite (Hfull Hno), (rollback_committed _ Hdur).
    unfold PomodoroApp.history. cbn. rewrite Hdur. auto.
Qed.

Lemma history_written_on_completion_only_witness :
  exists a,
    PomodoroApp.init at_new_year_2024 empty_file = Ok a
    /\ Process.reachable (Process.mk a [])
    /\ PomodoroApp.history a = []
    /\ PomodoroApp.history (PomodoroApp.reset_timer a) = []
    /\ List.length
         (PomodoroApp.history
            (snd (PomodoroApp.timer_finished new_year_2024 at_new_year_2024 a)))
       = 1%nat.
Proof.
  destruct (PomodoroApp.init at_new_year_2024 empty_file) as [a|e] eqn:E;
    [|vm_compute in E; discriminate E].
  assert (Hr : Process.reachable (Process.mk a []))
    by (exact (Process.reachable_init at_new_year_2024 empty_file a eq_refl E)).
  assert (Hh : PomodoroApp.history a = [])
    by (vm_compute in E; injection E as <-; reflexivity).
  assert (Hs : sessions_seq (view (PomodoroApp.db_manager a)) = 0)
    by (vm_compute in E; injection E as <-; reflexivity).
  exists a. split; [reflexivity|]. split; [exact Hr|]. split; [exact Hh|].
  destruct (history_written_on_completion_only _ new_year_2024 at_new_year_2024 Hr)
    as (_ & Hreset & Hadd & _).
  cbv zeta in Hreset, Hadd. cbn [Process.app] in Hreset, Hadd.
  split; [rewrite Hreset; exact Hh|].
  destruct Hadd as (r & Happ & _);
    [rewrite Hs; lia | rewrite Hh; constructor |].
  rewrite Happ, Hh. reflexivity.
Defined.

(** C3, as the specification words it, fails: completion does not always
    append a row. The application starts on a file whose only session holds
    the largest key there is; the finished handler then raises and the
    history is the one row it was. *)
Lemma completion_with_keys_used_up :
  let last := sessions.mk (2 ^ 63 - 1) new_year_2024 "work" 25 1 "" "" in
  let disk := mk_tables [last] (2 ^ 63 - 1) [] 0 in
  exists a,
    PomodoroApp.init at_new_year_2024 disk = Ok a
    /\ Process.reachable (Process.mk a [])
    /\ PomodoroApp.history a = [last]
    /\ fst (PomodoroApp.timer_finished new_year_2024 at_new_year_2024 a)
       = Raise OperationalError
    /\ PomodoroApp.history
         (snd (PomodoroApp.timer_finished new_year_2024 at_new_year_2024 a))
       = [last].
Proof.
  cbv zeta.
  set (disk := mk_tables
                 [sessions.mk (2 ^ 63 - 1) new_year_2024 "work" 25 1 "" ""]
                 (2 ^ 63 - 1) [] 0).
  destruct (PomodoroApp.init at_new_year_2024 disk) as [a|e] eqn:E;
    [|vm_compute in E; discriminate E].
  exists a. split; [reflexivity|].
  split; [exact (Process.reachable_init at_new_year_2024 disk a eq_refl E)|].
  vm_compute in E. injection E as <-.
  repeat split; vm_compute; reflexivity.
Qed.

(** *** The transition rule *)

Lemma move_to_next_session_rule (a : PomodoroApp.t) :
  PomodoroApp.long_break_interval a <> 0 ->
  fst (PomodoroApp.move_to_next_session a) = Ok tt
  /\ PomodoroApp.current_session (snd (PomodoroApp.move_to_next_session a))
     = (if (PomodoroApp.session_type a =? "work")%string
        then PomodoroApp.current_session a + 1
        else PomodoroApp.current_session a)
  /\ PomodoroApp.session_type (snd (PomodoroApp.move_to_next_session a))
     = (if (PomodoroApp.session_type a =? "work")%string
        then if (PomodoroApp.current_session a + 1)
                mod PomodoroApp.long_break_interval a =? 0
             then "long_break" else "short_break"
        else "work").
Proof.
  intros Hn. apply Z.eqb_neq in Hn.
  unfold PomodoroApp.move_to_next_session, PomodoroApp.start_timer.
  destruct (PomodoroApp.session_type a =? "work")%string.
  - cbn [PomodoroApp.long_break_interval PomodoroApp.with_current_session
         PomodoroApp.current_session].
    rewrite Hn.
    destruct ((PomodoroApp.current_session a + 1)
              mod PomodoroApp.long_break_interval a =? 0);
      branches; cbn; auto.
  - branches; cbn; auto.
Qed.

(** C2. With a non-zero long-break interval, [move_to_next_session] never
    raises and follows the rule: after a [work] session the counter goes up
    by exactly one and the next type is [long_break] when the new count is a
    multiple of the interval and [short_break] otherwise; after a break the
    next type is [work] and the counter is unchanged. The completion handler
    [timer_finished] moves the controller the same way once it has written
    its row, and returns as its closing repaint does. With the default
    settings (interval 4) and a counter at 0, four work sessions completed in
    a row, each followed by its break, lead to short, short, short and long
    break. *)
Theorem next_session_rule (a : PomodoroApp.t) (now : datetime)
    (shown : PomodoroApp.clock) :
  PomodoroApp.long_break_interval a <> 0 ->
  fst (PomodoroApp.move_to_next_session a) = Ok tt
  /\ (PomodoroApp.session_type a = "work" ->
      PomodoroApp.current_session (snd (PomodoroApp.move_to_next_session a))
      = PomodoroApp.current_session a + 1
      /\ PomodoroApp.session_type (snd (PomodoroApp.move_to_next_session a))
         = if (PomodoroApp.current_session a + 1)
              mod PomodoroApp.long_break_interval a =? 0
           then "long_break" else "short_break")
  /\ (PomodoroApp.session_type a <> "work" ->
      PomodoroApp.current_session (snd (PomodoroApp.move_to_next_session a))
      = PomodoroApp.current_session a
      /\ PomodoroApp.session_type (snd (PomodoroApp.move_to_next_session a))
         = "work")
  /\ (Process.cache_fit a = true ->
      sqlite_int (next_id (sessions_seq (view (PomodoroApp.db_manager a)))
                    (map sessions.id (PomodoroApp.history a))) = true ->
      fst (PomodoroApp.timer_finished now shown a)
      = PomodoroApp.repaint shown (snd (PomodoroApp.timer_finished now shown a))
      /\ PomodoroApp.current_session (snd (PomodoroApp.timer_finished now shown a))
         = PomodoroApp.current_session (snd (PomodoroApp.move_to_next_session a))
      /\ PomodoroApp.session_type (snd (PomodoroApp.timer_finished now shown a))
         = PomodoroApp.session_type (snd (PomodoroApp.move_to_next_session a)))
  /\ match PomodoroApp.init at_new_year_2024 empty_file with
     | Ok a0 =>
         map snd
           (filter (fun p => (fst p =? "work")%string)
              (PomodoroApp.completions
                 (repeat (new_year_2024, at_new_year_2024) 7) a0))
         = ["short_break"; "short_break"; "short_break"; "long_break"]
     | Raise _ => False
     end.
Proof.
  intros Hn. destruct (move_to_next_session_rule a Hn) as (Hok & Hcount & Hty).
  split; [exact Hok|]. split.
  { intros Hw. rewrite Hcount, Hty, Hw. cbn. auto. }
  split.
  { intros Hw. apply String.eqb_neq in Hw. rewrite Hcount, Hty, Hw. auto. }
  split; [|vm_compute; reflexivity].
  intros Hfit Hkey.
  destruct (timer_finished_effect now shown a Hfit) as [Heff _].
  destruct (Heff Hkey) as (_ & Hfst & Hcs & Hst & _).
  apply Z.eqb_neq in Hn. rewrite Hn in Hfst, Hst. rewrite andb_false_r in Hfst.
  rewrite Hfst, Hcs, Hst, Hcount, Hty.
  destruct (PomodoroApp.session_type a =? "work")%string;
    repeat split; try reflexivity; lia.
Qed.

Lemma next_session_rule_witness :
  let a := PomodoroApp.mk fresh_store TimerThread.init 1 "work" false
             25 5 15 4 false false true "" in
  PomodoroApp.long_break_interval a <> 0
  /\ PomodoroApp.session_type a = "work"
  /\ PomodoroApp.current_session a = 1
  /\ PomodoroApp.current_session (snd (PomodoroApp.move_to_next_session a)) = 1 + 1
  /\ PomodoroApp.session_type (snd (PomodoroApp.move_to_next_session a))
     = "short_break".
Proof.
  cbv zeta.
  assert (Hn : PomodoroApp.long_break_interval
                 (PomodoroApp.mk fresh_store TimerThread.init 1 "work" false
                    25 5 15 4 false false true "") <> 0)
    by (cbn; discriminate).
  split; [exact Hn|]. split; [reflexivity|]. split; [reflexivity|].
  destruct (next_session_rule _ new_year_2024 at_new_year_2024 Hn)
    as (_ & Hwork & _).
  destruct (Hwork eq_refl) as [Hc Ht].
  split; [exact Hc | exact Ht].
Defined.

(** *** Starting *)

(** C6, as amended. The engine's [start_timer] cannot fail and has no
    [AlreadyRunning] error: from every state, running or not, it sets both
    [duration] and [remaining] to the given seconds and leaves the engine
    running and unpaused. The guard is in the controller: its [start_timer]
    calls the engine's only while the controller's own [is_running] flag is
    off; with the flag on it resumes a paused engine and otherwise changes
    nothing. *)
Theorem start_timer_always_restarts
    (d : Z) (s : TimerThread.t) (a : PomodoroApp.t) :
  TimerThread.start_timer d s = TimerThread.mk d d true false true
  /\ (PomodoroApp.is_running a = false ->
      PomodoroApp.start_timer a
      = PomodoroApp.with_is_running true
          (PomodoroApp.with_timer
             (TimerThread.start_timer (PomodoroApp.get_current_duration a * 60)
                (PomodoroApp.timer_thread a)) a))
  /\ (PomodoroApp.is_running a = true ->
      TimerThread.is_paused (PomodoroApp.timer_thread a) = true ->
      PomodoroApp.start_timer a
      = PomodoroApp.with_timer
          (TimerThread.resume_timer (PomodoroApp.timer_thread a)) a)
  /\ (PomodoroApp.is_running a = true ->
      TimerThread.is_paused (PomodoroApp.timer_thread a) = false ->
      PomodoroApp.start_timer a = a).
Proof.
  split; [reflexivity|]. unfold PomodoroApp.start_timer.
  repeat split; intros H; try intros H'; rewrite H; try rewrite H'; reflexivity.
Qed.

(** C6, as the specification words it, fails: an engine that is running with
    1498 seconds left accepts [start_timer 60] and is left with 60. *)
Lemma start_timer_restarts_a_running_engine :
  let s := fst (TimerThread.exec [TimerThread.Pass; TimerThread.Pass]
                  (TimerThread.start_timer 1500 TimerThread.init)) in
  TimerThread.is_running s = true
  /\ TimerThread.is_paused s = false
  /\ TimerThread.remaining s = 1498
  /\ TimerThread.remaining (TimerThread.start_timer 60 s) = 60
  /\ TimerThread.start_timer 60 s <> s.
Proof.
  cbv zeta. repeat split; try reflexivity. vm_compute. discriminate.
Qed.

(** *** Editing the settings during a countdown *)

(** C9. The [duration] written on completion is the cached setting of the
    current session type as it stands when [timer_finished] runs. So when a
    countdown is started, the settings dialog is then accepted with other
    durations, and the countdown goes on (any passes, pauses and resumes of
    the engine) until [timer_finished] runs: the engine was counting the old
    duration, and the row that is written carries the new one. The row is
    written whenever the store has a key left to give it. *)
Theorem recorded_duration_is_read_at_completion
    (w : Process.t) (d : SettingsDialog.t)
    (acts : list TimerThread.action) (edit now : datetime)
    (shown : PomodoroApp.clock) :
  Process.reachable w ->
  PomodoroApp.is_running (Process.app w) = false ->
  SettingsDialog.in_range d = true ->
  - 2 ^ 63 <= sessions_seq (view (PomodoroApp.db_manager (Process.app w)))
  < 2 ^ 63 - 1 ->
  Forall (fun r => sessions.id r < 2 ^ 63 - 1) (PomodoroApp.history (Process.app w)) ->
  let started := PomodoroApp.start_timer (Process.app w) in
  let edited := snd (PomodoroApp.open_settings edit (Some d) started) in
  let counting :=
    PomodoroApp.with_timer
      (fst (TimerThread.exec acts (PomodoroApp.timer_thread edited))) edited in
  let new_duration :=
    if (PomodoroApp.session_type (Process.app w) =? "work")%string
    then SettingsDialog.work_spin d
    else if (PomodoroApp.session_type (Process.app w) =? "short_break")%string
         then SettingsDialog.short_break_spin d
         else SettingsDialog.long_break_spin d in
  (exists r,
     PomodoroApp.history (snd (PomodoroApp.timer_finished now shown (Process.app w)))
     = PomodoroApp.history (Process.app w) ++ [r]
     /\ sessions.duration r = PomodoroApp.get_current_duration (Process.app w))
  /\ TimerThread.duration (PomodoroApp.timer_thread counting)
     = PomodoroApp.get_current_duration (Process.app w) * 60
  /\ exists r,
       PomodoroApp.history (snd (PomodoroApp.timer_finished now shown counting))
       = PomodoroApp.history (Process.app w) ++ [r]
       /\ sessions.duration r = new_duration
       /\ sessions.completed r = 1.
Proof.
  intros Hreach Hidle Hr Hseq Hids. cbv zeta.
  pose proof (next_id_fits _ _ Hseq (proj2 (Forall_map _ _ _) Hids)) as Hkey.
  pose proof (reachable_consistent w Hreach) as Hc.
  split.
  { destruct Hc as (_ & _ & Hfit & _).
    destruct (timer_finished_effect now shown (Process.app w) Hfit) as [Heff _].
    destruct (Heff Hkey) as (Hdb & _).
    eexists. unfold PomodoroApp.history at 1. rewrite Hdb. cbn.
    split; reflexivity. }
  assert (Hstart : PomodoroApp.start_timer (Process.app w)
                   = PomodoroApp.with_is_running true
                       (PomodoroApp.with_timer
                          (TimerThread.start_timer
                             (PomodoroApp.get_current_duration (Process.app w) * 60)
                             (PomodoroApp.timer_thread (Process.app w)))
                          (Process.app w)))
    by (unfold PomodoroApp.start_timer; rewrite Hidle; reflexivity).
  assert (Hc1 : Process.consistent (PomodoroApp.start_timer (Process.app w))).
  { pose proof Hc as (_ & _ & _ & Hdur). revert Hc.
    apply consistent_frame; rewrite Hstart; first [reflexivity | exact Hdur]. }
  destruct (open_settings_accepted edit d _ Hc1 Hr)
    as (a' & Hopen & Hw & Hs & Hl & _ & Hty & Hth & Htask & Hhist & Hsq & Hc').
  rewrite Hopen. cbn [fst snd].
  split.
  { cbn [PomodoroApp.timer_thread PomodoroApp.with_timer].
    rewrite exec_keeps_duration, Hth, Hstart. reflexivity. }
  set (counting := PomodoroApp.with_timer _ a').
  assert (Hfit : Process.cache_fit counting = true)
    by (destruct Hc' as (_ & _ & Hfit & _); exact Hfit).
  destruct (timer_finished_effect now shown counting Hfit) as [Heff _].
  cbv zeta in Heff.
  assert (Hh : PomodoroApp.history counting = PomodoroApp.history (Process.app w)).
  { unfold counting, PomodoroApp.history in *. cbn.
    rewrite Hhist, Hstart. reflexivity. }
  assert (Hq : sessions_seq (view (PomodoroApp.db_manager counting))
               = sessions_seq (view (PomodoroApp.db_manager (Process.app w)))).
  { unfold counting. cbn. rewrite Hsq, Hstart. reflexivity. }
  rewrite Hh, Hq in Heff. destruct (Heff Hkey) as (Hdb & _).
  eexists. unfold PomodoroApp.history at 1. rewrite Hdb.
  cbn [view commit sessions_rows]. split; [reflexivity|].
  split; [|reflexivity].
  cbn [sessions.duration]. unfold PomodoroApp.get_current_duration, counting.
  cbn. rewrite Hty, Hw, Hs, Hl, Hstart. reflexivity.
Qed.

Lemma recorded_duration_is_read_at_completion_witness :
  exists a,
    PomodoroApp.init at_new_year_2024 empty_file = Ok a
    /\ let w := Process.mk a [] in
       let d := SettingsDialog.mk "Ada" 50 5 15 4 false false true in
       let counting :=
         PomodoroApp.with_timer
           (fst (TimerThread.exec (repeat TimerThread.Pass 1501)
                   (PomodoroApp.timer_thread
                      (snd (PomodoroApp.open_settings new_year_2024 (Some d)
                              (PomodoroApp.start_timer (Process.app w)))))))
           (snd (PomodoroApp.open_settings new_year_2024 (Some d)
                   (PomodoroApp.start_timer (Process.app w)))) in
       Process.reachable w
       /\ PomodoroApp.is_running (Process.app w) = false
       /\ SettingsDialog.in_range d = true
       /\ TimerThread.duration (PomodoroApp.timer_thread counting) = 25 * 60
       /\ exists r,
            PomodoroApp.history
              (snd (PomodoroApp.timer_finished new_year_2024 at_new_year_2024
                      counting)) = [r]
            /\ sessions.duration r = 50.
Proof.
  destruct (PomodoroApp.init at_new_year_2024 empty_file) as [a|e] eqn:E;
    [|vm_compute in E; discriminate E].
  assert (Hr : Process.reachable (Process.mk a []))
    by (exact (Process.reachable_init at_new_year_2024 empty_file a eq_refl E)).
  vm_compute in E. injection E as <-.
  eexists. split; [reflexivity|]. cbv zeta.
  split; [exact Hr|]. split; [reflexivity|]. split; [reflexivity|].
  destruct (recorded_duration_is_read_at_completion _
              (SettingsDialog.mk "Ada" 50 5 15 4 false false true)
              (repeat TimerThread.Pass 1501) new_year_2024 new_year_2024
              at_new_year_2024 Hr eq_refl eq_refl
              ltac:(vm_compute; split; [discriminate | reflexivity])
              ltac:(constructor))
    as (_ & Hdur & r & Hh & Hd & _).
  split; [exact Hdur|].
  exists r. split; [exact Hh | exact Hd].
Defined.

End Controller.

(** * Further properties *)

(** ** The engine under any schedule *)

Section EngineSchedules.

Import TimerThread.

(** What one step of a schedule can do to an engine with time left. *)
Lemma act_cases (a : action) (s : t) :
  0 <= remaining s ->
  (snd (act a s) = [] /\ remaining (fst (act a s)) = remaining s)
  \/ (snd (act a s) = [time_updated (remaining s)]
      /\ remaining (fst (act a s)) = remaining s - 1 /\ 0 < remaining s)
  \/ (snd (act a s) = [time_updated 0; timer_finished]
      /\ remaining s = 0 /\ remaining (fst (act a s)) = 0
      /\ isRunning (fst (act a s)) = false).
Proof.
  intros Hs. destruct a; cbn [act]; [|left; auto|left; auto].
  destruct (isRunning s); [|left; auto].
  unfold loop_pass.
  destruct (is_running s); [|left; auto].
  destruct (is_paused s); cbn [negb]; [left; auto|].
  destruct (remaining s <=? 0) eqn:E.
  - apply Z.leb_le in E. right; right. cbn.
    replace (remaining s) with 0 by lia. auto.
  - apply Z.leb_gt in E. right; left. cbn. auto.
Qed.

Lemma exec_trace (acts : list action) :
  forall s, 0 <= remaining s ->
    Forall (fun n => 0 <= n <= remaining s) (updates (snd (exec acts s)))
    /\ StronglySorted Z.gt (updates (snd (exec acts s)))
    /\ (existsb is_finished (snd (exec acts s)) = false
        \/ exists pre,
             snd (exec acts s) = pre ++ [time_updated 0; timer_finished]
             /\ existsb is_finished pre = false).
Proof.
  induction acts as [|a acts IH]; intros s Hs.
  - cbn. repeat split; [constructor | constructor | left; reflexivity].
  - cbn [exec].
    destruct (act_cases a s Hs) as [(He & Hr) | [(He & Hr & Hpos) | (He & Hz & Hr & Hthr)]];
      destruct (act a s) as [s1 e1]; cbn [fst snd] in *; subst e1.
    + assert (Hs1 : 0 <= remaining s1) by lia.
      destruct (IH s1 Hs1) as (I1 & I2 & I3).
      destruct (exec acts s1) as [s2 e2]. cbn [fst snd app] in *.
      rewrite Hr in I1. auto.
    + assert (Hs1 : 0 <= remaining s1) by lia.
      destruct (IH s1 Hs1) as (I1 & I2 & I3).
      destruct (exec acts s1) as [s2 e2]. cbn [fst snd app updates] in *.
      split; [|split].
      * constructor; [lia|]. eapply Forall_impl; [|exact I1]. cbn. intros; lia.
      * constructor; [exact I2|].
        eapply Forall_impl; [|exact I1]. cbn. intros; lia.
      * cbn [existsb is_finished orb].
        destruct I3 as [I3 | (pre & Hpre & Hnf)]; [left; exact I3|].
        right. exists (time_updated (remaining s) :: pre).
        rewrite Hpre. split; [reflexivity | exact Hnf].
    + destruct (exec_returned acts s1 Hthr) as [_ Hnone].
      destruct (exec acts s1) as [s2 e2]. cbn [fst snd app updates] in *.
      subst e2. cbn. split; [|split].
      * repeat constructor; lia.
      * repeat constructor.
      * right. exists []. auto.
Qed.

(** X1. Whatever the interleaving of loop passes, pauses and resumes after a
    start with [d >= 0] seconds: the values reported by [time_updated] are
    strictly decreasing and stay between 0 and [d], [remaining] never goes
    below 0, and [timer_finished] is emitted at most once, as the very last
    signal, right after [time_updated 0]. *)
Theorem schedule_trace_shape (d : Z) (s0 : t) (acts : list action) :
  0 <= d ->
  Forall (fun n => 0 <= n <= d) (updates (snd (exec acts (start_timer d s0))))
  /\ StronglySorted Z.gt (updates (snd (exec acts (start_timer d s0))))
  /\ 0 <= remaining (fst (exec acts (start_timer d s0))) <= d
  /\ (finished_count (snd (exec acts (start_timer d s0))) <= 1)%nat
  /\ (existsb is_finished (snd (exec acts (start_timer d s0))) = true ->
      exists pre,
        snd (exec acts (start_timer d s0))
        = pre ++ [time_updated 0; timer_finished]
        /\ existsb is_finished pre = false).
Proof.
  intros Hd.
  assert (Hs : 0 <= remaining (start_timer d s0)) by exact Hd.
  destruct (exec_trace acts _ Hs) as (T1 & T2 & T3).
  destruct (exec_decrements acts _ Hs) as (D1 & D2 & _).
  change (remaining (start_timer d s0)) with d in *.
  split; [exact T1|]. split; [exact T2|]. split; [lia|].
  assert (Hcount : forall l, existsb is_finished l = false ->
                             filter is_finished l = []).
  { induction l as [|x l IHl]; [reflexivity|]. cbn.
    destruct (is_finished x); [discriminate | exact IHl]. }
  split.
  - unfold finished_count.
    destruct T3 as [Hnf | (pre & -> & Hnf)].
    + rewrite (Hcount _ Hnf). cbn. lia.
    + rewrite filter_app, (Hcount _ Hnf). cbn. lia.
  - intros Hf. destruct T3 as [Hnf | Hex]; [congruence | exact Hex].
Qed.

Lemma schedule_trace_shape_witness :
  0 <= 3
  /\ snd (exec [Pass; Pause; Pass; Resume; Pass; Pass; Pass; Pass; Resume]
            (start_timer 3 init))
     = [time_updated 3; time_updated 2; time_updated 1] ++
       [time_updated 0; timer_finished]
  /\ (finished_count
        (snd (exec [Pass; Pause; Pass; Resume; Pass; Pass; Pass; Pass; Resume]
                (start_timer 3 init))) <= 1)%nat.
Proof.
  split; [lia|]. split; [reflexivity|].
  destruct (schedule_trace_shape 3 init
              [Pass; Pause; Pass; Resume; Pass; Pass; Pass; Pass; Resume])
    as (_ & _ & _ & Hcount & _); [lia|]. exact Hcount.
Defined.

End EngineSchedules.

(** ** More on the store *)

Section StoreOperations.

Import DatabaseManager.

(** X3. [create_tables] at a start: a settings table that already has rows
    is left as it is; into an empty one goes the one default row (25, 5, 15,
    4, no auto-start, sound on), under the key after the sequence entry,
    unless the keys are used up, in which case the method raises sqlite3's
    [OperationalError] and nothing is written. When it returns it has
    committed, it has not touched the sessions, [get_settings] finds a row,
    and running it again changes nothing. *)
Theorem create_tables_seeds_once (c : t) :
  let key := Z.max 1 (settings_seq (view c) + 1) in
  (settings_rows (view c) <> [] -> create_tables c = (Ok tt, commit c))
  /\ (settings_rows (view c) = [] -> settings_seq (view c) < 2 ^ 63 - 1 ->
      create_tables c
      = (Ok tt,
         commit (mk (mk_tables (sessions_rows (view c)) (sessions_seq (view c))
                       [settings.mk key 25 5 15 4 0 0 1 default_username] key)
                    (durable c))))
  /\ (settings_rows (view c) = [] -> 2 ^ 63 - 1 <= settings_seq (view c) ->
      create_tables c = (Raise OperationalError, rollback c))
  /\ (forall c',
        create_tables c = (Ok tt, c') ->
        create_tables c' = (Ok tt, c')
        /\ sessions_rows (view c') = sessions_rows (view c)
        /\ get_settings c' <> None
        /\ durable c' = view c').
Proof.
  destruct c as [[ss sq rows sq'] d]. unfold create_tables.
  cbn [view durable settings_rows settings_seq sessions_rows sessions_seq].
  cbv zeta. destruct rows as [|r rows].
  - change (Z.of_nat (List.length (@nil settings.row)) =? 0) with true.
    cbv iota. cbn [map app]. unfold next_id.
    split; [intros H; contradiction|].
    split.
    { intros _ Hseq.
      replace (sqlite_int (Z.max 1 (sq' + 1))) with true
        by (symmetry; apply sqlite_int_bounds; lia).
      reflexivity. }
    split.
    { intros _ Hseq.
      replace (sqlite_int (Z.max 1 (sq' + 1))) with false; [reflexivity|].
      symmetry. destruct (sqlite_int (Z.max 1 (sq' + 1))) eqn:E; [|reflexivity].
      apply sqlite_int_bounds in E. lia. }
    intros c'. destruct (sqlite_int (Z.max 1 (sq' + 1))); [|discriminate].
    intros H. inversion H; subst. cbn. repeat split; discriminate.
  - replace (Z.of_nat (List.length (r :: rows)) =? 0) with false
      by (symmetry; apply Z.eqb_neq; cbn [List.length]; lia).
    split; [reflexivity|]. split; [discriminate|]. split; [discriminate|].
    intros c' H. inversion H; subst. cbn [commit view durable settings_rows].
    replace (Z.of_nat (List.length (r :: rows)) =? 0) with false
      by (symmetry; apply Z.eqb_neq; cbn [List.length]; lia).
    repeat split. unfold get_settings. cbn [view settings_rows].
    intros Hn. apply latest_None in Hn. discriminate.
Qed.

(** X4. With a duration and a completed flag that fit a 64-bit integer,
    [add_session] appends exactly one row, carrying its arguments and the
    clock, under a key larger than every key of the table and than the
    sequence entry, so keys that were distinct stay distinct; it leaves the
    settings alone and commits. That is, as long as there is such a key:
    once the sequence entry or a key of the table is the largest 64-bit
    integer, it raises sqlite3's [OperationalError] and SQLite abandons the
    transaction. With a value that does not fit it raises [OverflowError]
    and the connection is as before. *)
Theorem add_session_appends_fresh_row
    (now : datetime) (ty : string) (dur comp : Z) (task note : string) (c : t) :
  sqlite_int dur = true -> sqlite_int comp = true ->
  let seq := sessions_seq (view c) in
  let ids := map sessions.id (sessions_rows (view c)) in
  let i := next_id seq ids in
  (- 2 ^ 63 <= seq < 2 ^ 63 - 1 -> Forall (fun k => k < 2 ^ 63 - 1) ids ->
   add_session now ty dur comp task note c
   = (Ok tt,
      commit (mk (mk_tables
                    (sessions_rows (view c)
                     ++ [sessions.mk i now ty dur comp task note])
                    i (settings_rows (view c)) (settings_seq (view c)))
                 (durable c)))
   /\ (NoDup ids -> NoDup (ids ++ [i])))
  /\ (2 ^ 63 - 1 <= seq \/ Exists (fun k => 2 ^ 63 - 1 <= k) ids ->
      add_session now ty dur comp task note c
      = (Raise OperationalError, rollback c))
  /\ seq < i
  /\ Forall (fun k => k < i) ids
  /\ (ids = [] -> i = Z.max 1 (seq + 1))
  /\ (forall dur' comp',
        sqlite_int dur' && sqlite_int comp' = false ->
        add_session now ty dur' comp' task note c = (Raise OverflowError, c)).
Proof.
  intros Hd Hc seq ids i.
  destruct (next_id_above seq ids) as [Hseq Hlt]. fold i in Hseq, Hlt.
  split; [|split; [|split; [exact Hseq|split; [exact Hlt|split]]]].
  - intros Hs Hids. unfold add_session. rewrite Hd, Hc. cbn [andb].
    fold seq. fold ids. fold i. unfold i at 1.
    rewrite (next_id_fits seq ids Hs Hids).
    split; [reflexivity|].
    intros Hnd. apply NoDup_app; [exact Hnd | repeat constructor; intros [] |].
    intros x Hx [<-|[]]. rewrite Forall_forall in Hlt. specialize (Hlt _ Hx). lia.
  - intros Hfull. unfold add_session. rewrite Hd, Hc. cbn [andb].
    fold seq. fold ids. rewrite (next_id_full seq ids Hfull). reflexivity.
  - intros ->. reflexivity.
  - intros dur' comp' Hbad. unfold add_session. rewrite Hbad. reflexivity.
Qed.

Lemma add_session_appends_fresh_row_witness :
  sqlite_int 25 = true /\ sqlite_int 1 = true
  /\ - 2 ^ 63 <= sessions_seq (view fresh_store) < 2 ^ 63 - 1
  /\ sessions_rows
       (view (snd (add_session new_year_2024 "work" 25 1 "Write spec" ""
                     fresh_store)))
     = [sessions.mk 1 new_year_2024 "work" 25 1 "Write spec" ""]
  /\ add_session new_year_2024 "work" (2 ^ 63) 1 "Write spec" "" fresh_store
     = (Raise OverflowError, fresh_store).
Proof.
  split; [reflexivity|]. split; [reflexivity|].
  assert (Hs : - 2 ^ 63 <= sessions_seq (view fresh_store) < 2 ^ 63 - 1)
    by (vm_compute; split; [discriminate | reflexivity]).
  split; [exact Hs|].
  destruct (add_session_appends_fresh_row new_year_2024 "work" 25 1
              "Write spec" "" fresh_store eq_refl eq_refl)
    as (Hadd & _ & _ & _ & _ & Hbad).
  destruct (Hadd Hs ltac:(constructor)) as [Hok _].
  split; [rewrite Hok; reflexivity|].
  apply Hbad. reflexivity.
Defined.

(** *** Reading the sessions back *)

Lemma insert_desc_perm (r : sessions.row) (l : list sessions.row) :
  Permutation (insert_desc r l) (r :: l).
Proof.
  induction l as [|x l IH]; cbn; [reflexivity|].
  destruct (sessions.date x <=? sessions.date r); [reflexivity|].
  rewrite IH. apply perm_swap.
Qed.

Lemma order_by_date_desc_perm (l : list sessions.row) :
  Permutation (order_by_date_desc l) l.
Proof.
  induction l as [|x l IH]; cbn; [constructor|].
  rewrite insert_desc_perm. constructor. exact IH.
Qed.

Lemma insert_desc_sorted (r : sessions.row) (l : list sessions.row) :
  StronglySorted (fun a b => sessions.date b <= sessions.date a) l ->
  StronglySorted (fun a b => sessions.date b <= sessions.date a)
    (insert_desc r l).
Proof.
  induction 1 as [|x l Hs IH Hall]; cbn; [repeat constructor|].
  destruct (sessions.date x <=? sessions.date r) eqn:E.
  - apply Z.leb_le in E. constructor; [constructor; assumption|].
    constructor; [exact E|].
    eapply Forall_impl; [|exact Hall]. cbn. intros; lia.
  - apply Z.leb_gt in E. constructor; [exact IH|].
    apply Forall_forall. intros y Hy.
    apply (Permutation_in _ (insert_desc_perm r l)) in Hy.
    destruct Hy as [<-|Hy]; [lia|].
    rewrite Forall_forall in Hall. apply Hall. exact Hy.
Qed.

Lemma order_by_date_desc_sorted (l : list sessions.row) :
  StronglySorted (fun a b => sessions.date b <= sessions.date a)
    (order_by_date_desc l).
Proof.
  induction l as [|x l IH]; cbn; [constructor|].
  apply insert_desc_sorted. exact IH.
Qed.

(** X5. [get_sessions] raises [OverflowError] when the start of its window,
    [days] days before [now], is no datetime. Otherwise it returns exactly
    the sessions whose date is not before that start, each as often as it is
    stored, newest first. *)
Theorem get_sessions_newest_first (now : datetime) (days : Z) (c : t) :
  let limit := now - days * 86400000000 in
  (limit < 0 \/ 315537897599999999 < limit ->
   get_sessions now days c = Raise OverflowError)
  /\ (0 <= limit <= 315537897599999999 ->
      exists l,
        get_sessions now days c = Ok l
        /\ Permutation l
             (filter (fun r => limit <=? sessions.date r) (sessions_rows (view c)))
        /\ StronglySorted (fun a b => sessions.date b <= sessions.date a) l
        /\ (forall r, In r l <->
                      In r (sessions_rows (view c)) /\ limit <= sessions.date r)).
Proof.
  intros limit. unfold get_sessions.
  destruct (days_before now days) as [l0|e] eqn:E.
  - apply days_before_Ok in E. fold limit in E. destruct E as [-> Hin].
    split; [intros Hout; lia|]. intros _.
    eexists. split; [reflexivity|].
    split; [apply order_by_date_desc_perm|].
    split; [apply order_by_date_desc_sorted|].
    intros r. split.
    + intros Hr. apply (Permutation_in _ (order_by_date_desc_perm _)) in Hr.
      apply filter_In in Hr. rewrite Z.leb_le in Hr. exact Hr.
    + intros [Hr Hw].
      apply (Permutation_in _ (Permutation_sym (order_by_date_desc_perm _))).
      apply filter_In. rewrite Z.leb_le. auto.
  - apply days_before_Raise in E. fold limit in E. destruct E as [-> Hout].
    split; [reflexivity | intros Hin; lia].
Qed.

Example get_sessions_sample :
  let older := sessions.mk 1 (new_year_2024 - 5) "work" 25 1 "" "" in
  let newer := sessions.mk 2 (new_year_2024 - 3) "short_break" 5 1 "" "" in
  let c := mk (mk_tables [older; newer] 2 [] 0) (mk_tables [older; newer] 2 [] 0) in
  get_sessions new_year_2024 30 c = Ok [newer; older]
  /\ get_sessions new_year_2024 1000000 c = Raise OverflowError.
Proof. cbv zeta. split; vm_compute; reflexivity. Qed.

(** X6. A session added at time [now], the store having a key for it, is
    returned by every later [get_sessions] whose window has a start and
    reaches back to [now], with the type, duration, completed flag and task
    it was given; on a history that was empty it is the only row
    returned. *)
Theorem add_session_then_get_sessions
    (now later : datetime) (days : Z) (ty : string) (dur comp : Z)
    (task note : string) (c : t) :
  sqlite_int dur = true -> sqlite_int comp = true ->
  - 2 ^ 63 <= sessions_seq (view c) < 2 ^ 63 - 1 ->
  Forall (fun r => sessions.id r < 2 ^ 63 - 1) (sessions_rows (view c)) ->
  0 <= later - days * 86400000000 <= 315537897599999999 ->
  later - days * 86400000000 <= now ->
  exists i l,
    get_sessions later days (snd (add_session now ty dur comp task note c)) = Ok l
    /\ In (sessions.mk i now ty dur comp task note) l
    /\ (sessions_rows (view c) = [] ->
        i = Z.max 1 (sessions_seq (view c) + 1)
        /\ l = [sessions.mk i now ty dur comp task note]).
Proof.
  intros Hd Hc Hseq Hids Hrange Hw.
  unfold add_session. rewrite Hd, Hc. cbn [andb].
  rewrite (next_id_fits _ _ Hseq (proj2 (Forall_map _ _ _) Hids)). cbn [snd].
  exists (next_id (sessions_seq (view c)) (map sessions.id (sessions_rows (view c)))).
  unfold get_sessions.
  destruct (days_before later days) as [l0|e] eqn:E;
    [|apply days_before_Raise in E; lia].
  apply days_before_Ok in E. destruct E as [-> _].
  eexists. split; [reflexivity|]. cbn [view commit sessions_rows]. split.
  - apply (Permutation_in _ (Permutation_sym (order_by_date_desc_perm _))).
    apply filter_In. split; [apply in_or_app; right; left; reflexivity|].
    cbn [sessions.date]. apply Z.leb_le. exact Hw.
  - intros Hempty. rewrite Hempty. cbn [map next_id app filter sessions.date].
    replace (later - days * 86400000000 <=? now) with true
      by (symmetry; apply Z.leb_le; exact Hw).
    split; reflexivity.
Qed.

Lemma add_session_then_get_sessions_witness :
  sqlite_int 25 = true /\ sqlite_int 1 = true
  /\ 0 <= (new_year_2024 + 100) - 30 * 86400000000 <= 315537897599999999
  /\ (new_year_2024 + 100) - 30 * 86400000000 <= new_year_2024
  /\ get_sessions (new_year_2024 + 100) 30
       (snd (add_session new_year_2024 "work" 25 1 "Write spec" "" fresh_store))
     = Ok [sessions.mk 1 new_year_2024 "work" 25 1 "Write spec" ""].
Proof.
  split; [reflexivity|]. split; [reflexivity|].
  assert (Hr : 0 <= (new_year_2024 + 100) - 30 * 86400000000 <= 315537897599999999)
    by (vm_compute; split; discriminate).
  assert (Hw : (new_year_2024 + 100) - 30 * 86400000000 <= new_year_2024)
    by (vm_compute; discriminate).
  split; [exact Hr|]. split; [exact Hw|].
  destruct (add_session_then_get_sessions new_year_2024 (new_year_2024 + 100) 30
              "work" 25 1 "Write spec" "" fresh_store eq_refl eq_refl
              ltac:(vm_compute; split; [discriminate | reflexivity])
              ltac:(constructor) Hr Hw)
    as (i & l & Hget & _ & Hone).
  destruct (Hone eq_refl) as [-> ->]. exact Hget.
Defined.

(** X7. Given keyword arguments that are plain names, none of them giving
    text to an [INTEGER] column, [update_settings] runs statements the model
    covers and, whether it returns or raises, never touches the sessions,
    never adds or removes a settings row, and only rewrites rows under the
    key of the row [get_settings] returned: every other settings row is left
    as it is. *)
Theorem update_settings_touches_latest_only
    (kwargs : list (string * value)) (c : t) (current : settings.row) :
  Forall (fun kw => covered kw = true) kwargs ->
  get_settings c = Some current ->
  fst (update_settings kwargs c) <> Raise OutsideModel
  /\ sessions_rows (view (snd (update_settings kwargs c))) = sessions_rows (view c)
  /\ List.length (settings_rows (view (snd (update_settings kwargs c))))
     = List.length (settings_rows (view c))
  /\ exists G,
       settings_rows (view (snd (update_settings kwargs c)))
       = map G (settings_rows (view c))
       /\ forall r, settings.id r <> settings.id current -> G r = r.
Proof.
  intros Hall Hcur. split; [exact (update_settings_covered kwargs c Hall)|].
  unfold update_settings. rewrite Hcur.
  destruct (execute_updates kwargs (settings.id current) (view c)) as [o tb'] eqn:E.
  apply execute_updates_shape in E. destruct E as (S1 & _ & _ & G & HG & Hfix).
  assert (Hview : view (snd (match o with
                             | Ok _ => (Ok tt, commit (mk tb' (durable c)))
                             | Raise e => (Raise e, mk tb' (durable c))
                             end)) = tb') by (destruct o; reflexivity).
  rewrite Hview. split; [exact S1|].
  split; [rewrite HG; apply length_map|].
  exists G. auto.
Qed.

Lemma update_settings_touches_latest_only_witness :
  let older := settings.mk 1 25 5 15 4 0 0 1 "first" in
  let newer := settings.mk 2 30 5 15 4 0 0 1 "second" in
  let c := mk (mk_tables [] 0 [older; newer] 2) (mk_tables [] 0 [older; newer] 2) in
  Forall (fun kw => covered kw = true)
    [("work_duration", VInt 50); ("bogus", VInt 1)]
  /\ get_settings c = Some newer
  /\ settings_rows
       (view (snd (update_settings
                     [("work_duration", VInt 50); ("bogus", VInt 1)] c)))
     = [older; settings.mk 2 50 5 15 4 0 0 1 "second"].
Proof.
  cbv zeta.
  assert (Hplain : Forall (fun kw : string * value => covered kw = true)
                     [("work_duration", VInt 50); ("bogus", VInt 1)])
    by (repeat constructor).
  split; [exact Hplain|]. split; [reflexivity|].
  destruct (update_settings_touches_latest_only
              [("work_duration", VInt 50); ("bogus", VInt 1)]
              (mk (mk_tables [] 0 [settings.mk 1 25 5 15 4 0 0 1 "first";
                                   settings.mk 2 30 5 15 4 0 0 1 "second"] 2)
                  (mk_tables [] 0 [settings.mk 1 25 5 15 4 0 0 1 "first";
                                   settings.mk 2 30 5 15 4 0 0 1 "second"] 2))
              (settings.mk 2 30 5 15 4 0 0 1 "second") Hplain eq_refl)
    as (_ & _ & _ & G & HG & Hfix).
  rewrite HG. cbn [map view settings_rows].
  rewrite (Hfix (settings.mk 1 25 5 15 4 0 0 1 "first")) by (cbn; lia).
  f_equal. vm_compute in HG. congruence.
Defined.

(** *** Several fields in one call *)

Lemma written_app (pre post : list (string * value)) (col : column) :
  forall old,
    written (pre ++ post) col old = written post col (written pre col old).
Proof.
  induction pre as [|[key v] pre IH]; intros old; [reflexivity|].
  cbn. apply IH.
Qed.

Lemma written_not_named (kwargs : list (string * value)) (col : column) :
  forall old,
    (forall key v, In (key, v) kwargs -> column_of_name key <> Some col) ->
    written kwargs col old = old.
Proof.
  induction kwargs as [|[key v] kwargs IH]; intros old Hn; [reflexivity|].
  cbn. rewrite IH by (intros k' v' Hin; apply (Hn k' v'); right; exact Hin).
  specialize (Hn key v (or_introl eq_refl)).
  destruct (column_of_name key) as [c0|]; [|reflexivity].
  destruct (column_eqb c0 col) eqn:E; [|reflexivity].
  apply column_eqb_eq in E. congruence.
Qed.

Lemma written_fixes (kwargs : list (string * value)) (col : column) :
  (forall old, written kwargs col old = old)
  \/ (exists v, forall old, written kwargs col old = v).
Proof.
  induction kwargs as [|[key v] kwargs IH]; [left; reflexivity|].
  cbn. destruct IH as [Hid | (v0 & Hc)].
  - destruct (column_of_name key) as [c0|]; [|left; intros; apply Hid].
    destruct (column_eqb c0 col).
    + right. exists v. intros. apply Hid.
    + left. intros. apply Hid.
  - right. exists v0. intros. apply Hc.
Qed.

Lemma cell_ext (r1 r2 : settings.row) :
  (forall col, cell col r1 = cell col r2) -> r1 = r2.
Proof.
  intros H. destruct r1, r2.
  pose proof (H c_id) as H0. pose proof (H c_work_duration) as H1.
  pose proof (H c_short_break) as H2. pose proof (H c_long_break) as H3.
  pose proof (H c_long_break_interval) as H4.
  pose proof (H c_auto_start_breaks) as H5.
  pose proof (H c_auto_start_work) as H6.
  pose proof (H c_sound_enabled) as H7. pose proof (H c_username) as H8.
  cbn in *. congruence.
Qed.

(** X8. Given any number of settings fields with values of their kinds,
    [update_settings] succeeds and commits; in the row [get_settings] then
    returns, a field named takes the value given to it last, and every
    column not named keeps what it held. Making the same call again changes
    nothing. *)
Theorem update_settings_several_fields
    (kwargs : list (string * value)) (c : t) (row : settings.row) :
  get_settings c = Some row ->
  forallb assignable kwargs = true ->
  fst (update_settings kwargs c) = Ok tt
  /\ durable (snd (update_settings kwargs c))
     = view (snd (update_settings kwargs c))
  /\ exists row',
       get_settings (snd (update_settings kwargs c)) = Some row'
       /\ (forall col,
             (forall key v, In (key, v) kwargs -> column_of_name key <> Some col) ->
             cell col row' = cell col row)
       /\ (forall pre key v post col,
             kwargs = pre ++ (key, v) :: post ->
             column_of_name key = Some col ->
             (forall k' v', In (k', v') post -> column_of_name k' <> Some col) ->
             cell col row' = v)
       /\ get_settings (snd (update_settings kwargs (snd (update_settings kwargs c))))
          = Some row'.
Proof.
  intros Hrow Hall.
  destruct (update_settings_assignable kwargs c row Hrow Hall)
    as (c' & row' & Hup & Hget & Hcells & _ & Hdur).
  destruct (update_settings_assignable kwargs c' row' Hget Hall)
    as (c'' & row'' & Hup' & Hget' & Hcells' & _ & _).
  rewrite Hup. cbn [fst snd]. rewrite Hup'. cbn [snd].
  split; [reflexivity|]. split; [exact Hdur|].
  exists row'. split; [exact Hget|]. split; [|split].
  - intros col Hn. rewrite Hcells. apply written_not_named. exact Hn.
  - intros pre key v post col -> Hcol Hn. rewrite Hcells, written_app.
    cbn [written]. rewrite Hcol, (proj2 (column_eqb_eq col col) eq_refl).
    apply written_not_named. exact Hn.
  - rewrite Hget'. f_equal. apply cell_ext. intros col.
    rewrite Hcells', Hcells.
    destruct (written_fixes kwargs col) as [Hid | (v0 & Hc)].
    + rewrite !Hid. reflexivity.
    + rewrite !Hc. reflexivity.
Qed.

Lemma update_settings_several_fields_witness :
  let kwargs := [("work_duration", VInt 50); ("username", VText "Ada");
                 ("WORK_DURATION", VInt 45)] in
  get_settings fresh_store = Some (settings.mk 1 25 5 15 4 0 0 1 default_username)
  /\ forallb assignable kwargs = true
  /\ get_settings (snd (update_settings kwargs fresh_store))
     = Some (settings.mk 1 45 5 15 4 0 0 1 "Ada")
  /\ get_settings (snd (update_settings kwargs
                          (snd (update_settings kwargs fresh_store))))
     = get_settings (snd (update_settings kwargs fresh_store)).
Proof.
  cbv zeta. split; [reflexivity|]. split; [reflexivity|].
  destruct (update_settings_several_fields
              [("work_duration", VInt 50); ("username", VText "Ada");
               ("WORK_DURATION", VInt 45)]
              fresh_store
              (settings.mk 1 25 5 15 4 0 0 1 default_username) eq_refl eq_refl)
    as (_ & _ & row' & Hget & _ & _ & Hagain).
  split; [reflexivity|]. rewrite Hagain, Hget. reflexivity.
Defined.

(** *** Counting sessions *)

Lemma In_nonempty {A : Type} (x : A) (l : list A) :
  In x l -> (1 <= List.length l)%nat.
Proof. destruct l; [intros [] | cbn; lia]. Qed.

Lemma sum_map_perm {A : Type} (f : A -> Z) (l l' : list A) :
  Permutation l l' -> sum (map f l) = sum (map f l').
Proof.
  induction 1 as [|x l l' Hp IH|x y l|l l' l'' H1 IH1 H2 IH2];
    cbn [map]; rewrite ?sum_cons; lia.
Qed.

Lemma map_eq_Forall {A B : Type} (f g : A -> B) (l : list A) :
  map f l = map g l -> Forall (fun x => f x = g x) l.
Proof.
  induction l as [|x l IH]; intros H; constructor.
  - cbn in H. injection H as H _. exact H.
  - apply IH. cbn in H. injection H as _ H. exact H.
Qed.

(** X9. On each row of a [get_daily_stats] that returns, [total_sessions]
    is the number of sessions of that day in the window, at least 1, and
    [completed_sessions] the number of those with [completed = 1], so
    between 0 and the total. Over the rows the two columns add up to the
    number of sessions, and of completed sessions, in the window. *)
Theorem get_daily_stats_counts (now : datetime) (days : Z) (c : t)
    (stats : list daily) :
  get_daily_stats now days c = Ok stats ->
  let window r := now - days * 86400000000 <=? sessions.date r in
  let on_day d r := day_eqb (sql_date (sessions.date r)) d in
  Forall (fun row =>
            total_sessions row
            = Z.of_nat (List.length
                (filter (fun r => window r && on_day (day row) r)
                   (sessions_rows (view c))))
            /\ completed_sessions row
               = Z.of_nat (List.length
                   (filter (fun r => window r && on_day (day row) r
                                     && (sessions.completed r =? 1))
                      (sessions_rows (view c))))
            /\ 1 <= total_sessions row
            /\ 0 <= completed_sessions row <= total_sessions row) stats
  /\ sum (map total_sessions stats)
     = Z.of_nat (List.length (filter window (sessions_rows (view c))))
  /\ sum (map completed_sessions stats)
     = Z.of_nat (List.length
         (filter (fun r => window r && (sessions.completed r =? 1))
            (sessions_rows (view c)))).
Proof.
  intros Hok window on_day.
  destruct (get_daily_stats_rows now days c stats Hok)
    as (_ & Hdays & Htotal & Hcomp & _).
  fold window in Hdays, Htotal, Hcomp.
  set (selected := filter window (sessions_rows (view c))) in *.
  split; [|split].
  - assert (Hin : forall row, In row stats -> In (day row) (group_days selected))
      by (intros row Hrow; rewrite <- Hdays; apply in_map; exact Hrow).
    rewrite <- Hdays, map_map in Htotal, Hcomp.
    apply map_eq_Forall in Htotal. apply map_eq_Forall in Hcomp.
    rewrite Forall_forall in *. intros row Hrow.
    rewrite (Htotal row Hrow), (Hcomp row Hrow), sum_count.
    unfold selected. rewrite !filter_filter. subst on_day. cbv beta.
    split; [reflexivity|]. split; [reflexivity|].
    specialize (Hin row Hrow). apply group_days_In in Hin.
    destruct Hin as (r & Hr & Hday).
    assert (Hmem : In r (filter (fun r0 => window r0
                                           && day_eqb (sql_date (sessions.date r0))
                                                (day row))
                           (sessions_rows (view c)))).
    { unfold selected in Hr. apply filter_In in Hr. apply filter_In.
      split; [tauto|]. rewrite (proj2 Hr). cbn. apply day_eqb_eq. exact Hday. }
    split.
    + apply In_nonempty in Hmem. lia.
    + rewrite <- (filter_filter (fun r0 => sessions.completed r0 =? 1)
                    (fun r0 => window r0
                               && day_eqb (sql_date (sessions.date r0)) (day row))).
      pose proof (filter_shorter (fun r0 => sessions.completed r0 =? 1)
                    (filter (fun r0 => window r0
                                       && day_eqb (sql_date (sessions.date r0))
                                            (day row))
                       (sessions_rows (view c)))).
      lia.
  - rewrite Htotal, <- (sum_ones selected), <- daily_column_total.
    f_equal. apply map_ext. intros d. symmetry. apply sum_ones.
  - rewrite Hcomp, daily_column_total, sum_count. unfold selected.
    rewrite filter_filter. reflexivity.
Qed.

Lemma get_daily_stats_counts_witness :
  let one := sessions.mk 1 (new_year_2024 - 5) "work" 25 1 "" "" in
  let two := sessions.mk 2 (new_year_2024 - 3) "short_break" 5 0 "" "" in
  let c := mk (mk_tables [one; two] 2 [] 0) (mk_tables [one; two] 2 [] 0) in
  get_daily_stats new_year_2024 7 c = Ok [mk_daily (Some 738884) 2 1 25]
  /\ sum (map total_sessions [mk_daily (Some 738884) 2 1 25]) = 2.
Proof.
  cbv zeta.
  assert (Hok : get_daily_stats new_year_2024 7
                  (mk (mk_tables [sessions.mk 1 (new_year_2024 - 5) "work" 25 1 "" "";
                                  sessions.mk 2 (new_year_2024 - 3) "short_break" 5 0 "" ""]
                         2 [] 0)
                      (mk_tables [sessions.mk 1 (new_year_2024 - 5) "work" 25 1 "" "";
                                  sessions.mk 2 (new_year_2024 - 3) "short_break" 5 0 "" ""]
                         2 [] 0))
                = Ok [mk_daily (Some 738884) 2 1 25])
    by (vm_compute; reflexivity).
  split; [exact Hok|].
  destruct (get_daily_stats_counts _ _ _ _ Hok) as (_ & Htotal & _).
  rewrite Htotal. vm_compute. reflexivity.
Defined.

(** X10. When both return, the three numbers of the profile tab agree with
    the daily statistics taken over the same thirty days at the same
    moment: total sessions, completed sessions and work minutes each equal
    the sum of that column over the days; and the completed sessions never
    exceed the total. The profile's numbers are there whenever the window
    has a start; the statistics can fail besides, on a sum that
    overflows. *)
Theorem profile_agrees_with_daily_stats (now : datetime) (a : PomodoroApp.t)
    (stats : list daily) :
  get_daily_stats now 30 (PomodoroApp.db_manager a) = Ok stats ->
  exists p,
    PomodoroApp.update_profile_stats now a = Ok p
    /\ PomodoroApp.total_sessions p = sum (map total_sessions stats)
    /\ PomodoroApp.completed_sessions p = sum (map completed_sessions stats)
    /\ PomodoroApp.total_work_time p = sum (map work_minutes stats)
    /\ 0 <= PomodoroApp.completed_sessions p <= PomodoroApp.total_sessions p.
Proof.
  intros Hok.
  destruct (get_daily_stats_rows now 30 (PomodoroApp.db_manager a) stats Hok)
    as (Hrange & _ & Htotal & Hcomp & Hwork).
  unfold PomodoroApp.update_profile_stats, get_sessions.
  destruct (days_before now 30) as [l0|e] eqn:E;
    [|apply days_before_Raise in E; lia].
  apply days_before_Ok in E. destruct E as [-> _].
  set (selected := filter _ (sessions_rows (view (PomodoroApp.db_manager a)))) in *.
  pose proof (order_by_date_desc_perm selected) as Hperm.
  eexists. split; [reflexivity|].
  cbn [PomodoroApp.total_sessions PomodoroApp.completed_sessions
       PomodoroApp.total_work_time].
  rewrite Htotal, Hcomp, Hwork.
  split; [|split; [|split]].
  - rewrite (Permutation_length Hperm), <- (sum_ones selected), <- daily_column_total.
    f_equal. apply map_ext. intros d. rewrite sum_ones. reflexivity.
  - rewrite daily_column_total, <- !sum_count. apply sum_map_perm. exact Hperm.
  - rewrite daily_column_total, <- !sum_map_if. apply sum_map_perm. exact Hperm.
  - pose proof (filter_shorter (fun s => sessions.completed s =? 1)
                  (order_by_date_desc selected)). lia.
Qed.

Lemma profile_agrees_with_daily_stats_witness :
  let one := sessions.mk 1 (new_year_2024 - 5) "work" 25 1 "" "" in
  let two := sessions.mk 2 (new_year_2024 - 3) "short_break" 5 0 "" "" in
  let c := mk (mk_tables [one; two] 2 [] 0) (mk_tables [one; two] 2 [] 0) in
  let a := PomodoroApp.mk c TimerThread.init 0 "work" false
             25 5 15 4 false false true "" in
  get_daily_stats new_year_2024 30 c = Ok [mk_daily (Some 738884) 2 1 25]
  /\ PomodoroApp.update_profile_stats new_year_2024 a
     = Ok (PomodoroApp.mk_profile 2 1 25).
Proof.
  cbv zeta.
  set (c := mk (mk_tables [sessions.mk 1 (new_year_2024 - 5) "work" 25 1 "" "";
                           sessions.mk 2 (new_year_2024 - 3) "short_break" 5 0 "" ""]
                  2 [] 0)
               (mk_tables [sessions.mk 1 (new_year_2024 - 5) "work" 25 1 "" "";
                           sessions.mk 2 (new_year_2024 - 3) "short_break" 5 0 "" ""]
                  2 [] 0)).
  assert (Hok : get_daily_stats new_year_2024 30 c
                = Ok [mk_daily (Some 738884) 2 1 25])
    by (vm_compute; reflexivity).
  split; [exact Hok|].
  destruct (profile_agrees_with_daily_stats new_year_2024
              (PomodoroApp.mk c TimerThread.init 0 "work" false
                 25 5 15 4 false false true "")
              _ Hok) as (p & Hp & _).
  rewrite Hp. vm_compute in Hp. injection Hp as <-. reflexivity.
Defined.

End StoreOperations.

(** ** The statistics charts *)

Section Charts.

Import DatabaseManager StatisticsWidget.

Lemma count_of_count_type (ty k : string) (h : list (string * Z)) :
  count_of k (count_type ty h)
  = count_of k h + (if (ty =? k)%string then 1 else 0).
Proof.
  induction h as [|[k0 n] h IH]; cbn.
  - destruct (ty =? k)%string; lia.
  - destruct (k0 =? ty)%string eqn:E0; cbn.
    + apply String.eqb_eq in E0. subst k0.
      destruct (ty =? k)%string; lia.
    + destruct (k0 =? k)%string eqn:E1; [|exact IH].
      apply String.eqb_eq in E1. subst k0. rewrite String.eqb_sym, E0. lia.
Qed.

Lemma count_type_keys (ty : string) (h : list (string * Z)) :
  (In ty (map fst h) -> map fst (count_type ty h) = map fst h)
  /\ (~ In ty (map fst h) -> map fst (count_type ty h) = map fst h ++ [ty]).
Proof.
  induction h as [|[k0 n] h [IH1 IH2]]; cbn.
  - split; [intros [] | reflexivity].
  - destruct (k0 =? ty)%string eqn:E0; cbn.
    + apply String.eqb_eq in E0. subst. split; [reflexivity | intros H; tauto].
    + apply String.eqb_neq in E0. split.
      * intros [H|H]; [contradiction|]. rewrite IH1 by exact H. reflexivity.
      * intros H. rewrite IH2 by tauto. reflexivity.
Qed.

Lemma count_type_sum (ty : string) (h : list (string * Z)) :
  sum (map snd (count_type ty h)) = sum (map snd h) + 1.
Proof.
  induction h as [|[k0 n] h IH]; cbn [count_type]; [reflexivity|].
  destruct (k0 =? ty)%string; cbn [map snd]; rewrite !sum_cons; [lia|].
  rewrite IH. lia.
Qed.

Lemma count_type_positive (ty : string) (h : list (string * Z)) :
  Forall (fun e => 1 <= snd e) h ->
  Forall (fun e => 1 <= snd e) (count_type ty h).
Proof.
  induction 1 as [|[k0 n] h Hn Hall IH]; cbn [count_type].
  - repeat constructor. cbn. lia.
  - destruct (k0 =? ty)%string; constructor; cbn in *; auto; lia.
Qed.

Lemma count_of_entry (h : list (string * Z)) (k : string) (n : Z) :
  NoDup (map fst h) -> In (k, n) h -> count_of k h = n.
Proof.
  induction h as [|[k0 n0] h IH]; intros Hnd Hin; [destruct Hin|].
  inversion Hnd as [|? ? Hnin Hnd']; subst. cbn.
  destruct Hin as [Heq|Hin].
  - inversion Heq; subst. rewrite String.eqb_refl. reflexivity.
  - destruct (k0 =? k)%string eqn:E; [|apply IH; assumption].
    apply String.eqb_eq in E. subst. exfalso. apply Hnin.
    apply in_map_iff. exists (k, n). auto.
Qed.

(** What the counting loop has built after the sessions [l], starting from
    the dictionary [acc]. *)
Lemma session_types_loop (l : list sessions.row) :
  forall acc,
    let h := fold_left (fun counts s => count_type (sessions.session_type s) counts)
               l acc in
    (NoDup (map fst acc) -> NoDup (map fst h))
    /\ (forall k, count_of k h
                  = count_of k acc
                    + Z.of_nat (List.length
                        (filter (fun s => (sessions.session_type s =? k)%string) l)))
    /\ (forall k, In k (map fst h) <->
                  In k (map fst acc)
                  \/ exists s, In s l /\ sessions.session_type s = k)
    /\ sum (map snd h) = sum (map snd acc) + Z.of_nat (List.length l)
    /\ (Forall (fun e => 1 <= snd e) acc -> Forall (fun e => 1 <= snd e) h).
Proof.
  induction l as [|s l IH]; intros acc; cbn [fold_left].
  - cbv zeta. cbn. repeat split; auto; try lia.
    intros [H|(s & [] & _)]; exact H.
  - destruct (IH (count_type (sessions.session_type s) acc))
      as (I1 & I2 & I3 & I4 & I5).
    destruct (count_type_keys (sessions.session_type s) acc) as [K1 K2].
    cbv zeta. split; [|split; [|split; [|split]]].
    + intros Hnd. apply I1.
      destruct (in_dec string_dec (sessions.session_type s) (map fst acc)) as [Hin|Hnin].
      * rewrite K1 by exact Hin. exact Hnd.
      * rewrite K2 by exact Hnin. apply NoDup_app; [exact Hnd | repeat constructor; intros [] |].
        intros x Hx [<-|[]]. contradiction.
    + intros k. rewrite I2, count_of_count_type. cbn [filter].
      destruct (sessions.session_type s =? k)%string; cbn [List.length]; lia.
    + intros k. rewrite I3.
      destruct (in_dec string_dec (sessions.session_type s) (map fst acc)) as [Hin|Hnin].
      * rewrite K1 by exact Hin. split.
        -- intros [H|(s' & Hs' & Hk)]; [left; exact H | right; exists s'; cbn; auto].
        -- intros [H|(s' & [<-|Hs'] & Hk)];
             [left; exact H | left; subst; exact Hin | right; exists s'; auto].
      * rewrite K2 by exact Hnin. rewrite in_app_iff. cbn [In]. split.
        -- intros [[H|[H|[]]]|(s' & Hs' & Hk)];
             [left; exact H | right; exists s; cbn; auto | right; exists s'; cbn; auto].
        -- intros [H|(s' & [<-|Hs'] & Hk)];
             [left; left; exact H | left; right; left; exact Hk | right; exists s'; auto].
    + rewrite I4, count_type_sum. cbn [List.length]. lia.
    + intros Hpos. apply I5, count_type_positive. exact Hpos.
Qed.

(** X11. The session type counts of the fourth chart: each type that occurs
    among the sessions has exactly one entry, no other type has one, an
    entry's count is the number of sessions of its type (so at least 1), and
    the counts add up to the number of sessions. *)
Theorem session_types_counts (l : list sessions.row) :
  let occurrences ty :=
    Z.of_nat (List.length
                (filter (fun s => (sessions.session_type s =? ty)%string) l)) in
  NoDup (map fst (session_types l))
  /\ (forall ty, In ty (map fst (session_types l)) <->
                 exists s, In s l /\ sessions.session_type s = ty)
  /\ Forall (fun e => snd e = occurrences (fst e) /\ 1 <= snd e) (session_types l)
  /\ (forall ty, count_of ty (session_types l) = occurrences ty)
  /\ sum (map snd (session_types l)) = Z.of_nat (List.length l).
Proof.
  cbv zeta. unfold session_types.
  destruct (session_types_loop l []) as (I1 & I2 & I3 & I4 & I5).
  cbv zeta in *. cbn [map count_of] in *.
  assert (Hnd := I1 (NoDup_nil _)).
  assert (Hpos := I5 (Forall_nil _)).
  split; [exact Hnd|]. split.
  { intros ty. rewrite I3. cbn. tauto. }
  split.
  { rewrite Forall_forall in *. intros [k n] Hin. cbn [fst snd].
    split; [|exact (Hpos _ Hin)].
    rewrite <- (count_of_entry _ k n Hnd Hin), I2. lia. }
  split; [intros ty; rewrite I2; lia|].
  rewrite I4. cbn. lia.
Qed.

(** X12. [update_charts] runs its two queries first, and raises what either
    raises, the sessions query first. When both return, the data it hands to
    its plotting calls is this: the pie and the session type chart are given
    data exactly when the 30-day window holds a session, and the daily bars
    and the trend line exactly when the 7-day statistics hold a row. The two
    parts of the pie are not negative and add
    up to the number of sessions in the window, as do the sizes of the type
    chart, which has one size per label; bars and trend line share their
    dates. *)
Theorem update_charts_data (now1 now2 : datetime) (c : t) :
  (forall e, get_sessions now1 30 c = Raise e ->
             update_charts now1 now2 c = Raise e)
  /\ (forall sessions e,
        get_sessions now1 30 c = Ok sessions ->
        get_daily_stats now2 7 c = Raise e ->
        update_charts now1 now2 c = Raise e)
  /\ (forall sessions stats,
        get_sessions now1 30 c = Ok sessions ->
        get_daily_stats now2 7 c = Ok stats ->
        exists ch,
          update_charts now1 now2 c = Ok ch
          /\ (sessions = [] -> completion ch = None /\ type_distribution ch = None)
          /\ (sessions <> [] ->
              exists completed incomplete labels sizes,
                completion ch = Some (completed, incomplete)
                /\ type_distribution ch = Some (labels, sizes)
                /\ 0 <= completed /\ 0 <= incomplete
                /\ completed + incomplete = Z.of_nat (List.length sessions)
                /\ List.length labels = List.length sizes
                /\ sum sizes = Z.of_nat (List.length sessions))
          /\ (stats = [] -> daily_work ch = None /\ weekly_trend ch = None)
          /\ (stats <> [] ->
              daily_work ch = Some (map day stats, map work_minutes stats)
              /\ weekly_trend ch
                 = Some (map day stats, map completed_sessions stats))).
Proof.
  unfold update_charts.
  split; [intros e ->; reflexivity|].
  split; [intros sessions e -> ->; reflexivity|].
  intros sessions stats -> ->. eexists. split; [reflexivity|].
  unfold chart_data. cbv zeta.
  cbn [completion type_distribution daily_work weekly_trend].
  split; [intros ->; auto|]. split.
  - intros Hne. destruct sessions as [|s l] eqn:E; [contradiction|].
    rewrite <- E.
    exists (Z.of_nat (List.length
                        (filter (fun s0 => sessions.completed s0 =? 1) sessions))).
    eexists. eexists. eexists.
    split; [reflexivity|]. split; [reflexivity|].
    pose proof (filter_shorter (fun s0 => sessions.completed s0 =? 1) sessions).
    destruct (session_types_loop sessions []) as (_ & _ & _ & I4 & _).
    cbv zeta in I4. fold (session_types sessions) in I4.
    rewrite !length_map, I4. cbn. repeat split; lia.
  - split; [intros ->; auto|].
    intros Hne. destruct stats as [|r l]; [contradiction|].
    auto.
Qed.

End Charts.

(** ** The controller at work *)

Section ControllerOperations.

Import DatabaseManager.

Ltac split_ifs :=
  repeat match goal with
         | |- context [if ?b then _ else _] => destruct b eqn:?
         end.

Lemma update_settings_rows (kwargs : list (string * value)) (c : t) :
  sessions_rows (view (snd (update_settings kwargs c))) = sessions_rows (view c)
  /\ List.length (settings_rows (view (snd (update_settings kwargs c))))
     = List.length (settings_rows (view c)).
Proof.
  unfold update_settings. destruct (get_settings c) as [row|]; [|cbn; auto].
  destruct (execute_updates kwargs (settings.id row) (view c)) as [o tb'] eqn:E.
  apply execute_updates_shape in E. destruct E as (S1 & _ & _ & G & HG & _).
  destruct o; cbn [snd view commit]; rewrite HG, length_map; auto.
Qed.

(** What one event does to the history, the counter, the session type and
    the store of a consistent state. *)
Lemma step_effect (e : Process.event) (w w' : Process.t) :
  Process.consistent (Process.app w) ->
  Process.possible e = true ->
  Process.step e w = Some w' ->
  exists l,
    PomodoroApp.history (Process.app w') = PomodoroApp.history (Process.app w) ++ l
    /\ Forall (fun r => sessions.completed r = 1
                        /\ sessions.session_type r
                           = PomodoroApp.session_type (Process.app w)) l
    /\ (List.length l <= 1)%nat
    /\ PomodoroApp.current_session (Process.app w')
       = PomodoroApp.current_session (Process.app w)
         + Z.of_nat (List.length
             (filter (fun r => (sessions.session_type r =? "work")%string) l))
    /\ (PomodoroApp.known_type (PomodoroApp.session_type (Process.app w)) ->
        PomodoroApp.known_type (PomodoroApp.session_type (Process.app w')))
    /\ List.length (settings_rows (view (PomodoroApp.db_manager (Process.app w'))))
       = List.length (settings_rows (view (PomodoroApp.db_manager (Process.app w)))).
Proof.
  intros Hc Hp Hstep.
  assert (Hsame : forall a' : PomodoroApp.t,
            PomodoroApp.db_manager a' = PomodoroApp.db_manager (Process.app w) ->
            PomodoroApp.current_session a'
            = PomodoroApp.current_session (Process.app w) ->
            PomodoroApp.session_type a' = PomodoroApp.session_type (Process.app w) ->
            exists l,
              PomodoroApp.history a' = PomodoroApp.history (Process.app w) ++ l
              /\ Forall (fun r => sessions.completed r = 1
                                  /\ sessions.session_type r
                                     = PomodoroApp.session_type (Process.app w)) l
              /\ (List.length l <= 1)%nat
              /\ PomodoroApp.current_session a'
                 = PomodoroApp.current_session (Process.app w)
                   + Z.of_nat (List.length
                       (filter (fun r => (sessions.session_type r =? "work")%string) l))
              /\ (PomodoroApp.known_type (PomodoroApp.session_type (Process.app w)) ->
                  PomodoroApp.known_type (PomodoroApp.session_type a'))
              /\ List.length (settings_rows (view (PomodoroApp.db_manager a')))
                 = List.length
                     (settings_rows (view (PomodoroApp.db_manager (Process.app w))))).
  { intros a' Hdb Hcs Hty. exists []. unfold PomodoroApp.history.
    rewrite Hdb, Hcs, Hty, app_nil_r. cbn. repeat split; auto; lia. }
  destruct e; cbn in Hstep.
  - (* ThreadPass *)
    destruct (TimerThread.isRunning _); [destruct (TimerThread.loop_pass _)|];
      inversion Hstep; subst; cbn [Process.app]; apply Hsame; reflexivity.
  - (* Deliver *)
    destruct (Process.pending w) as [|[n|] rest]; [discriminate| |].
    + inversion Hstep; subst. apply Hsame; reflexivity.
    + destruct Hc as (_ & _ & Hfit & _).
      destruct (timer_finished_effect now shown (Process.app w) Hfit)
        as [Hok Hfull].
      cbv zeta in Hok, Hfull.
      destruct (sqlite_int
                  (next_id (sessions_seq (view (PomodoroApp.db_manager (Process.app w))))
                     (map sessions.id (PomodoroApp.history (Process.app w)))));
        [|rewrite (Hfull eq_refl) in Hstep; discriminate Hstep].
      destruct (Hok eq_refl) as (Hdb & _ & Hcs & Hty & _).
      destruct (PomodoroApp.timer_finished now shown (Process.app w))
        as [[[]|ex] a']; [|discriminate].
      inversion Hstep; subst. cbn [Process.app fst snd] in *.
      eexists. unfold PomodoroApp.history at 1. rewrite Hdb.
      cbn [view commit sessions_rows settings_rows durable].
      split; [reflexivity|]. split; [repeat constructor|].
      split; [cbn; lia|]. split; [|split; [|reflexivity]].
      * rewrite Hcs. cbn [filter sessions.session_type].
        destruct (PomodoroApp.session_type (Process.app w) =? "work")%string;
          reflexivity.
      * intros _. rewrite Hty. unfold PomodoroApp.known_type. split_ifs; auto.
  - (* ClickStart *)
    inversion Hstep; subst. cbn [Process.app]. apply Hsame;
      unfold PomodoroApp.start_timer; split_ifs; reflexivity.
  - (* ClickPause *)
    inversion Hstep; subst. cbn [Process.app]. apply Hsame;
      unfold PomodoroApp.pause_timer; split_ifs; reflexivity.
  - (* ClickReset *)
    inversion Hstep; subst. cbn [Process.app]. apply Hsame; reflexivity.
  - (* Settings *)
    destruct dialog as [d|]; cbn in Hstep;
      [|inversion Hstep; subst; apply Hsame; reflexivity].
    cbn in Hp. unfold SettingsDialog.save_settings in Hstep.
    destruct Hc as (_ & Hne & _).
    destruct (get_settings (PomodoroApp.db_manager (Process.app w))) as [row|] eqn:Erow;
      [|apply latest_None in Erow; contradiction].
    destruct (update_settings_assignable (SettingsDialog.kwargs d) _ row Erow
                (dialog_kwargs_assignable d Hp))
      as (c' & row' & Hup & Hget & _ & Hsess & Hdur).
    destruct (update_settings_rows (SettingsDialog.kwargs d)
                (PomodoroApp.db_manager (Process.app w))) as [_ Hlen].
    rewrite Hup in Hstep, Hlen. cbn [snd] in Hlen.
    unfold PomodoroApp.load_settings in Hstep.
    cbn [PomodoroApp.db_manager PomodoroApp.with_db] in Hstep.
    rewrite Hget in Hstep.
    destruct (PomodoroApp.profile_repaint now _) as [[]|ex]; [|discriminate].
    inversion Hstep; subst. cbn [Process.app].
    exists []. unfold PomodoroApp.history.
    cbn [PomodoroApp.db_manager PomodoroApp.current_session
         PomodoroApp.session_type PomodoroApp.with_db].
    rewrite Hsess, app_nil_r. cbn. repeat split; auto; lia.
  - (* EditTask *)
    inversion Hstep; subst. cbn [Process.app]. apply Hsame; reflexivity.
Qed.

Lemma steps_reachable (es : list Process.event) :
  forall w w', Process.reachable w -> Process.steps es w = Some w' ->
               Process.reachable w'.
Proof.
  induction es as [|e es IH]; intros w w' Hr Hs; cbn in Hs.
  - inversion Hs; subst. exact Hr.
  - destruct (Process.possible e) eqn:Ep; [|discriminate].
    destruct (Process.step e w) as [w1|] eqn:E1; [|discriminate].
    apply (IH w1 w'); [|exact Hs].
    exact (Process.reachable_step w w1 e Hr Ep E1).
Qed.

(** The effect of a sequence of events, accumulated. *)
Lemma steps_effect (es : list Process.event) :
  forall w w',
    Process.reachable w ->
    PomodoroApp.known_type (PomodoroApp.session_type (Process.app w)) ->
    Process.steps es w = Some w' ->
    exists l,
      PomodoroApp.history (Process.app w') = PomodoroApp.history (Process.app w) ++ l
      /\ Forall (fun r => sessions.completed r = 1
                          /\ PomodoroApp.known_type (sessions.session_type r)) l
      /\ (List.length l <= List.length es)%nat
      /\ PomodoroApp.current_session (Process.app w')
         = PomodoroApp.current_session (Process.app w)
           + Z.of_nat (List.length
               (filter (fun r => (sessions.session_type r =? "work")%string) l))
      /\ PomodoroApp.known_type (PomodoroApp.session_type (Process.app w'))
      /\ List.length (settings_rows (view (PomodoroApp.db_manager (Process.app w'))))
         = List.length (settings_rows (view (PomodoroApp.db_manager (Process.app w)))).
Proof.
  induction es as [|e es IH]; intros w w' Hr Hk Hs; cbn in Hs.
  - inversion Hs; subst. exists []. rewrite app_nil_r. cbn.
    repeat split; auto; lia.
  - destruct (Process.possible e) eqn:Ep; [|discriminate].
    destruct (Process.step e w) as [w1|] eqn:E1; [|discriminate].
    destruct (step_effect e w w1 (reachable_consistent w Hr) Ep E1)
      as (l1 & H1 & F1 & L1 & C1 & K1 & N1).
    destruct (IH w1 w' (Process.reachable_step w w1 e Hr Ep E1) (K1 Hk) Hs)
      as (l2 & H2 & F2 & L2 & C2 & K2 & N2).
    exists (l1 ++ l2). rewrite H2, H1, app_assoc.
    split; [reflexivity|]. split.
    { apply Forall_app. split; [|exact F2].
      eapply Forall_impl; [|exact F1]. cbn. intros r [Hcomp Hty].
      split; [exact Hcomp | rewrite Hty; exact Hk]. }
    split; [rewrite length_app; cbn; lia|].
    split; [rewrite C2, C1, filter_app, length_app; lia|].
    split; [exact K2 | congruence].
Qed.

(** The application as its constructor leaves it. *)
Lemma init_state (shown : PomodoroApp.clock) (disk : tables) (a : PomodoroApp.t) :
  PomodoroApp.init shown disk = Ok a ->
  PomodoroApp.history a = sessions_rows disk
  /\ PomodoroApp.current_session a = 0
  /\ PomodoroApp.session_type a = "work"
  /\ List.length (settings_rows (view (PomodoroApp.db_manager a)))
     = Nat.max 1 (List.length (settings_rows disk)).
Proof.
  unfold PomodoroApp.init. intros H.
  destruct (create_tables (mk disk disk)) as [[[]|e] c] eqn:Ec; [|discriminate].
  destruct (create_tables_seeds disk c Ec) as (_ & _ & Hs & _ & Hlen & _).
  destruct (PomodoroApp.charts_repaint shown c); [|discriminate].
  unfold PomodoroApp.load_settings in H.
  cbn [PomodoroApp.db_manager] in H.
  destruct (PomodoroApp.profile_repaint _ _) as [[]|ex]; [|discriminate].
  inversion H; subst.
  destruct (get_settings c) as [r|]; unfold PomodoroApp.history; cbn; auto.
Qed.

Lemma boot_state (shown : PomodoroApp.clock) (disk : tables) (w : Process.t) :
  Process.on_disk disk = true ->
  Process.boot shown disk = Some w ->
  Process.reachable w
  /\ PomodoroApp.history (Process.app w) = sessions_rows disk
  /\ PomodoroApp.current_session (Process.app w) = 0
  /\ PomodoroApp.session_type (Process.app w) = "work"
  /\ List.length (settings_rows (view (PomodoroApp.db_manager (Process.app w))))
     = Nat.max 1 (List.length (settings_rows disk)).
Proof.
  unfold Process.boot. intros Hd H.
  destruct (PomodoroApp.init shown disk) as [a|e] eqn:E; [|discriminate].
  inversion H; subst. cbn [Process.app].
  split; [exact (Process.reachable_init shown disk a Hd E)|].
  exact (init_state shown disk a E).
Qed.

Lemma reachable_known_type (w : Process.t) :
  Process.reachable w ->
  PomodoroApp.known_type (PomodoroApp.session_type (Process.app w)).
Proof.
  induction 1 as [shown disk a Hd Hi | w w' e Hr IH Hp Hs].
  - left. apply (init_state shown disk a Hi).
  - destruct (step_effect e w w' (reachable_consistent w Hr) Hp Hs)
      as (l & _ & _ & _ & _ & K & _). exact (K IH).
Qed.

(** A run used by the examples: from the first start, the dialog sets a
    work session of one minute, which is started, counted down and
    delivered. *)
Lemma sample_run :
  exists w0 w,
    Process.boot at_new_year_2024 empty_file = Some w0
    /\ Process.steps
         ([Process.Settings (Some (SettingsDialog.mk "Ada" 1 5 15 4 false false true))
             new_year_2024;
           Process.ClickStart]
          ++ repeat Process.ThreadPass 61
          ++ repeat (Process.Deliver new_year_2024 at_new_year_2024) 62) w0
       = Some w
    /\ PomodoroApp.history (Process.app w)
       = [sessions.mk 1 new_year_2024 "work" 1 1 "" ""]
    /\ PomodoroApp.current_session (Process.app w) = 1
    /\ PomodoroApp.session_type (Process.app w) = "short_break"
    /\ List.length (settings_rows (view (PomodoroApp.db_manager (Process.app w))))
       = 1%nat.
Proof.
  destruct (Process.boot at_new_year_2024 empty_file) as [w0|] eqn:E0;
    [|vm_compute in E0; discriminate E0].
  vm_compute in E0. injection E0 as <-.
  eexists. eexists. split; [reflexivity|].
  split; [vm_compute; reflexivity|].
  repeat split.
Qed.

(** X13. The session history only grows. From any reachable state, whatever
    events follow (passes of the timer thread, deliveries of its signals,
    clicks on start, pause and reset, the settings dialog, edits of the task
    field), the history afterwards is the history before with rows added at
    the end: no row is changed or removed, every added row has
    [completed = 1], and no more rows are added than events happened. *)
Theorem history_only_grows (w w' : Process.t) (es : list Process.event) :
  Process.reachable w ->
  Process.steps es w = Some w' ->
  exists added,
    PomodoroApp.history (Process.app w')
    = PomodoroApp.history (Process.app w) ++ added
    /\ Forall (fun r => sessions.completed r = 1) added
    /\ (List.length added <= List.length es)%nat.
Proof.
  intros Hr Hs.
  destruct (steps_effect es w w' Hr (reachable_known_type w Hr) Hs)
    as (l & H1 & F1 & L1 & _).
  exists l. split; [exact H1|]. split; [|exact L1].
  eapply Forall_impl; [|exact F1]. cbn. tauto.
Qed.

Lemma history_only_grows_witness :
  exists w0 w,
    Process.reachable w0
    /\ Process.steps
         ([Process.Settings (Some (SettingsDialog.mk "Ada" 1 5 15 4 false false true))
             new_year_2024;
           Process.ClickStart]
          ++ repeat Process.ThreadPass 61
          ++ repeat (Process.Deliver new_year_2024 at_new_year_2024) 62) w0
       = Some w
    /\ PomodoroApp.history (Process.app w0) = []
    /\ PomodoroApp.history (Process.app w)
       = [sessions.mk 1 new_year_2024 "work" 1 1 "" ""].
Proof.
  destruct sample_run as (w0 & w & Hboot & Hsteps & Hh & _).
  destruct (boot_state at_new_year_2024 empty_file w0 eq_refl Hboot) as (Hr & Hh0 & _).
  exists w0, w. split; [exact Hr|]. split; [exact Hsteps|].
  split; [exact Hh0|].
  destruct (history_only_grows w0 w _ Hr Hsteps) as (added & Hadd & _ & _).
  rewrite Hadd, Hh0 in Hh. cbn [app] in Hh.
  rewrite Hadd, Hh0, Hh. reflexivity.
Defined.

(** X14. From the start of the application on any database file, the
    history is what the file held followed by the rows written since, the
    session counter equals the number of [work] rows among those, and the
    session type, like the type of every row written, is one of [work],
    [short_break] and [long_break]. *)
Theorem counter_counts_work_rows
    (shown : PomodoroApp.clock) (disk : tables) (es : list Process.event)
    (w0 w : Process.t) :
  Process.on_disk disk = true ->
  Process.boot shown disk = Some w0 ->
  Process.steps es w0 = Some w ->
  exists written,
    PomodoroApp.history (Process.app w) = sessions_rows disk ++ written
    /\ PomodoroApp.current_session (Process.app w)
       = Z.of_nat (List.length
           (filter (fun r => (sessions.session_type r =? "work")%string) written))
    /\ Forall (fun r => PomodoroApp.known_type (sessions.session_type r)) written
    /\ PomodoroApp.known_type (PomodoroApp.session_type (Process.app w)).
Proof.
  intros Hd Hb Hs.
  destruct (boot_state shown disk w0 Hd Hb) as (Hr & Hh & Hc & _).
  destruct (steps_effect es _ w Hr (reachable_known_type _ Hr) Hs)
    as (l & H1 & F1 & _ & C1 & K1 & _).
  exists l. rewrite H1, Hh, C1, Hc.
  split; [reflexivity|]. split; [reflexivity|]. split; [|exact K1].
  eapply Forall_impl; [|exact F1]. cbn. tauto.
Qed.

Lemma counter_counts_work_rows_witness :
  Process.on_disk empty_file = true
  /\ exists w0 w,
       Process.boot at_new_year_2024 empty_file = Some w0
       /\ Process.steps
            ([Process.Settings
                (Some (SettingsDialog.mk "Ada" 1 5 15 4 false false true))
                new_year_2024;
              Process.ClickStart]
             ++ repeat Process.ThreadPass 61
             ++ repeat (Process.Deliver new_year_2024 at_new_year_2024) 62) w0
          = Some w
       /\ PomodoroApp.current_session (Process.app w) = 1
       /\ PomodoroApp.known_type (PomodoroApp.session_type (Process.app w)).
Proof.
  split; [reflexivity|].
  destruct sample_run as (w0 & w & Hboot & Hsteps & _ & Hcs & _).
  exists w0, w. split; [exact Hboot|]. split; [exact Hsteps|].
  split; [exact Hcs|].
  destruct (counter_counts_work_rows at_new_year_2024 empty_file _ w0 w
              eq_refl Hboot Hsteps)
    as (written & _ & _ & _ & Hk).
  exact Hk.
Defined.

(** X15. The store of the running application: from the start on any
    database file there is always a settings row for [get_settings] to
    return, the number of settings rows never changes (one, when the file
    had none), and nothing is ever left uncommitted: what the connection
    sees is what is saved. *)
Theorem store_stays_committed
    (shown : PomodoroApp.clock) (disk : tables) (es : list Process.event)
    (w0 w : Process.t) :
  Process.on_disk disk = true ->
  Process.boot shown disk = Some w0 ->
  Process.steps es w0 = Some w ->
  durable (PomodoroApp.db_manager (Process.app w))
  = view (PomodoroApp.db_manager (Process.app w))
  /\ List.length (settings_rows (view (PomodoroApp.db_manager (Process.app w))))
     = Nat.max 1 (List.length (settings_rows disk))
  /\ get_settings (PomodoroApp.db_manager (Process.app w)) <> None.
Proof.
  intros Hd Hb Hs.
  destruct (boot_state shown disk w0 Hd Hb) as (Hr & _ & _ & _ & Hlen).
  pose proof (reachable_consistent w (steps_reachable es w0 w Hr Hs))
    as (_ & Hne & _ & Hdur).
  destruct (steps_effect es _ w Hr (reachable_known_type _ Hr) Hs)
    as (_ & _ & _ & _ & _ & _ & N1).
  split; [exact Hdur|]. split; [congruence|].
  intros Hnone. apply latest_None in Hnone. contradiction.
Qed.

Lemma store_stays_committed_witness :
  Process.on_disk empty_file = true
  /\ exists w0 w,
       Process.boot at_new_year_2024 empty_file = Some w0
       /\ Process.steps
            ([Process.Settings
                (Some (SettingsDialog.mk "Ada" 1 5 15 4 false false true))
                new_year_2024;
              Process.ClickStart]
             ++ repeat Process.ThreadPass 61
             ++ repeat (Process.Deliver new_year_2024 at_new_year_2024) 62) w0
          = Some w
       /\ List.length
            (settings_rows (view (PomodoroApp.db_manager (Process.app w))))
          = 1%nat.
Proof.
  split; [reflexivity|].
  destruct sample_run as (w0 & w & Hboot & Hsteps & _).
  exists w0, w. split; [exact Hboot|]. split; [exact Hsteps|].
  destruct (store_stays_committed at_new_year_2024 empty_file _ w0 w
              eq_refl Hboot Hsteps)
    as (_ & Hlen & _).
  rewrite Hlen. reflexivity.
Defined.

(** *** The settings dialog *)

Lemma py_bool_b2z (b : bool) : PomodoroApp.py_bool (Z.b2z b) = b.
Proof. destruct b; reflexivity. Qed.

Lemma profile_repaint_returns (now : datetime) (a : PomodoroApp.t) :
  0 <= now - 30 * 86400000000 <= 315537897599999999 ->
  PomodoroApp.profile_repaint now a = Ok tt.
Proof.
  intros Hin.
  unfold PomodoroApp.profile_repaint, PomodoroApp.update_profile_stats, get_sessions.
  destruct (days_before now 30) as [l|e] eqn:E; [reflexivity|].
  apply days_before_Raise in E. lia.
Qed.

(** X16. Accepting the settings dialog in any reachable state never raises
    while it saves and reloads: it stores the contents of the dialog in the
    settings row, flags as 0 or 1, commits, and reloads the cache, so that
    the cached durations, interval and flags are exactly what the dialog
    held; the session type, the counter, the engine, the history and the
    task field are untouched. In particular a countdown in progress is not
    restarted. The call returns as the repaint of the profile that ends the
    reload does, which is without error whenever the clock stands thirty
    days or more after [datetime.min]. *)
Theorem settings_dialog_round_trip
    (w : Process.t) (d : SettingsDialog.t) (now : datetime) :
  Process.reachable w ->
  SettingsDialog.in_range d = true ->
  exists a' row',
    PomodoroApp.open_settings now (Some d) (Process.app w)
    = (PomodoroApp.profile_repaint now a', a')
    /\ (0 <= now - 30 * 86400000000 <= 315537897599999999 ->
        PomodoroApp.open_settings now (Some d) (Process.app w) = (Ok tt, a'))
    /\ get_settings (PomodoroApp.db_manager a') = Some row'
    /\ settings.username row' = SettingsDialog.username_edit d
    /\ settings.work_duration row' = SettingsDialog.work_spin d
    /\ settings.short_break row' = SettingsDialog.short_break_spin d
    /\ settings.long_break row' = SettingsDialog.long_break_spin d
    /\ settings.long_break_interval row' = SettingsDialog.long_break_interval_spin d
    /\ settings.auto_start_breaks row' = Z.b2z (SettingsDialog.auto_start_breaks_check d)
    /\ settings.auto_start_work row' = Z.b2z (SettingsDialog.auto_start_work_check d)
    /\ settings.sound_enabled row' = Z.b2z (SettingsDialog.sound_enabled_check d)
    /\ PomodoroApp.work_duration a' = SettingsDialog.work_spin d
    /\ PomodoroApp.short_break_duration a' = SettingsDialog.short_break_spin d
    /\ PomodoroApp.long_break_duration a' = SettingsDialog.long_break_spin d
    /\ PomodoroApp.long_break_interval a' = SettingsDialog.long_break_interval_spin d
    /\ PomodoroApp.auto_start_breaks a' = SettingsDialog.auto_start_breaks_check d
    /\ PomodoroApp.auto_start_work a' = SettingsDialog.auto_start_work_check d
    /\ PomodoroApp.sound_enabled a' = SettingsDialog.sound_enabled_check d
    /\ PomodoroApp.session_type a' = PomodoroApp.session_type (Process.app w)
    /\ PomodoroApp.current_session a' = PomodoroApp.current_session (Process.app w)
    /\ PomodoroApp.timer_thread a' = PomodoroApp.timer_thread (Process.app w)
    /\ PomodoroApp.is_running a' = PomodoroApp.is_running (Process.app w)
    /\ PomodoroApp.task_input a' = PomodoroApp.task_input (Process.app w)
    /\ PomodoroApp.history a' = PomodoroApp.history (Process.app w)
    /\ durable (PomodoroApp.db_manager a') = view (PomodoroApp.db_manager a').
Proof.
  intros Hr Hd. destruct (reachable_consistent w Hr) as (_ & Hne & _).
  destruct (get_settings (PomodoroApp.db_manager (Process.app w))) as [row|] eqn:Erow;
    [|apply latest_None in Erow; contradiction].
  destruct (update_settings_assignable (SettingsDialog.kwargs d) _ row Erow
              (dialog_kwargs_assignable d Hd))
    as (c' & row' & Hup & Hget & Hcells & Hsess & Hdur).
  unfold PomodoroApp.open_settings, SettingsDialog.save_settings. rewrite Hup.
  unfold PomodoroApp.load_settings.
  cbn [PomodoroApp.db_manager PomodoroApp.with_db]. rewrite Hget.
  eexists. exists row'. split; [reflexivity|].
  split; [intros Hin; rewrite (profile_repaint_returns now _ Hin); reflexivity|].
  pose proof (Hcells c_username) as H0. pose proof (Hcells c_work_duration) as H1.
  pose proof (Hcells c_short_break) as H2. pose proof (Hcells c_long_break) as H3.
  pose proof (Hcells c_long_break_interval) as H4.
  pose proof (Hcells c_auto_start_breaks) as H5.
  pose proof (Hcells c_auto_start_work) as H6.
  pose proof (Hcells c_sound_enabled) as H7.
  cbn in H0, H1, H2, H3, H4, H5, H6, H7.
  injection H0 as H0. injection H1 as H1. injection H2 as H2. injection H3 as H3.
  injection H4 as H4. injection H5 as H5. injection H6 as H6. injection H7 as H7.
  unfold PomodoroApp.history. cbn. rewrite H5, H6, H7, !py_bool_b2z.
  repeat split; assumption.
Qed.

Lemma settings_dialog_round_trip_witness :
  let d := SettingsDialog.mk "Ada" 50 10 20 3 true false true in
  exists w a',
    Process.boot at_new_year_2024 empty_file = Some w
    /\ Process.reachable w /\ SettingsDialog.in_range d = true
    /\ PomodoroApp.open_settings new_year_2024 (Some d) (Process.app w) = (Ok tt, a')
    /\ get_settings (PomodoroApp.db_manager a')
       = Some (settings.mk 1 50 10 20 3 1 0 1 "Ada")
    /\ PomodoroApp.auto_start_breaks a' = true.
Proof.
  cbv zeta.
  destruct (Process.boot at_new_year_2024 empty_file) as [w|] eqn:E;
    [|vm_compute in E; discriminate E].
  destruct (boot_state at_new_year_2024 empty_file w eq_refl E) as (Hr & _).
  destruct (settings_dialog_round_trip w
              (SettingsDialog.mk "Ada" 50 10 20 3 true false true)
              new_year_2024 Hr eq_refl)
    as (a' & row' & _ & Hopen & Hget & _ & _ & _ & _ & _ & _ & _ & _ & _ & _ & _
        & _ & Hab & _).
  specialize (Hopen ltac:(vm_compute; split; discriminate)).
  exists w, a'. split; [reflexivity|]. split; [exact Hr|].
  split; [reflexivity|]. split; [exact Hopen|]. split; [|exact Hab].
  vm_compute in E. injection E as <-.
  vm_compute in Hopen. injection Hopen as <-. reflexivity.
Defined.

(** *** When completing a session raises *)

(** X17. A [work] session that completes while the cached long-break
    interval is 0 makes [timer_finished] raise [ZeroDivisionError] at the
    modulo, the store having had a key for the row. By then the session row
    has been written and committed and the counter has gone up, while the
    session type has not moved on, no countdown has been started and the
    statistics have not been repainted. Once the settings dialog has been
    accepted the interval lies between 2 and 10. *)
Theorem completion_raises_on_zero_interval
    (w : Process.t) (now : datetime) (shown : PomodoroApp.clock) :
  Process.reachable w ->
  PomodoroApp.session_type (Process.app w) = "work" ->
  PomodoroApp.long_break_interval (Process.app w) = 0 ->
  - 2 ^ 63 <= sessions_seq (view (PomodoroApp.db_manager (Process.app w)))
  < 2 ^ 63 - 1 ->
  Forall (fun r => sessions.id r < 2 ^ 63 - 1) (PomodoroApp.history (Process.app w)) ->
  let a' := snd (PomodoroApp.timer_finished now shown (Process.app w)) in
  fst (PomodoroApp.timer_finished now shown (Process.app w))
  = Raise ZeroDivisionError
  /\ (exists r,
        PomodoroApp.history a' = PomodoroApp.history (Process.app w) ++ [r]
        /\ sessions.session_type r = "work"
        /\ sessions.completed r = 1
        /\ sessions_rows (durable (PomodoroApp.db_manager a'))
           = PomodoroApp.history (Process.app w) ++ [r])
  /\ PomodoroApp.current_session a'
     = PomodoroApp.current_session (Process.app w) + 1
  /\ PomodoroApp.session_type a' = "work"
  /\ PomodoroApp.is_running a' = false
  /\ PomodoroApp.timer_thread a' = PomodoroApp.timer_thread (Process.app w)
  /\ (forall d edit,
        SettingsDialog.in_range d = true ->
        2 <= PomodoroApp.long_break_interval
               (snd (PomodoroApp.open_settings edit (Some d) (Process.app w)))
        <= 10).
Proof.
  intros Hr Hwork Hzero Hseq Hids. cbv zeta.
  pose proof (reachable_consistent w Hr) as Hc.
  pose proof Hc as (_ & _ & Hfit & _).
  pose proof (next_id_fits _ _ Hseq (proj2 (Forall_map _ _ _) Hids)) as Hkey.
  split; [|split; [|split; [|split; [|split; [|split]]]]].
  - destruct (timer_finished_effect now shown _ Hfit) as [Heff _].
    destruct (Heff Hkey) as (_ & Hfst & _).
    rewrite Hfst, Hwork, Hzero. reflexivity.
  - destruct (timer_finished_effect now shown _ Hfit) as [Heff _].
    destruct (Heff Hkey) as (Hdb & _).
    eexists. unfold PomodoroApp.history at 1. rewrite Hdb. cbn.
    rewrite Hwork. auto.
  - destruct (timer_finished_effect now shown _ Hfit) as [Heff _].
    destruct (Heff Hkey) as (_ & _ & Hcs & _).
    rewrite Hcs, Hwork. reflexivity.
  - destruct (timer_finished_effect now shown _ Hfit) as [Heff _].
    destruct (Heff Hkey) as (_ & _ & _ & Hst & _).
    rewrite Hst, Hwork, Hzero. reflexivity.
  - apply get_current_duration_fit in Hfit.
    unfold PomodoroApp.timer_finished, add_session.
    change (PomodoroApp.get_current_duration
              (PomodoroApp.with_is_running false (Process.app w)))
      with (PomodoroApp.get_current_duration (Process.app w)).
    rewrite Hfit. change (sqlite_int 1) with true. cbn [andb].
    unfold PomodoroApp.history in Hkey.
    cbn [PomodoroApp.db_manager PomodoroApp.with_is_running]. rewrite Hkey.
    unfold PomodoroApp.move_to_next_session.
    cbn [PomodoroApp.session_type PomodoroApp.with_db PomodoroApp.with_is_running
         PomodoroApp.with_current_session PomodoroApp.long_break_interval].
    rewrite Hwork, Hzero. reflexivity.
  - apply get_current_duration_fit in Hfit.
    unfold PomodoroApp.timer_finished, add_session.
    change (PomodoroApp.get_current_duration
              (PomodoroApp.with_is_running false (Process.app w)))
      with (PomodoroApp.get_current_duration (Process.app w)).
    rewrite Hfit. change (sqlite_int 1) with true. cbn [andb].
    unfold PomodoroApp.history in Hkey.
    cbn [PomodoroApp.db_manager PomodoroApp.with_is_running]. rewrite Hkey.
    unfold PomodoroApp.move_to_next_session.
    cbn [PomodoroApp.session_type PomodoroApp.with_db PomodoroApp.with_is_running
         PomodoroApp.with_current_session PomodoroApp.long_break_interval].
    rewrite Hwork, Hzero. reflexivity.
  - intros d edit Hd.
    destruct (open_settings_accepted edit d _ Hc Hd)
      as (a2 & Hopen & _ & _ & _ & Hi & _).
    rewrite Hopen. cbn [snd]. rewrite Hi.
    unfold SettingsDialog.in_range in Hd. rewrite !andb_true_iff, !Z.leb_le in Hd.
    lia.
Qed.

Lemma completion_raises_on_zero_interval_witness :
  let disk := mk_tables [] 0 [settings.mk 1 25 5 15 0 0 0 1 "x"] 1 in
  exists w,
    Process.boot at_new_year_2024 disk = Some w
    /\ Process.reachable w
    /\ PomodoroApp.session_type (Process.app w) = "work"
    /\ PomodoroApp.long_break_interval (Process.app w) = 0
    /\ fst (PomodoroApp.timer_finished new_year_2024 at_new_year_2024 (Process.app w))
       = Raise ZeroDivisionError
    /\ List.length
         (PomodoroApp.history
            (snd (PomodoroApp.timer_finished new_year_2024 at_new_year_2024
                    (Process.app w)))) = 1%nat.
Proof.
  cbv zeta.
  set (disk := mk_tables [] 0 [settings.mk 1 25 5 15 0 0 0 1 "x"] 1).
  destruct (Process.boot at_new_year_2024 disk) as [w|] eqn:E;
    [|vm_compute in E; discriminate E].
  destruct (boot_state at_new_year_2024 disk w eq_refl E)
    as (Hr & Hh & _ & Hty & _).
  assert (Hi : PomodoroApp.long_break_interval (Process.app w) = 0)
    by (vm_compute in E; injection E as <-; reflexivity).
  assert (Hs : sessions_seq (view (PomodoroApp.db_manager (Process.app w))) = 0)
    by (vm_compute in E; injection E as <-; reflexivity).
  destruct (completion_raises_on_zero_interval w new_year_2024 at_new_year_2024
              Hr Hty Hi)
    as (Hraise & (r & Hrow & _) & _);
    [rewrite Hs; lia | rewrite Hh; constructor |].
  exists w. split; [reflexivity|]. split; [exact Hr|]. split; [exact Hty|].
  split; [exact Hi|]. split; [exact Hraise|].
  rewrite Hrow, Hh. reflexivity.
Defined.

(** *** Starting the next session *)



(** *** Reset and pause *)



(** X20. [pause_timer] is a toggle that only works during a session: with
    the controller idle it does nothing; with it running, it flips the
    engine's pause flag and nothing else, so that pausing and resuming a
    running countdown gives back the state it had, with the same time
    remaining. [start_timer] on a paused countdown resumes it the same
    way. *)
Theorem pause_timer_toggles (a : PomodoroApp.t) :
  (PomodoroApp.is_running a = false -> PomodoroApp.pause_timer a = a)
  /\ (PomodoroApp.is_running a = true ->
      PomodoroApp.pause_timer a
      = PomodoroApp.with_timer
          (TimerThread.mk
             (TimerThread.duration (PomodoroApp.timer_thread a))
             (TimerThread.remaining (PomodoroApp.timer_thread a))
             (TimerThread.is_running (PomodoroApp.timer_thread a))
             (negb (TimerThread.is_paused (PomodoroApp.timer_thread a)))
             (TimerThread.isRunning (PomodoroApp.timer_thread a))) a
      /\ PomodoroApp.pause_timer (PomodoroApp.pause_timer a) = a
      /\ (TimerThread.is_paused (PomodoroApp.timer_thread a) = true ->
          PomodoroApp.start_timer a = PomodoroApp.pause_timer a)).
Proof.
  destruct a as [db [d r run p thr] cs ty running wd sd ld li ab aw se task].
  cbn. split; intros ->; [reflexivity|].
  destruct p; cbn; repeat split; try (intros H; discriminate H); reflexivity.
Qed.

End ControllerOperations.

(** ** The time label *)

Section Display.

Lemma below_hundred (z : Z) :
  0 <= z < 100 -> In z (map Z.of_nat (seq 0 100)).
Proof.
  intros Hz. apply in_map_iff. exists (Z.to_nat z).
  split; [lia|]. apply in_seq. lia.
Qed.

Lemma format_02d_length (z : Z) :
  0 <= z < 100 -> String.length (PomodoroApp.format_02d z) = 2%nat.
Proof.
  intros Hz.
  assert (Hall : forallb (fun x => (String.length (PomodoroApp.format_02d x) =? 2)%nat)
                   (map Z.of_nat (seq 0 100)) = true) by (vm_compute; reflexivity).
  rewrite forallb_forall in Hall. apply Nat.eqb_eq, Hall, below_hundred, Hz.
Qed.

Lemma format_02d_injective (x y : Z) :
  0 <= x < 100 -> 0 <= y < 100 ->
  PomodoroApp.format_02d x = PomodoroApp.format_02d y -> x = y.
Proof.
  intros Hx Hy Heq.
  assert (Hall : forallb (fun a =>
                   forallb (fun b =>
                     implb (PomodoroApp.format_02d a =? PomodoroApp.format_02d b)%string
                           (a =? b))
                     (map Z.of_nat (seq 0 100)))
                   (map Z.of_nat (seq 0 100)) = true) by (vm_compute; reflexivity).
  rewrite forallb_forall in Hall. specialize (Hall x (below_hundred x Hx)).
  rewrite forallb_forall in Hall. specialize (Hall y (below_hundred y Hy)).
  rewrite Heq, String.eqb_refl in Hall. cbn in Hall. apply Z.eqb_eq. exact Hall.
Qed.

Lemma append_same_length (a a' b b' : string) :
  String.length a = String.length a' ->
  (a ++ b)%string = (a' ++ b')%string -> a = a' /\ b = b'.
Proof.
  revert a'. induction a as [|c a IH]; intros [|c' a'] Hlen Heq;
    try discriminate Hlen.
  - auto.
  - cbn in Heq. injection Heq as Hc Heq. injection Hlen as Hlen.
    destruct (IH a' Hlen Heq) as [-> ->]. subst. auto.
Qed.

Lemma append_length (a b : string) :
  String.length (a ++ b)%string = (String.length a + String.length b)%nat.
Proof. induction a as [|c a IH]; cbn; [reflexivity | rewrite IH; reflexivity]. Qed.

(** X22. For a remaining time below 100 minutes, the time label is five
    characters, two digits of minutes, a colon and two digits of seconds,
    and two different remaining times never get the same label. *)
Theorem time_label_is_faithful (s1 s2 : Z) :
  0 <= s1 < 6000 -> 0 <= s2 < 6000 ->
  String.length (PomodoroApp.time_label s1) = 5%nat
  /\ String.get 2 (PomodoroApp.time_label s1) = Some ":"%char
  /\ (PomodoroApp.time_label s1 = PomodoroApp.time_label s2 -> s1 = s2).
Proof.
  intros H1 H2. unfold PomodoroApp.time_label. cbv zeta.
  assert (Hm1 : 0 <= s1 / 60 < 100)
    by (split; [apply Z.div_pos; lia | apply Z.div_lt_upper_bound; lia]).
  assert (Hm2 : 0 <= s2 / 60 < 100)
    by (split; [apply Z.div_pos; lia | apply Z.div_lt_upper_bound; lia]).
  assert (Hs1 : 0 <= s1 mod 60 < 100)
    by (pose proof (Z.mod_pos_bound s1 60); lia).
  assert (Hs2 : 0 <= s2 mod 60 < 100)
    by (pose proof (Z.mod_pos_bound s2 60); lia).
  pose proof (format_02d_length _ Hm1) as L1.
  pose proof (format_02d_length _ Hm2) as L2.
  pose proof (format_02d_length _ Hs1) as L3.
  split; [|split].
  - rewrite !append_length, L1, L3. reflexivity.
  - destruct (PomodoroApp.format_02d (s1 / 60)) as [|c1 [|c2 [|c3 m]]];
      try discriminate L1. reflexivity.
  - intros Heq.
    destruct (append_same_length _ _ _ _ (eq_trans L1 (eq_sym L2)) Heq) as [Ha Hb].
    cbn in Hb. injection Hb as Hb.
    apply format_02d_injective in Ha; [|assumption|assumption].
    apply format_02d_injective in Hb; [|assumption|assumption].
    rewrite (Z.div_mod s1 60), (Z.div_mod s2 60) by lia. congruence.
Qed.

Lemma time_label_is_faithful_witness :
  0 <= 1500 < 6000 /\ 0 <= 61 < 6000
  /\ PomodoroApp.time_label 1500 = "25:00"
  /\ PomodoroApp.time_label 61 = "01:01"
  /\ String.length (PomodoroApp.time_label 1500) = 5%nat.
Proof.
  split; [lia|]. split; [lia|]. split; [reflexivity|]. split; [reflexivity|].
  destruct (time_label_is_faithful 1500 61) as (Hlen & _ & _); [lia | lia |].
  exact Hlen.
Defined.

End Display.

(** ** Changing the key *)

Section KeyChange.

Import DatabaseManager.

Lemma update_where_id_absent (f : settings.row -> settings.row) (i : Z)
    (tb : tables) :
  has_id i (settings_rows tb) = false -> update_where_id f i tb = tb.
Proof.
  destruct tb as [ss sq rows sq']. unfold update_where_id, has_id. cbn.
  intros H. f_equal. induction rows as [|r rows IH]; [reflexivity|].
  cbn in *. apply orb_false_iff in H. destruct H as [H1 H2].
  rewrite H1, IH by exact H2. reflexivity.
Qed.

Lemma execute_updates_absent (kwargs : list (string * value)) (i : Z)
    (tb : tables) :
  has_id i (settings_rows tb) = false ->
  snd (execute_updates kwargs i tb) = tb.
Proof.
  intros Habs. induction kwargs as [|[key v] kwargs IH]; [reflexivity|].
  cbn. destruct (sql_update key v i tb) as [tb1|e] eqn:E; [|reflexivity].
  apply sql_update_shape in E. destruct E as (f & ->).
  rewrite update_where_id_absent by exact Habs. exact IH.
Qed.

(** X23. When a keyword argument gives the key column ([id], or SQLite's
    [rowid]) a new value that fits and is not taken, every argument after it
    is without effect: the later statements still select by the key read at
    the start of the call, which no row carries any more. Whatever plain
    names follow (none of them giving text to an [INTEGER] column), and
    whether the call then returns or raises, the settings rows end up with
    the key changed and nothing else. *)
Theorem update_settings_after_key_change
    (c : t) (row : settings.row) (key : string) (z : Z)
    (post : list (string * value)) :
  get_settings c = Some row ->
  column_of_name key = Some c_id ->
  plain_name key = true ->
  sqlite_int z = true ->
  z <> settings.id row ->
  has_id z (settings_rows (view c)) = false ->
  Forall (fun kw => covered kw = true) post ->
  fst (update_settings ((key, VInt z) :: post) c) <> Raise OutsideModel
  /\ settings_rows (view (snd (update_settings ((key, VInt z) :: post) c)))
     = map (fun r => if settings.id r =? settings.id row
                     then set_int c_id z r else r)
           (settings_rows (view c)).
Proof.
  intros Hrow Hcol Hplain Hz Hne Hfree Hpost0. split.
  { apply update_settings_covered. constructor; [|exact Hpost0].
    unfold covered. cbn [fst snd]. rewrite Hplain. reflexivity. }
  unfold update_settings. rewrite Hrow.
  cbn [execute_updates]. unfold sql_update. rewrite Hcol, Hz, Hfree.
  cbn [negb]. rewrite andb_false_r.
  set (tb1 := update_where_id (set_int c_id z) (settings.id row) (view c)).
  assert (Habs : has_id (settings.id row) (settings_rows tb1) = false).
  { unfold tb1, update_where_id, has_id. cbn. clear Hfree tb1.
    induction (settings_rows (view c)) as [|r rows IH]; [reflexivity|].
    cbn. rewrite IH, orb_false_r.
    destruct (settings.id r =? settings.id row) eqn:E; [|exact E].
    destruct r. cbn. apply Z.eqb_neq. exact Hne. }
  pose proof (execute_updates_absent post (settings.id row) tb1 Habs) as Hpost.
  destruct (execute_updates post (settings.id row) tb1) as [[[]|e] tb2];
    cbn [snd] in Hpost; subst tb2; reflexivity.
Qed.

Lemma update_settings_after_key_change_witness :
  get_settings fresh_store = Some (settings.mk 1 25 5 15 4 0 0 1 default_username)
  /\ column_of_name "id" = Some c_id
  /\ plain_name "id" = true
  /\ sqlite_int 7 = true /\ 7 <> 1
  /\ has_id 7 (settings_rows (view fresh_store)) = false
  /\ Forall (fun kw => covered kw = true)
       [("work_duration", VInt 30); ("short_break", VInt 9)]
  /\ settings_rows
       (view (snd (update_settings
                     [("id", VInt 7); ("work_duration", VInt 30);
                      ("short_break", VInt 9)] fresh_store)))
     = [settings.mk 7 25 5 15 4 0 0 1 default_username].
Proof.
  assert (Hpost : Forall (fun kw : string * value => covered kw = true)
                    [("work_duration", VInt 30); ("short_break", VInt 9)])
    by (repeat constructor).
  split; [reflexivity|]. split; [reflexivity|]. split; [reflexivity|].
  split; [reflexivity|]. split; [lia|]. split; [reflexivity|].
  split; [exact Hpost|].
  destruct (update_settings_after_key_change fresh_store
              (settings.mk 1 25 5 15 4 0 0 1 default_username) "id" 7
              [("work_duration", VInt 30); ("short_break", VInt 9)]
              eq_refl eq_refl eq_refl eq_refl ltac:(cbn; lia) eq_refl Hpost)
    as [_ Hrows].
  rewrite Hrows. reflexivity.
Defined.

End KeyChange.

